(** * email_qc_bot: a shallow embedding of [email_qc_bot.py]

    The script reads [events.csv], collects the drafts of [emails/], asks a
    text-generation service for a QC report on each draft, writes the report
    to [reports/], prints a summary line and optionally posts a digest to a
    webhook.

    Conventions of the embedding.
    - A Python [str] is a [string]: the bytes of its UTF-8 encoding.  Every
      string operation the script performs ([split] on an underscore,
      [rfind] of a dot, concatenation, comparison) commutes with that
      encoding; [len] of a string counts code points and is modelled so.
    - Effects are threaded through a state and exception monad [M]: the
      state carries the files written and a log of every interaction with
      the outside, in program order; an exception leaves the state as it is
      at the point where it is raised.
    - The environment (files read, service replies, clock, environment
      variables) is a [World].
    - The libraries the script imports but does not contain ([json],
      [termcolor]) are the operations of a [Runtime]; [RefRuntime] is an
      executable instance.
    - The module-level statements (building the API client, creating the
      [reports] directory) run before [main] and are not part of it. *)

From Stdlib Require Import String Ascii ZArith List Lia Bool.
From Stdlib Require Import DecimalString DecimalFacts DecimalPos DecimalN DecimalZ.
From stdpp Require Import gmap strings list.

Set Warnings "-register-all".

(** ** Python strings *)

Module Py.

(** The newline character, and the characters that a string literal of
    this file cannot hold. *)
Definition nl : string := String "010"%char EmptyString.
Definition dquote : ascii := "034"%char.

(** [sep.join(parts)] *)
Fixpoint join (sep : string) (parts : list string) : string :=
  match parts with
  | [] => EmptyString
  | [p] => p
  | p :: ps => p +:+ sep +:+ join sep ps
  end.

(** [s.endswith(suffix)] *)
Definition endswith (s suffix : string) : bool :=
  let n := String.length s in
  let m := String.length suffix in
  (m <=? n)%nat && String.eqb (substring (n - m) m s) suffix.

(** [s.rfind(c)] for a one-character [c]: the highest index of [c], or -1. *)
Fixpoint rfind_from (c : ascii) (s : string) (i : Z) (found : Z) : Z :=
  match s with
  | EmptyString => found
  | String a r => rfind_from c r (i + 1) (if Ascii.eqb a c then i else found)
  end.

Definition rfind (c : ascii) (s : string) : Z := rfind_from c s 0 (-1).

(** [s.partition(c)] cut short: the text before the first [c], and the
    text after it when there is one. *)
Fixpoint cut (c : ascii) (s : string) : string * option string :=
  match s with
  | EmptyString => (EmptyString, None)
  | String a r =>
      if Ascii.eqb a c then (EmptyString, Some r)
      else let (h, t) := cut c r in (String a h, t)
  end.

(** [s.split(c, maxsplit)] for a one-character separator and
    [maxsplit >= 0]. *)
Fixpoint split (c : ascii) (maxsplit : nat) (s : string) : list string :=
  match maxsplit with
  | O => [s]
  | S m =>
      match cut c s with
      | (h, None) => [h]
      | (h, Some t) => h :: split c m t
      end
  end.

(** [str(n)] for a non-negative and for any integer. *)
Definition str_nat (n : nat) : string := NilZero.string_of_uint (Nat.to_uint n).
Definition str_int (z : Z) : string := NilZero.string_of_int (Z.to_int z).

(** [len(s)]: the number of code points, that is of bytes that are not
    UTF-8 continuation bytes (0x80..0xBF). *)
Definition is_continuation (a : ascii) : bool :=
  let n := nat_of_ascii a in (128 <=? n)%nat && (n <? 192)%nat.

Fixpoint len_str (s : string) : nat :=
  match s with
  | EmptyString => 0
  | String a r => (if is_continuation a then 0 else 1) + len_str r
  end.

(** Truth value of a string: empty is false. *)
Definition truthy (s : string) : bool := negb (String.eqb s EmptyString).

End Py.

(** ** pathlib *)

(** A path is the list of its components. *)
Definition Path : Type := list string.

Definition path_div (p : Path) (child : string) : Path := p ++ [child].

(** [p.name]: the final component. *)
Definition path_name (p : Path) : string := default EmptyString (last p).

(** [p.stem]: the final component without its last suffix.  As in
    [pathlib] up to Python 3.13: the dot that starts the suffix is neither
    the first nor the last character of the name. *)
Definition path_stem (p : Path) : string :=
  let name := path_name p in
  let i := Py.rfind "." name in
  if ((0 <? i) && (i <? Z.of_nat (String.length name) - 1))%Z
  then substring 0 (Z.to_nat i) name
  else name.

(** ** JSON values, as [json.loads] builds them *)

Inductive json : Type :=
| JNull
| JBool (b : bool)
| JInt (n : Z)
| JFloat (repr : string)   (* a float, carried by its [repr] *)
| JStr (s : string)
| JList (items : list json)
| JDict (entries : list (string * json)).   (* in insertion order *)

(** [d.get(key)] on the entries of a dict. *)
Fixpoint dict_get (key : string) (d : list (string * json)) : option json :=
  match d with
  | [] => None
  | (k, v) :: rest => if String.eqb k key then Some v else dict_get key rest
  end.

Definition dict_keys (d : list (string * json)) : list string := map fst d.

(** Pairs of strings as a dict: a key that comes again keeps its place and
    takes the later value. *)
Fixpoint pairs_set (k v : string) (d : list (string * string)) : list (string * string) :=
  match d with
  | [] => [(k, v)]
  | (k', v') :: rest =>
      if String.eqb k' k then (k', v) :: rest else (k', v') :: pairs_set k v rest
  end.

Definition dict_of_pairs (l : list (string * string)) : list (string * string) :=
  fold_left (fun d kv => pairs_set (fst kv) (snd kv) d) l [].

(** ** Exceptions, results and the monad *)

Inductive exn : Type :=
| FileNotFoundError (msg : string)
| AttributeError
| TypeError
| JSONDecodeError
| ForeignError (what : string).   (* raised by the environment: pandas, file
                                     decoding, the API client, requests *)

Inductive result (A : Type) : Type :=
| Ok (a : A)
| Raise (e : exn).
Arguments Ok {A} a.
Arguments Raise {A} e.

(** One chat message and one request to the service. *)
Record Message : Type := { role : string; content : string }.

Record Request : Type := {
  model : string;
  messages : list Message;
  temperature : string;
}.

(** What the run does to the outside, in program order. *)
Inductive event : Type :=
| EvExists (p : Path) (found : bool)
| EvReadCsv (p : Path)
| EvGlob (dir : Path) (pattern : string)
| EvReadText (p : Path)
| EvCreate (req : Request)
| EvWriteText (p : Path) (text : string)
| EvPrint (line : string)
| EvPost (url : string) (body : json).

Record State : Type := {
  disk : gmap Path string;   (* the files written by [write_text] *)
  log : list event;
}.

Definition M (A : Type) : Type := State -> result A * State.

Definition ret {A} (a : A) : M A := fun s => (Ok a, s).
Definition raise {A} (e : exn) : M A := fun s => (Raise e, s).
Definition bind {A B} (m : M A) (k : A -> M B) : M B :=
  fun s => match m s with
           | (Ok a, s') => k a s'
           | (Raise e, s') => (Raise e, s')
           end.
Definition lift {A} (r : result A) : M A := fun s => (r, s).
Definition emit (e : event) : M unit :=
  fun s => (Ok tt, {| disk := disk s; log := log s ++ [e] |}).
Definition history : M (list event) := fun s => (Ok (log s), s).

Notation "x <- m ;; k" := (bind m (fun x => k))
  (at level 90, m at level 80, right associativity).
Notation "m ;;; k" := (bind m (fun _ => k))
  (at level 90, right associativity).

(** [for x in l: acc = body(x, acc)]; an exception leaves the loop. *)
Fixpoint for_each {A B} (body : A -> B -> M B) (l : list A) (acc : B) : M B :=
  match l with
  | [] => ret acc
  | x :: rest => acc' <- body x acc ;; for_each body rest acc'
  end.

(** ** The imported libraries *)

(** [json.loads] ([None] when it raises a decode error), [json.dumps]
    with its [indent] argument, [termcolor.colored], and [str] of a list or
    dict (which the script never reaches). *)
Class Runtime : Type := {
  json_loads : string -> option json;
  json_dumps : option nat -> json -> string;
  colored : string -> string -> string;
  repr_container : json -> string;
}.

(** A value without floats, whose integers fit 64 bits and whose dicts have
    pairwise distinct keys: what the script itself builds and serialises.
    (CPython refuses to print an integer of more than 4300 digits.) *)
Fixpoint plain (v : json) : bool :=
  match v with
  | JNull | JBool _ | JStr _ => true
  | JInt n => (Z.abs n <? 2 ^ 63)%Z
  | JFloat _ => false
  | JList items => forallb plain items
  | JDict entries =>
      bool_decide (NoDup (map fst entries)) && forallb (fun kv => plain (snd kv)) entries
  end.

(** What the script's correctness rests on in the [json] module: a value
    that [loads] produced, or a plain value, is serialised to a text that
    [loads] accepts (valid JSON, for that module) and reads back as the
    same value. *)
Record JsonLaws (R : Runtime) : Prop := {
  loads_dumps_parsed : forall s v indent,
    json_loads s = Some v -> json_loads (json_dumps indent v) = Some v;
  loads_dumps_plain : forall v indent,
    plain v = true -> json_loads (json_dumps indent v) = Some v;
}.

(** ** The environment *)

(** [events.csv] as [pandas.read_csv(..., dtype=str).fillna("")] returns
    it: column labels and rows of cells, all strings. *)
Record DataFrame : Type := {
  columns : list string;
  rows : list (list string);
}.

(** An entry of the [emails] directory: its name, and what reading it as
    UTF-8 text gives. *)
Record DirEntry : Type := {
  entry_name : string;
  entry_text : result string;
}.

(** [utcnow()] *)
Record datetime : Type := {
  year : nat; month : nat; day : nat; hour : nat; minute : nat;
}.

Record World : Type := {
  (* [None]: no such file; [Raise]: pandas fails on it *)
  events_csv : option (result DataFrame);
  (* [None]: no such directory; the entries in the order a scan yields them *)
  emails_dir : option (list DirEntry);
  (* the service, which may answer by what happened before: an exception,
     or the [content] of the first choice ([None] when it has none) *)
  service : list event -> Request -> result (option string);
  (* [requests.post]: the exception it raises, if any *)
  post : list event -> string -> json -> option exn;
  environ : gmap string string;
  utcnow : datetime;
}.

(** ** The script *)

Section Script.

Context {R : Runtime} (w : World).

Definition EVENT_CSV : Path := ["events.csv"].
Definition EMAIL_DIR : Path := ["emails"].
Definition REPORT_DIR : Path := ["reports"].

Definition STYLE_RULES : json :=
  JDict [ ("subject_max_chars", JInt 55);
          ("preview_max_chars", JInt 120);
          ("body_max_chars", JInt 1800) ].

Definition SYSTEM_PROMPT : string :=
  "You are an email quality‑assurance assistant. "
  +:+ "Given authoritative event metadata and an email draft, produce:" +:+ Py.nl
  +:+ "1. A list of factual errors (if any) – cite the field." +:+ Py.nl
  +:+ "2. Style warnings (length limits, missing links, branding tone)." +:+ Py.nl
  +:+ "3. A one‑sentence traffic‑light summary: GREEN OK, YELLOW warnings, RED critical." +:+ Py.nl
  +:+ "Respond as JSON with keys: errors, warnings, traffic_light.".

(** *** Primitive effects *)

(** [p.exists()] *)
Definition path_exists (p : Path) (found : bool) : M bool :=
  emit (EvExists p found) ;;; ret found.

(** [p.write_text(text, encoding="utf-8")] *)
Definition write_text (p : Path) (text : string) : M unit :=
  fun s => (Ok tt, {| disk := <[p := text]> (disk s);
                      log := log s ++ [EvWriteText p text] |}).

(** What reading a path of the emails directory as text gives. *)
Definition draft_text (p : Path) : result string :=
  match emails_dir w with
  | None => Raise (ForeignError "FileNotFoundError")
  | Some entries =>
      match List.find (fun e => String.eqb (entry_name e) (path_name p)) entries with
      | None => Raise (ForeignError "FileNotFoundError")
      | Some e => entry_text e
      end
  end.

(** [p.read_text(encoding="utf-8")] *)
Definition read_text (p : Path) : M string :=
  emit (EvReadText p) ;;; lift (draft_text p).

(** [print(line)] *)
Definition print (line : string) : M unit := emit (EvPrint line).

(** [os.getenv(name)] *)
Definition getenv (name : string) : option string := environ w !! name.

Definition truthy_env (v : option string) : bool :=
  match v with
  | None => false
  | Some s => Py.truthy s
  end.

(** [dir.glob("*" + suffix)]: the entries whose name ends with the suffix,
    in the order of the scan. *)
Definition glob (dir : Path) (entries : list DirEntry) (suffix : string) : M (list Path) :=
  emit (EvGlob dir ("*" +:+ suffix)) ;;;
  ret (map (fun e => path_div dir (entry_name e))
           (filter (fun e => Is_true (Py.endswith (entry_name e) suffix)) entries)).

(** *** load_events *)

(** [row.to_dict()] *)
Definition to_dict (cols cells : list string) : list (string * string) :=
  dict_of_pairs (combine cols cells).

(** [{row.event_id: row.to_dict() for _, row in events_df.iterrows()}] *)
Fixpoint index_rows (cols : list string) (rs : list (list string))
    (acc : gmap string (list (string * string)))
    : result (gmap string (list (string * string))) :=
  match rs with
  | [] => Ok acc
  | cells :: rest =>
      let row := to_dict cols cells in
      match List.find (fun kv => String.eqb (fst kv) "event_id") row with
      | None => Raise AttributeError
      | Some kv => index_rows cols rest (<[snd kv := row]> acc)
      end
  end.

Definition load_events : M (gmap string (list (string * string))) :=
  found <- path_exists EVENT_CSV (bool_decide (is_Some (events_csv w))) ;;
  match events_csv w with
  | None =>
      raise (FileNotFoundError
               "events.csv not found – create your source‑of‑truth file first.")
  | Some read =>
      emit (EvReadCsv EVENT_CSV) ;;;
      events_df <- lift read ;;
      lift (index_rows (columns events_df) (rows events_df) ∅)
  end.

(** *** gather_emails *)

Definition gather_emails : M (list Path) :=
  found <- path_exists EMAIL_DIR (bool_decide (is_Some (emails_dir w))) ;;
  match emails_dir w with
  | None => raise (FileNotFoundError "emails/ directory not found.")
  | Some entries =>
      md <- glob EMAIL_DIR entries ".md" ;;
      txt <- glob EMAIL_DIR entries ".txt" ;;
      ret (md ++ txt)
  end.

(** *** extract_event_id *)

Definition extract_event_id (filename : Path) : string :=
  nth 0 (Py.split "_" 1 (path_stem filename)) EmptyString.

(** *** call_llm *)

Definition event_json (event_meta : list (string * string)) : json :=
  JDict (map (fun kv => (fst kv, JStr (snd kv))) event_meta).

Definition user_prompt (event_meta : list (string * string)) (email_text : string) : json :=
  JDict [ ("event", event_json event_meta);
          ("email", JStr email_text);
          ("style_rules", STYLE_RULES) ].

Definition llm_request (event_meta : list (string * string)) (email_text : string) : Request :=
  {| model := "gpt-4o-mini";
     messages :=
       [ {| role := "system"; content := SYSTEM_PROMPT |};
         {| role := "user"; content := json_dumps None (user_prompt event_meta email_text) |} ];
     temperature := "0.0" |}.

Definition call_llm (event_meta : list (string * string)) (email_text : string) : M json :=
  let req := llm_request event_meta email_text in
  h <- history ;;
  emit (EvCreate req) ;;;
  response <- lift (service w h req) ;;
  match response with
  | None => raise TypeError               (* json.loads(None) *)
  | Some text =>
      match json_loads text with
      | None => raise JSONDecodeError
      | Some v => ret v
      end
  end.

(** *** colour_light *)

(** [{...}.get(light, light)]: the lookup hashes [light] first, which a
    list or a dict refuses. *)
Definition colour_light (light : json) : result json :=
  match light with
  | JList _ | JDict _ => Raise TypeError
  | JStr s =>
      if String.eqb s "GREEN" then Ok (JStr (colored "GREEN" "green"))
      else if String.eqb s "YELLOW" then Ok (JStr (colored "YELLOW" "yellow"))
      else if String.eqb s "RED" then Ok (JStr (colored "RED" "red"))
      else Ok light
  | _ => Ok light
  end.

(** *** Builtins applied to the report *)

(** [report.get(key, default)]: only a dict has [get]. *)
Definition py_get (report : json) (key : string) (dflt : json) : result json :=
  match report with
  | JDict entries => Ok (default dflt (dict_get key entries))
  | _ => Raise AttributeError
  end.

(** [len(v)] *)
Definition py_len (v : json) : result nat :=
  match v with
  | JList items => Ok (length items)
  | JDict entries => Ok (length entries)
  | JStr s => Ok (Py.len_str s)
  | _ => Raise TypeError
  end.

(** [str(v)], as an f-string formats a value. *)
Definition py_str (v : json) : string :=
  match v with
  | JNull => "None"
  | JBool true => "True"
  | JBool false => "False"
  | JInt n => Py.str_int n
  | JFloat r => r
  | JStr s => s
  | JList _ | JDict _ => repr_container v
  end.

(** *** send_slack *)

Definition send_slack (message : string) : M unit :=
  match getenv "SLACK_WEBHOOK_URL" with
  | None => ret tt
  | Some webhook =>
      if Py.truthy webhook then
        let body := JDict [("text", JStr message)] in
        h <- history ;;
        emit (EvPost webhook body) ;;;
        match post w h webhook body with
        | None => ret tt
        | Some e => raise e
        end
      else ret tt
  end.

(** *** main *)

(** [strftime("%Y‑%m‑%d %H:%M")] *)
Definition pad2 (n : nat) : string :=
  if (n <? 10)%nat then "0" +:+ Py.str_nat n else Py.str_nat n.

Definition strftime (t : datetime) : string :=
  Py.str_nat (year t) +:+ "‑" +:+ pad2 (month t) +:+ "‑" +:+ pad2 (day t)
  +:+ " " +:+ pad2 (hour t) +:+ ":" +:+ pad2 (minute t).

Definition skip_notice (f : Path) (event_id : string) : string :=
  colored ("[SKIP] " +:+ path_name f +:+ ": event_id '" +:+ event_id
           +:+ "' not in events.csv") "red".

Definition report_path (f : Path) : Path :=
  path_div REPORT_DIR (path_stem f +:+ "_report.json").

Definition summary (f : Path) (light : json) (n_errors n_warnings : nat) : string :=
  path_name f +:+ ": " +:+ py_str light +:+ " – " +:+ Py.str_nat n_errors
  +:+ " errors, " +:+ Py.str_nat n_warnings +:+ " warnings".

(** The body of the [for] loop; [overall] is the list it appends to. *)
Definition process (events : gmap string (list (string * string)))
    (f : Path) (overall : list (string * json)) : M (list (string * json)) :=
  let event_id := extract_event_id f in
  match events !! event_id with
  | None =>
      print (skip_notice f event_id) ;;;
      ret overall
  | Some event_meta =>
      email_text <- read_text f ;;
      report <- call_llm event_meta email_text ;;
      (* write full report *)
      write_text (report_path f) (json_dumps (Some 2) report) ;;;
      (* CLI summary *)
      tl <- lift (py_get report "traffic_light" (JStr "?")) ;;
      light <- lift (colour_light tl) ;;
      errors <- lift (py_get report "errors" (JList [])) ;;
      n_errors <- lift (py_len errors) ;;
      warnings <- lift (py_get report "warnings" (JList [])) ;;
      n_warnings <- lift (py_len warnings) ;;
      print (summary f light n_errors n_warnings) ;;;
      ret (overall ++ [(path_name f, tl)])
  end.

(** What the summary statement of the loop body computes from a report,
    before it prints: the line and the traffic light, or the exception. *)
Definition cli_summary (f : Path) (report : json) : result (string * json) :=
  match py_get report "traffic_light" (JStr "?") with
  | Raise e => Raise e
  | Ok tl =>
      match colour_light tl with
      | Raise e => Raise e
      | Ok light =>
          match py_get report "errors" (JList []) with
          | Raise e => Raise e
          | Ok errors =>
              match py_len errors with
              | Raise e => Raise e
              | Ok n_errors =>
                  match py_get report "warnings" (JList []) with
                  | Raise e => Raise e
                  | Ok warnings =>
                      match py_len warnings with
                      | Raise e => Raise e
                      | Ok n_warnings => Ok (summary f light n_errors n_warnings, tl)
                      end
                  end
              end
          end
      end
  end.

Definition summary_line (entry : string * json) : string :=
  "*" +:+ fst entry +:+ "* → " +:+ py_str (snd entry).

Definition digest_header : string :=
  "QC Summary (" +:+ strftime (utcnow w) +:+ "):" +:+ Py.nl.

Definition main : M unit :=
  events <- load_events ;;
  email_files <- gather_emails ;;
  overall <- for_each (process events) email_files [] ;;
  (* Slack summary *)
  if truthy_env (getenv "SLACK_WEBHOOK_URL") then
    let summary_lines := map summary_line overall in
    send_slack (digest_header +:+ Py.join Py.nl summary_lines)
  else ret tt.

End Script.

(** ** A reference runtime

    An executable [json] and [termcolor], to run the script on concrete
    inputs.  It follows CPython's [json] module (the scanner of
    [json.decoder], the encoder of [json.encoder] with [ensure_ascii]) on
    texts whose strings are ASCII and whose numbers are integers, and
    only there: it rejects a number with a fraction or an exponent and an
    escape above [\u00ff], which [json.loads] accepts, and it escapes and
    reads back the bytes above 126 one by one, where [json.dumps] writes
    one escape for a code point.  The theorems are about any [Runtime];
    the instance serves the example inputs, which stay in that range. *)

Module RefJson.

(** *** Encoder *)

Definition hex_digit (n : nat) : ascii :=
  nth n (list_ascii_of_string "0123456789abcdef") "0"%char.

(** [ESCAPE_ASCII] *)
Definition escape_char (c : ascii) : string :=
  let n := nat_of_ascii c in
  if Ascii.eqb c Py.dquote then String "\" (String Py.dquote EmptyString)
  else if Ascii.eqb c "\" then "\\"
  else if Ascii.eqb c "010" then "\n"
  else if Ascii.eqb c "013" then "\r"
  else if Ascii.eqb c "009" then "\t"
  else if Ascii.eqb c "008" then "\b"
  else if Ascii.eqb c "012" then "\f"
  else if ((32 <=? n) && (n <? 127))%nat then String c EmptyString
  else "\u00" +:+ String (hex_digit (n / 16)) (String (hex_digit (n mod 16)) EmptyString).

Fixpoint escape (s : string) : string :=
  match s with
  | EmptyString => EmptyString
  | String c r => escape_char c +:+ escape r
  end.

Definition encode_string (s : string) : string :=
  String Py.dquote (escape s +:+ String Py.dquote EmptyString).

Fixpoint spaces (n : nat) : string :=
  match n with
  | O => EmptyString
  | S m => String " " (spaces m)
  end.

(** The text between an opening bracket and the first item, and between
    the last item and the closing bracket, at a nesting level. *)
Definition newline_indent (indent : option nat) (level : nat) : string :=
  match indent with
  | None => EmptyString
  | Some k => Py.nl +:+ spaces (k * level)
  end.

(** The text after the comma between two items. *)
Definition after_comma (indent : option nat) (level : nat) : string :=
  match indent with
  | None => " "
  | Some k => Py.nl +:+ spaces (k * level)
  end.

Definition encode_float (r : string) : string :=
  if String.eqb r "nan" then "NaN"
  else if String.eqb r "inf" then "Infinity"
  else if String.eqb r "-inf" then "-Infinity"
  else r.

(** Items after the first, each behind its separator. *)
Definition join_items (sep : string) (texts : list string) : string :=
  match texts with
  | [] => EmptyString
  | t :: ts => t +:+ fold_right (fun x acc => sep +:+ x +:+ acc) EmptyString ts
  end.

Fixpoint dumps_at (indent : option nat) (level : nat) (v : json) : string :=
  match v with
  | JNull => "null"
  | JBool true => "true"
  | JBool false => "false"
  | JInt n => Py.str_int n
  | JFloat r => encode_float r
  | JStr s => encode_string s
  | JList [] => "[]"
  | JList items =>
      "[" +:+ newline_indent indent (S level)
      +:+ join_items (String "," (after_comma indent (S level)))
            (map (dumps_at indent (S level)) items)
      +:+ newline_indent indent level +:+ "]"
  | JDict [] => "{}"
  | JDict entries =>
      "{" +:+ newline_indent indent (S level)
      +:+ join_items (String "," (after_comma indent (S level)))
            (map (fun kv => encode_string (fst kv) +:+ ": "
                            +:+ dumps_at indent (S level) (snd kv)) entries)
      +:+ newline_indent indent level +:+ "}"
  end.

Definition dumps (indent : option nat) (v : json) : string := dumps_at indent 0 v.

(** *** Decoder *)

Definition is_ws (c : ascii) : bool :=
  Ascii.eqb c " " || Ascii.eqb c "009" || Ascii.eqb c "010" || Ascii.eqb c "013".

Fixpoint skip_ws (s : string) : string :=
  match s with
  | EmptyString => EmptyString
  | String c r => if is_ws c then skip_ws r else s
  end.

Definition hex_value (c : ascii) : option nat :=
  let n := nat_of_ascii c in
  if ((48 <=? n) && (n <=? 57))%nat then Some (n - 48)
  else if ((97 <=? n) && (n <=? 102))%nat then Some (n - 87)
  else if ((65 <=? n) && (n <=? 70))%nat then Some (n - 55)
  else None.

Definition unescape (c : ascii) : option ascii :=
  if Ascii.eqb c Py.dquote then Some Py.dquote
  else if Ascii.eqb c "\" then Some "\"%char
  else if Ascii.eqb c "/" then Some "/"%char
  else if Ascii.eqb c "b" then Some "008"%char
  else if Ascii.eqb c "f" then Some "012"%char
  else if Ascii.eqb c "n" then Some "010"%char
  else if Ascii.eqb c "r" then Some "013"%char
  else if Ascii.eqb c "t" then Some "009"%char
  else None.

Definition cons_char (c : ascii) (r : option (string * string)) : option (string * string) :=
  match r with
  | Some (t, rest) => Some (String c t, rest)
  | None => None
  end.

(** [scanstring], from the character after the opening quote: the string
    and the text after its closing quote. *)
Fixpoint scan_string (s : string) : option (string * string) :=
  match s with
  | EmptyString => None
  | String c r =>
      if Ascii.eqb c Py.dquote then Some (EmptyString, r)
      else if Ascii.eqb c "\" then
        match r with
        | EmptyString => None
        | String e r1 =>
            if Ascii.eqb e "u" then
              match r1 with
              | String h1 (String h2 (String h3 (String h4 r2))) =>
                  match hex_value h1, hex_value h2, hex_value h3, hex_value h4 with
                  | Some 0, Some 0, Some a, Some b =>
                      cons_char (ascii_of_nat (16 * a + b)) (scan_string r2)
                  | _, _, _, _ => None
                  end
              | _ => None
              end
            else
              match unescape e with
              | Some c' => cons_char c' (scan_string r1)
              | None => None
              end
        end
      else if (nat_of_ascii c <? 32)%nat then None
      else cons_char c (scan_string r)
  end.

Definition is_digit (c : ascii) : bool :=
  let n := nat_of_ascii c in ((48 <=? n) && (n <=? 57))%nat.

Fixpoint span_digits (s : string) : string * string :=
  match s with
  | EmptyString => (EmptyString, EmptyString)
  | String c r =>
      if is_digit c then let (ds, rest) := span_digits r in (String c ds, rest)
      else (EmptyString, s)
  end.

(** Starts a fraction or an exponent (or goes on with a digit). *)
Definition continues_number (s : string) : bool :=
  match s with
  | EmptyString => false
  | String c _ => is_digit c || Ascii.eqb c "." || Ascii.eqb c "e" || Ascii.eqb c "E"
  end.

(** [NUMBER_RE], integers only: an optional minus sign, then a zero or a
    digit from 1 to 9 followed by digits. *)
Definition scan_int (s : string) : option (Z * string) :=
  let (negative, s1) :=
    match s with
    | String c r => if Ascii.eqb c "-" then (true, r) else (false, s)
    | EmptyString => (false, s)
    end in
  let (ds, rest) := span_digits s1 in
  match ds with
  | EmptyString => None
  | String d more =>
      if Ascii.eqb d "0" && negb (String.eqb more EmptyString) then None
      else if continues_number rest then None
      else
        match NilZero.uint_of_string ds with
        | Some u => Some (if negative then (- Z.of_uint u)%Z else Z.of_uint u, rest)
        | None => None
        end
  end.

(** A literal at the head of the text. *)
Definition scan_literal (lit : string) (v : json) (s : string) : option (json * string) :=
  if String.prefix lit s
  then Some (v, substring (String.length lit) (String.length s - String.length lit) s)
  else None.

(** [dict(pairs)]: a key that comes again keeps its place and takes the
    later value. *)
Fixpoint dict_set (k : string) (v : json) (d : list (string * json)) : list (string * json) :=
  match d with
  | [] => [(k, v)]
  | (k', v') :: rest =>
      if String.eqb k' k then (k', v) :: rest else (k', v') :: dict_set k v rest
  end.

Definition dict_of (pairs : list (string * json)) : list (string * json) :=
  fold_left (fun d kv => dict_set (fst kv) (snd kv) d) pairs [].

(** The items of an array from its first value on, given the scanner of
    one value; [n] bounds the number of items. *)
Fixpoint scan_items (scan : string -> option (json * string)) (n : nat) (s : string)
    : option (list json * string) :=
  match n with
  | O => None
  | S m =>
      match scan s with
      | None => None
      | Some (v, r) =>
          match skip_ws r with
          | EmptyString => None
          | String c rest =>
              if Ascii.eqb c "]" then Some ([v], rest)
              else if Ascii.eqb c "," then
                match scan_items scan m (skip_ws rest) with
                | Some (vs, rest') => Some (v :: vs, rest')
                | None => None
                end
              else None
          end
      end
  end.

(** The pairs of an object from the quote of its first key on. *)
Fixpoint scan_pairs (scan : string -> option (json * string)) (n : nat) (s : string)
    : option (list (string * json) * string) :=
  match n with
  | O => None
  | S m =>
      match s with
      | EmptyString => None
      | String q r0 =>
          if Ascii.eqb q Py.dquote then
            match scan_string r0 with
            | None => None
            | Some (key, r1) =>
                match skip_ws r1 with
                | EmptyString => None
                | String colon r2 =>
                    if Ascii.eqb colon ":" then
                      match scan (skip_ws r2) with
                      | None => None
                      | Some (v, r3) =>
                          match skip_ws r3 with
                          | EmptyString => None
                          | String c rest =>
                              if Ascii.eqb c "}" then Some ([(key, v)], rest)
                              else if Ascii.eqb c "," then
                                match scan_pairs scan m (skip_ws rest) with
                                | Some (kvs, rest') => Some ((key, v) :: kvs, rest')
                                | None => None
                                end
                              else None
                          end
                      end
                    else None
                end
            end
          else None
      end
  end.

(** [scan_once]: one value at the head of the text; [fuel] bounds the
    nesting. *)
Fixpoint scan_once (fuel : nat) (s : string) : option (json * string) :=
  match fuel with
  | O => None
  | S n =>
      match s with
      | EmptyString => None
      | String c r =>
          if Ascii.eqb c Py.dquote then
            match scan_string r with
            | Some (t, rest) => Some (JStr t, rest)
            | None => None
            end
          else if Ascii.eqb c "[" then
            match skip_ws r with
            | EmptyString => None
            | String c' rest =>
                if Ascii.eqb c' "]" then Some (JList [], rest)
                else
                  match scan_items (scan_once n) (S (String.length rest)) (String c' rest) with
                  | Some (vs, rest') => Some (JList vs, rest')
                  | None => None
                  end
            end
          else if Ascii.eqb c "{" then
            match skip_ws r with
            | EmptyString => None
            | String c' rest =>
                if Ascii.eqb c' "}" then Some (JDict [], rest)
                else
                  match scan_pairs (scan_once n) (S (String.length rest)) (String c' rest) with
                  | Some (kvs, rest') => Some (JDict (dict_of kvs), rest')
                  | None => None
                  end
            end
          else if Ascii.eqb c "n" then scan_literal "null" JNull s
          else if Ascii.eqb c "t" then scan_literal "true" (JBool true) s
          else if Ascii.eqb c "f" then scan_literal "false" (JBool false) s
          else
            match scan_int s with
            | Some (z, rest) => Some (JInt z, rest)
            | None => None
            end
      end
  end.

(** [json.loads]: one value, with blanks around it and nothing else. *)
Definition loads (s : string) : option json :=
  match scan_once (String.length s) (skip_ws s) with
  | Some (v, rest) =>
      match skip_ws rest with
      | EmptyString => Some v
      | _ => None
      end
  | None => None
  end.

(** *** Shapes of texts and values, to state what the decoder accepts *)

(** A value as the decoder builds them: no float, distinct keys. *)
Fixpoint tidy (v : json) : bool :=
  match v with
  | JNull | JBool _ | JInt _ | JStr _ => true
  | JFloat _ => false
  | JList items => forallb tidy items
  | JDict entries =>
      bool_decide (NoDup (map fst entries)) && forallb (fun kv => tidy (snd kv)) entries
  end.

(** The text is made of blanks. *)
Fixpoint blank (s : string) : bool :=
  match s with
  | EmptyString => true
  | String c r => is_ws c && blank r
  end.

(** The text starts with a character that is not a blank. *)
Definition solid (s : string) : bool :=
  match s with
  | EmptyString => false
  | String c _ => negb (is_ws c)
  end.

(** The text is made of digits. *)
Fixpoint all_digits (s : string) : bool :=
  match s with
  | EmptyString => true
  | String c r => is_digit c && all_digits r
  end.

(** A numeral that is neither empty nor led by a zero. *)
Definition leading (u : Decimal.uint) : bool :=
  match u with
  | Decimal.Nil | Decimal.D0 _ => false
  | _ => true
  end.

(** The text starts as an integer does. *)
Definition int_head (s : string) : bool :=
  match s with
  | EmptyString => false
  | String c _ => is_digit c || Ascii.eqb c "-"
  end.

(** The nesting of a value. *)
Fixpoint depth (v : json) : nat :=
  match v with
  | JList items => S (fold_right (fun x d => Nat.max (depth x) d) 0 items)
  | JDict entries => S (fold_right (fun kv d => Nat.max (depth (snd kv)) d) 0 entries)
  | _ => 0
  end.

(** The text starts a value: with a character that is no blank and closes
    nothing. *)
Definition starts_value (s : string) : bool :=
  match s with
  | EmptyString => false
  | String c _ => negb (is_ws c) && negb (Ascii.eqb c "]") && negb (Ascii.eqb c "}")
  end.

(** A value is read back from its text at a nesting level, with fuel [n]. *)
Definition reads_back (indent : option nat) (level n : nat) (v : json) : Prop :=
  forall rest, continues_number rest = false ->
    scan_once n (dumps_at indent level v +:+ rest) = Some (v, rest).

End RefJson.

(** [termcolor.colored] on a terminal: the text between the colour's escape
    sequence and the reset sequence. *)
Definition ansi_colored (text colour : string) : string :=
  let esc := String "027"%char "[" in
  let code :=
    if String.eqb colour "red" then "31"
    else if String.eqb colour "green" then "32"
    else if String.eqb colour "yellow" then "33"
    else "0" in
  esc +:+ code +:+ "m" +:+ text +:+ esc +:+ "0m".

#[export] Instance RefRuntime : Runtime := {|
  json_loads := RefJson.loads;
  json_dumps := RefJson.dumps;
  colored := ansi_colored;
  repr_container := RefJson.dumps None;
|}.

(** ** Specification-side definitions *)

(** "Truncating at the first underscore", in the spec's words: the
    characters before the first occurrence of [c], all of them when [c]
    does not occur. *)
Fixpoint truncate_at (c : ascii) (s : string) : string :=
  match s with
  | EmptyString => EmptyString
  | String a r => if Ascii.eqb a c then EmptyString else String a (truncate_at c r)
  end.

(** [c] occurs in [s]. *)
Fixpoint occurs (c : ascii) (s : string) : bool :=
  match s with
  | EmptyString => false
  | String a r => Ascii.eqb a c || occurs c r
  end.

(** A report of the documented shape: an object with exactly the keys
    [errors], [warnings] and [traffic_light]. *)
Definition REPORT_KEYS : list string := ["errors"; "warnings"; "traffic_light"].

Definition report_shaped (v : json) : Prop :=
  exists entries, v = JDict entries
    /\ forall k, In k (dict_keys entries) <-> In k REPORT_KEYS.

(** A value that can be a dict key (what [colour_light] needs), and a value
    that [len] accepts. *)
Definition hashable (v : json) : bool :=
  match v with
  | JList _ | JDict _ => false
  | _ => true
  end.

Definition sized (v : json) : bool :=
  match v with
  | JList _ | JDict _ | JStr _ => true
  | _ => false
  end.

(** The paths [gather_emails] collects from the entries of the directory. *)
Definition matching (suffix : string) (entries : list DirEntry) : list Path :=
  map (fun e => path_div EMAIL_DIR (entry_name e))
      (filter (fun e => Is_true (Py.endswith (entry_name e) suffix)) entries).

Definition collected (entries : list DirEntry) : list Path :=
  matching ".md" entries ++ matching ".txt" entries.

(** The log after [gather_emails] has enumerated an existing directory. *)
Definition gather_events : list event :=
  [ EvExists EMAIL_DIR true; EvGlob EMAIL_DIR "*.md"; EvGlob EMAIL_DIR "*.txt" ].

(** A state with one more logged event. *)
Definition logged (s : State) (evs : list event) : State :=
  {| disk := disk s; log := log s ++ evs |}.

(** The initial state of a run: nothing written, nothing logged. *)
Definition init : State := {| disk := ∅; log := [] |}.

(** The state after the report of a draft is written. *)
Definition written (s : State) (f : Path) (req : Request) (text : string) : State :=
  {| disk := <[report_path f := text]> (disk s);
     log := log s ++ [EvReadText f; EvCreate req; EvWriteText (report_path f) text] |}.

(** The log only grows, and a file once written stays. *)
Definition extends (s s' : State) : Prop :=
  log s `prefix_of` log s'
  /\ forall p, is_Some (disk s !! p) -> is_Some (disk s' !! p).

(** The configured webhook: the variable is set and not empty. *)
Definition webhook (w : World) : option string :=
  match environ w !! "SLACK_WEBHOOK_URL" with
  | Some url => if Py.truthy url then Some url else None
  | None => None
  end.

(** The message posted for the entries of [overall]. *)
Definition digest {R : Runtime} (w : World) (overall : list (string * json)) : string :=
  digest_header w +:+ Py.join Py.nl (map summary_line overall).

Definition digest_body (message : string) : json := JDict [("text", JStr message)].

(** The last statement of [main]. *)
Definition post_digest {R : Runtime} (w : World) (overall : list (string * json)) : M unit :=
  fun s =>
    match webhook w with
    | None => (Ok tt, s)
    | Some url =>
        (match post w (log s) url (digest_body (digest w overall)) with
         | None => Ok tt
         | Some e => Raise e
         end,
         logged s [EvPost url (digest_body (digest w overall))])
    end.

(** The log of a successful [load_events]. *)
Definition load_log : list event := [EvExists EVENT_CSV true; EvReadCsv EVENT_CSV].

(** ** Example inputs *)

(** A text between double quotes. *)
Definition quoted (s : string) : string :=
  String Py.dquote (s +:+ String Py.dquote EmptyString).

(** One event, [EVT1]. *)
Definition ex_frame : DataFrame :=
  {| columns := ["event_id"; "title"]; rows := [["EVT1"; "Launch"]] |}.

Definition ex_record : list (string * string) :=
  [("event_id", "EVT1"); ("title", "Launch")].

Definition ex_events : gmap string (list (string * string)) :=
  {[ "EVT1" := ex_record ]}.

(** Four entries, as a scan may yield them: two drafts of [EVT1], one draft
    of an unknown event, one file that is no draft of an event. *)
Definition ex_entries : list DirEntry :=
  [ {| entry_name := "notes.txt"; entry_text := Ok "Nothing yet." |};
    {| entry_name := "EVT1_invite_v1.md"; entry_text := Ok "Join us!" |};
    {| entry_name := "EVT9_promo.md"; entry_text := Ok "Promo" |};
    {| entry_name := "EVT1_reminder.txt"; entry_text := Ok "Starting soon." |} ].

Definition ex_invite : Path := ["emails"; "EVT1_invite_v1.md"].
Definition ex_promo : Path := ["emails"; "EVT9_promo.md"].
Definition ex_notes : Path := ["emails"; "notes.txt"].
Definition ex_reminder : Path := ["emails"; "EVT1_reminder.txt"].

(** A reply of the documented shape, with a given traffic light. *)
Definition ex_reply (light : string) : string :=
  "{" +:+ quoted "errors" +:+ ": [], "
  +:+ quoted "warnings" +:+ ": [" +:+ quoted "Subject too long" +:+ "], "
  +:+ quoted "traffic_light" +:+ ": " +:+ quoted light +:+ "}".

Definition ex_report_entries (light : string) : list (string * json) :=
  [ ("errors", JList []);
    ("warnings", JList [JStr "Subject too long"]);
    ("traffic_light", JStr light) ].

Definition ex_report (light : string) : json := JDict (ex_report_entries light).

(** A reply without the key [traffic_light]. *)
Definition ex_reply_partial : string :=
  "{" +:+ quoted "errors" +:+ ": [], " +:+ quoted "warnings" +:+ ": []}".

Definition ex_partial_entries : list (string * json) :=
  [ ("errors", JList []); ("warnings", JList []) ].

Definition ex_report_partial : json := JDict ex_partial_entries.

(** A reply with [warnings] alone. *)
Definition ex_reply_sparse : string :=
  "{" +:+ quoted "warnings" +:+ ": [" +:+ quoted "Subject too long" +:+ "]}".

Definition ex_sparse_entries : list (string * json) :=
  [ ("warnings", JList [JStr "Subject too long"]) ].

(** The number of requests in a log. *)
Definition requests (h : list event) : nat :=
  length (List.filter (fun e => match e with EvCreate _ => true | _ => false end) h).

(** A world with the files above, a webhook, and a service that answers by
    the log so far. *)
Definition ex_world (reply : list event -> string) : World :=
  {| events_csv := Some (Ok ex_frame);
     emails_dir := Some ex_entries;
     service := fun h _ => Ok (Some (reply h));
     post := fun _ _ _ => None;
     environ := {[ "SLACK_WEBHOOK_URL" := "https://hooks.example/T1" ]};
     utcnow := {| year := 2024; month := 5; day := 7; hour := 9; minute := 30 |} |}.

Definition ex_yellow : World := ex_world (fun _ => ex_reply "YELLOW").
Definition ex_blue : World := ex_world (fun _ => ex_reply "BLUE").
Definition ex_partial : World := ex_world (fun _ => ex_reply_partial).
Definition ex_sparse : World := ex_world (fun _ => ex_reply_sparse).

(** The first reply is a report, the later ones are no JSON. *)
Definition ex_broken : World :=
  ex_world (fun h => if (requests h =? 0)%nat then ex_reply "YELLOW"
                     else "Sorry, I cannot do that.").

(** No source file. *)
Definition ex_no_source : World :=
  {| events_csv := None;
     emails_dir := Some ex_entries;
     service := service ex_yellow;
     post := post ex_yellow;
     environ := environ ex_yellow;
     utcnow := utcnow ex_yellow |}.

(** A directory without drafts. *)
Definition ex_no_drafts : World :=
  {| events_csv := Some (Ok ex_frame);
     emails_dir := Some [ {| entry_name := "README.rst"; entry_text := Ok "Drafts go here." |} ];
     service := service ex_yellow;
     post := post ex_yellow;
     environ := environ ex_yellow;
     utcnow := utcnow ex_yellow |}.

(** The state in which the loop starts. *)
Definition ex_start : State := logged init (load_log ++ gather_events).

(** ** Further specification-side definitions *)

(** The events that the turn of a draft may add to the log. *)
Definition turn_event (f : Path) (e : event) : Prop :=
  match e with
  | EvReadText p => p = f
  | EvCreate _ => True
  | EvWriteText p _ => p = report_path f
  | EvPrint _ => True
  | _ => False
  end.

(** The draft has a record in the event mapping. *)
Definition has_record (events : gmap string (list (string * string))) (f : Path) : bool :=
  bool_decide (is_Some (events !! extract_event_id f)).

(** The log of the turn of a draft that ends normally: a skip notice, or a
    read, a request, a write and a summary line. *)
Definition turn_log {R : Runtime} (w : World)
    (events : gmap string (list (string * string))) (f : Path) (evs : list event) : Prop :=
  match events !! extract_event_id f with
  | None => evs = [EvPrint (skip_notice f (extract_event_id f))]
  | Some event_meta =>
      exists email_text text line,
        draft_text w f = Ok email_text
        /\ evs = [ EvReadText f; EvCreate (llm_request event_meta email_text);
                   EvWriteText (report_path f) text; EvPrint line ]
  end.

(** The identifier of a row, and the record of the last row of a table
    with a given identifier. *)
Definition row_id (cols cells : list string) : option string :=
  option_map snd (List.find (fun kv => String.eqb (fst kv) "event_id") (to_dict cols cells)).

Definition last_record (cols : list string) (rs : list (list string)) (id : string)
    : option (list (string * string)) :=
  option_map (to_dict cols)
    (List.find (fun cells => bool_decide (row_id cols cells = Some id)) (rev rs)).

(** The events of a run, the post apart. *)
Definition run_event (entries : option (list DirEntry)) (e : event) : Prop :=
  match e with
  | EvExists _ _ | EvReadCsv _ | EvGlob _ _ | EvCreate _ | EvPrint _ => True
  | EvReadText p => exists l, entries = Some l /\ In p (collected l)
  | EvWriteText p _ =>
      exists l f, entries = Some l /\ In f (collected l)
        /\ p = path_div REPORT_DIR (path_stem f +:+ "_report.json")
  | EvPost _ _ => False
  end.

(** The notice printed for a draft without a record. *)
Definition skip_event {R : Runtime} (f : Path) : event :=
  EvPrint (skip_notice f (extract_event_id f)).

(** What a run that ends normally has logged, from the log it started
    with: the load, the scan, the turns of the drafts and the post of the
    digest when a webhook is configured. *)
Definition run_log {R : Runtime} (w : World) (turns : list (list event))
    (overall : list (string * json)) : list event :=
  load_log ++ gather_events ++ concat turns
  ++ match webhook w with
     | Some url => [EvPost url (digest_body (digest w overall))]
     | None => []
     end.

(** Files written one after the other, the latest first, on a disk. *)
Definition apply_writes (writes : list (Path * string)) (d : gmap Path string)
    : gmap Path string :=
  foldr (fun pt acc => <[fst pt := snd pt]> acc) d writes.

(** The same environment at another time: the script reads the clock
    anew in each run. *)
Definition at_time (w : World) (t : datetime) : World :=
  {| events_csv := events_csv w;
     emails_dir := emails_dir w;
     service := service w;
     post := post w;
     environ := environ w;
     utcnow := t |}.

(** A service that answers a request the same way whatever happened
    before. *)
Definition memoryless (w : World) : Prop :=
  forall h h' req, service w h req = service w h' req.

(** A webhook whose answer depends neither on what happened before nor on
    the message posted. *)
Definition indifferent (w : World) : Prop :=
  forall h h' url body body', post w h url body = post w h' url body'.

(** The log of the turn of a draft that ends normally, in full: the notice
    that names the draft, or the read of the draft, the request with its
    text, the write of its report and the summary line that starts with
    its name. *)
Definition turn_trace {R : Runtime} (w : World)
    (events : gmap string (list (string * string))) (f : Path) (evs : list event) : Prop :=
  match events !! extract_event_id f with
  | None => evs = [EvPrint (skip_notice f (extract_event_id f))]
  | Some event_meta =>
      exists email_text report light n_errors n_warnings,
        draft_text w f = Ok email_text
        /\ evs = [ EvReadText f; EvCreate (llm_request event_meta email_text);
                   EvWriteText (report_path f) (json_dumps (Some 2) report);
                   EvPrint (summary f light n_errors n_warnings) ]
  end.

(** ** Further example inputs *)

(** No emails directory. *)
Definition ex_no_directory : World :=
  {| events_csv := Some (Ok ex_frame);
     emails_dir := None;
     service := service ex_yellow;
     post := post ex_yellow;
     environ := environ ex_yellow;
     utcnow := utcnow ex_yellow |}.

(** The first draft cannot be decoded. *)
Definition ex_unreadable : World :=
  {| events_csv := Some (Ok ex_frame);
     emails_dir :=
       Some [ {| entry_name := "EVT1_invite_v1.md";
                 entry_text := Raise (ForeignError "UnicodeDecodeError") |} ];
     service := service ex_yellow;
     post := post ex_yellow;
     environ := environ ex_yellow;
     utcnow := utcnow ex_yellow |}.

(** A service that refuses the request, and one that answers without
    content. *)
Definition ex_refused : World :=
  {| events_csv := Some (Ok ex_frame);
     emails_dir := Some ex_entries;
     service := fun _ _ => Raise (ForeignError "RateLimitError");
     post := post ex_yellow;
     environ := environ ex_yellow;
     utcnow := utcnow ex_yellow |}.

Definition ex_silent : World :=
  {| events_csv := Some (Ok ex_frame);
     emails_dir := Some ex_entries;
     service := fun _ _ => Ok None;
     post := post ex_yellow;
     environ := environ ex_yellow;
     utcnow := utcnow ex_yellow |}.

(** Replies that are JSON and no report: an array, and an object whose
    traffic light is null. *)
Definition ex_array : World := ex_world (fun _ => "[]").

Definition ex_reply_null : string := "{" +:+ quoted "traffic_light" +:+ ": null}".

Definition ex_null : World := ex_world (fun _ => ex_reply_null).

(** The webhook does not answer. *)
Definition ex_undelivered : World :=
  {| events_csv := Some (Ok ex_frame);
     emails_dir := Some ex_entries;
     service := service ex_yellow;
     post := fun _ _ _ => Some (ForeignError "ConnectionError");
     environ := environ ex_yellow;
     utcnow := utcnow ex_yellow |}.

(** A table in which [EVT1] comes twice, and a table without the column
    [event_id]. *)
Definition ex_frame_twice : DataFrame :=
  {| columns := ["event_id"; "title"];
     rows := [ ["EVT1"; "Launch"]; ["EVT2"; "Summit"]; ["EVT1"; "Relaunch"] ] |}.

Definition ex_events_twice : gmap string (list (string * string)) :=
  {[ "EVT1" := [("event_id", "EVT1"); ("title", "Relaunch")];
     "EVT2" := [("event_id", "EVT2"); ("title", "Summit")] ]}.

Definition ex_twice : World :=
  {| events_csv := Some (Ok ex_frame_twice);
     emails_dir := Some ex_entries;
     service := service ex_yellow;
     post := post ex_yellow;
     environ := environ ex_yellow;
     utcnow := utcnow ex_yellow |}.

Definition ex_no_id_column : World :=
  {| events_csv :=
       Some (Ok {| columns := ["id"; "title"]; rows := [["EVT1"; "Launch"]] |});
     emails_dir := Some ex_entries;
     service := service ex_yellow;
     post := post ex_yellow;
     environ := environ ex_yellow;
     utcnow := utcnow ex_yellow |}.

(** A directory whose drafts belong to no event of the table. *)
Definition ex_stranger_entries : list DirEntry :=
  [ {| entry_name := "notes.txt"; entry_text := Ok "Nothing yet." |};
    {| entry_name := "EVT9_promo.md"; entry_text := Ok "Promo" |} ].

Definition ex_strangers : World :=
  {| events_csv := Some (Ok ex_frame);
     emails_dir := Some ex_stranger_entries;
     service := service ex_yellow;
     post := post ex_yellow;
     environ := environ ex_yellow;
     utcnow := utcnow ex_yellow |}.

(** One draft in two formats; the service finds the first fine and the
    second not. *)
Definition ex_pair_entries : list DirEntry :=
  [ {| entry_name := "EVT1_invite.txt"; entry_text := Ok "Join us!" |};
    {| entry_name := "EVT1_invite.md"; entry_text := Ok "# Join us!" |} ].

Definition ex_pair : World :=
  {| events_csv := Some (Ok ex_frame);
     emails_dir := Some ex_pair_entries;
     service := fun h _ => Ok (Some (if (requests h =? 0)%nat then ex_reply "GREEN"
                                     else ex_reply "RED"));
     post := post ex_yellow;
     environ := environ ex_yellow;
     utcnow := utcnow ex_yellow |}.

(** The day after the runs of the examples. *)
Definition ex_later : datetime :=
  {| year := 2024; month := 5; day := 8; hour := 16; minute := 5 |}.

(** * Properties *)

(** ** The monad *)

Lemma bind_ok {A B} (m : M A) (k : A -> M B) s a s' :
  m s = (Ok a, s') -> bind m k s = k a s'.
Proof. intros H. unfold bind. now rewrite H. Qed.

Lemma bind_raise {A B} (m : M A) (k : A -> M B) s e s' :
  m s = (Raise e, s') -> bind m k s = (Raise e, s').
Proof. intros H. unfold bind. now rewrite H. Qed.

Lemma logged_nil s : logged s [] = s.
Proof. destruct s as [d l]. unfold logged. simpl. now rewrite app_nil_r. Qed.

Lemma logged_logged s e1 e2 : logged (logged s e1) e2 = logged s (e1 ++ e2).
Proof. unfold logged. simpl. now rewrite <- app_assoc. Qed.

Lemma emit_logged e s : emit e s = (Ok tt, logged s [e]).
Proof. reflexivity. Qed.

(** The loop over a concatenation is the loop over the first list followed
    by the loop over the second. *)
Lemma for_each_app {A B} (body : A -> B -> M B) l1 l2 acc s :
  for_each body (l1 ++ l2) acc s =
  match for_each body l1 acc s with
  | (Ok acc1, s1) => for_each body l2 acc1 s1
  | (Raise e, s1) => (Raise e, s1)
  end.
Proof.
  revert acc s. induction l1 as [|x l1 IH]; intros acc s; simpl.
  - reflexivity.
  - unfold bind. destruct (body x acc s) as [[acc'|e] s']; [apply IH | reflexivity].
Qed.

(** ** Strings and paths *)

Lemma cut_truncate c s : fst (Py.cut c s) = truncate_at c s.
Proof.
  induction s as [|a r IH]; simpl; [reflexivity|].
  destruct (Ascii.eqb a c); [reflexivity|].
  destruct (Py.cut c r) as [h t]. simpl in *. now rewrite IH.
Qed.

Lemma split_first c n s : nth 0 (Py.split c (S n) s) EmptyString = truncate_at c s.
Proof.
  simpl. rewrite <- cut_truncate.
  destruct (Py.cut c s) as [h [t|]]; reflexivity.
Qed.

Lemma truncate_at_free c s : occurs c (truncate_at c s) = false.
Proof.
  induction s as [|a r IH]; simpl; [reflexivity|].
  destruct (Ascii.eqb a c) eqn:E; simpl; [reflexivity|]. now rewrite E.
Qed.

Lemma sapp_cons a s t : String a s +:+ t = String a (s +:+ t).
Proof. reflexivity. Qed.

Lemma sapp_nil_l t : EmptyString +:+ t = t.
Proof. reflexivity. Qed.

Lemma sapp_nil_r s : s +:+ EmptyString = s.
Proof. induction s as [|a s IH]; [reflexivity|]. now rewrite sapp_cons, IH. Qed.

Lemma sapp_assoc s t u : (s +:+ t) +:+ u = s +:+ (t +:+ u).
Proof. induction s as [|a s IH]; [reflexivity|]. now rewrite !sapp_cons, IH. Qed.

Lemma sapp_length s t : String.length (s +:+ t) = String.length s + String.length t.
Proof. induction s as [|a s IH]; [reflexivity|]. rewrite sapp_cons. simpl. now rewrite IH. Qed.

(** Normalises concatenations whose left operand starts with known
    characters. *)
Ltac sapp := rewrite ?sapp_cons, ?sapp_nil_l.

Lemma truncate_at_prefix c s :
  if occurs c s
  then exists rest, s = truncate_at c s +:+ String c rest
  else truncate_at c s = s.
Proof.
  induction s as [|a r IH]; simpl; [reflexivity|].
  destruct (Ascii.eqb a c) eqn:E; simpl.
  - apply Ascii.eqb_eq in E. subst a. now exists r.
  - destruct (occurs c r).
    + destruct IH as [rest IH]. exists rest. sapp. now f_equal.
    + now rewrite IH.
Qed.

Lemma path_name_div (dir : Path) (name : string) : path_name (path_div dir name) = name.
Proof. unfold path_name, path_div. now rewrite last_snoc. Qed.

(** [rfind] of a text without the character keeps what was found. *)
Lemma rfind_from_absent c s i found :
  occurs c s = false -> Py.rfind_from c s i found = found.
Proof.
  revert i found. induction s as [|a r IH]; intros i found H; simpl in *; [reflexivity|].
  apply orb_false_iff in H as [Ha Hr]. rewrite Ha. now apply IH.
Qed.

Lemma rfind_from_app c base ext i found :
  occurs c ext = false ->
  Py.rfind_from c (base +:+ String c ext) i found = (i + Z.of_nat (String.length base))%Z.
Proof.
  revert i found. induction base as [|a r IH]; intros i found H.
  - sapp. simpl. rewrite Ascii.eqb_refl. rewrite rfind_from_absent by assumption. lia.
  - sapp. simpl. rewrite IH by assumption. lia.
Qed.

Lemma substring_app_prefix s t : substring 0 (String.length s) (s +:+ t) = s.
Proof.
  induction s as [|a s IH]; simpl.
  - destruct t; reflexivity.
  - sapp. now rewrite IH.
Qed.

(** The stem of [base.ext] is [base]. *)
Lemma path_stem_ext (dir : Path) (base ext : string) :
  base <> EmptyString -> ext <> EmptyString -> occurs "." ext = false ->
  path_stem (path_div dir (base +:+ String "." ext)) = base.
Proof.
  intros Hb He Hdot. unfold path_stem. rewrite path_name_div.
  unfold Py.rfind. rewrite rfind_from_app by assumption.
  rewrite sapp_length. simpl String.length.
  destruct base as [|b base]; [congruence|]. destruct ext as [|e ext]; [congruence|].
  simpl String.length.
  replace ((0 <? 0 + Z.of_nat (S (String.length base)))%Z) with true
    by (symmetry; apply Z.ltb_lt; lia).
  replace ((0 + Z.of_nat (S (String.length base))
            <? Z.of_nat (S (String.length base) + S (S (String.length ext))) - 1)%Z)
    with true by (symmetry; apply Z.ltb_lt; lia).
  simpl andb. cbv iota.
  replace (Z.to_nat (0 + Z.of_nat (S (String.length base))))
    with (String.length (String b base)) by (simpl; lia).
  apply substring_app_prefix.
Qed.

(** ** The records of the event mapping *)

Lemma pairs_set_keys k v d :
  NoDup (map fst d) -> NoDup (map fst (pairs_set k v d))
  /\ forall k', In k' (map fst (pairs_set k v d)) -> k' = k \/ In k' (map fst d).
Proof.
  induction d as [|[k0 v0] d IH]; simpl; intros Hnd.
  - split; [repeat constructor; set_solver | intros k' [<-|[]]; now left].
  - destruct (String.eqb k0 k) eqn:E; simpl.
    + split; [exact Hnd | intros k' Hk'; now right].
    + apply NoDup_cons in Hnd as [Hk0 Hnd]. destruct (IH Hnd) as [IH1 IH2]. split.
      * apply NoDup_cons. split; [|exact IH1]. intros Hin.
        apply list_elem_of_In in Hin. destruct (IH2 _ Hin) as [->|Hin'].
        -- now rewrite String.eqb_refl in E.
        -- apply Hk0. now apply list_elem_of_In.
      * intros k' [<-|Hk']; [right; now left|].
        destruct (IH2 _ Hk') as [->|Hin']; [now left | right; now right].
Qed.

(** A record has pairwise distinct fields. *)
Lemma to_dict_nodup cols cells : NoDup (map fst (to_dict cols cells)).
Proof.
  unfold to_dict, dict_of_pairs.
  assert (H : forall l acc, NoDup (map fst acc) ->
              NoDup (map fst (fold_left (fun d kv => pairs_set (fst kv) (snd kv) d) l acc))).
  { induction l as [|[k v] l IH]; intros acc Hacc; simpl; [exact Hacc|].
    apply IH. now apply pairs_set_keys. }
  apply H. constructor.
Qed.

Lemma index_rows_nodup cols rs acc events :
  index_rows cols rs acc = Ok events ->
  (forall k m, acc !! k = Some m -> NoDup (map fst m)) ->
  forall k m, events !! k = Some m -> NoDup (map fst m).
Proof.
  revert acc. induction rs as [|cells rs IH]; intros acc; simpl.
  - intros [= <-]. auto.
  - destruct (List.find _ _) as [kv|]; [|discriminate].
    intros Hr Hacc. apply (IH _ Hr). intros k m.
    destruct (decide (snd kv = k)) as [<-|Hne].
    + rewrite lookup_insert_eq. intros [= <-]. apply to_dict_nodup.
    + rewrite lookup_insert_ne by assumption. apply Hacc.
Qed.

(** ** The steps of the script *)

Section Steps.

Context {R : Runtime} (w : World).

Lemma load_events_missing s :
  events_csv w = None ->
  load_events w s =
    (Raise (FileNotFoundError
              "events.csv not found – create your source‑of‑truth file first."),
     logged s [EvExists EVENT_CSV false]).
Proof. intros H. unfold load_events, path_exists, bind, raise, ret. now rewrite H. Qed.

Lemma load_events_ok s df events :
  events_csv w = Some (Ok df) ->
  index_rows (columns df) (rows df) ∅ = Ok events ->
  load_events w s = (Ok events, logged s [EvExists EVENT_CSV true; EvReadCsv EVENT_CSV]).
Proof.
  intros H1 H2. unfold load_events, path_exists, bind, raise, ret, lift.
  rewrite H1, H2. simpl. unfold logged. simpl. now rewrite <- app_assoc.
Qed.

Lemma gather_emails_missing s :
  emails_dir w = None ->
  gather_emails w s =
    (Raise (FileNotFoundError "emails/ directory not found."),
     logged s [EvExists EMAIL_DIR false]).
Proof. intros H. unfold gather_emails, path_exists, bind, raise, ret. now rewrite H. Qed.

Lemma gather_emails_ok s entries :
  emails_dir w = Some entries ->
  gather_emails w s = (Ok (collected entries), logged s gather_events).
Proof.
  intros H. unfold gather_emails, path_exists, glob, bind, raise, ret.
  rewrite H. simpl. unfold logged, gather_events. simpl.
  now rewrite <- !app_assoc.
Qed.

Lemma read_text_eq f s : read_text w f s = (draft_text w f, logged s [EvReadText f]).
Proof. reflexivity. Qed.

(** [call_llm] sends one request and parses the reply. *)
Lemma call_llm_eq event_meta email_text s :
  call_llm w event_meta email_text s =
    (match service w (log s) (llm_request event_meta email_text) with
     | Raise e => Raise e
     | Ok None => Raise TypeError
     | Ok (Some text) =>
         match json_loads text with
         | None => Raise JSONDecodeError
         | Some v => Ok v
         end
     end,
     logged s [EvCreate (llm_request event_meta email_text)]).
Proof.
  unfold call_llm, bind, history, lift, raise, ret. simpl.
  destruct (service w (log s) _) as [[text|]|e]; try reflexivity.
  destruct (json_loads text); reflexivity.
Qed.

(** A draft without a record: one printed notice, nothing else. *)
Lemma process_skip events f overall s :
  events !! extract_event_id f = None ->
  process w events f overall s =
    (Ok overall, logged s [EvPrint (skip_notice f (extract_event_id f))]).
Proof. intros H. unfold process. now rewrite H. Qed.

(** A draft whose reply is not JSON: the request is the last thing done. *)
Lemma process_malformed events f overall s event_meta email_text reply :
  events !! extract_event_id f = Some event_meta ->
  draft_text w f = Ok email_text ->
  service w (log s ++ [EvReadText f]) (llm_request event_meta email_text) = Ok (Some reply) ->
  json_loads reply = None ->
  process w events f overall s =
    (Raise JSONDecodeError,
     logged s [EvReadText f; EvCreate (llm_request event_meta email_text)]).
Proof.
  intros He Ht Hs Hj. unfold process. rewrite He.
  unfold bind at 1. rewrite read_text_eq, Ht.
  unfold bind at 1. rewrite call_llm_eq. simpl log. rewrite Hs, Hj.
  now rewrite logged_logged.
Qed.

(** A draft whose reply parses: the report is written, then summarised. *)
Lemma process_parsed events f overall s event_meta email_text reply report :
  events !! extract_event_id f = Some event_meta ->
  draft_text w f = Ok email_text ->
  service w (log s ++ [EvReadText f]) (llm_request event_meta email_text) = Ok (Some reply) ->
  json_loads reply = Some report ->
  process w events f overall s =
    let s' := written s f (llm_request event_meta email_text) (json_dumps (Some 2) report) in
    match cli_summary f report with
    | Ok (line, tl) => (Ok (overall ++ [(path_name f, tl)]), logged s' [EvPrint line])
    | Raise e => (Raise e, s')
    end.
Proof.
  intros He Ht Hs Hj. unfold process. rewrite He.
  unfold bind at 1. rewrite read_text_eq, Ht.
  unfold bind at 1. rewrite call_llm_eq. simpl log. rewrite Hs, Hj.
  unfold bind at 1. unfold write_text at 1. simpl.
  assert (Hst : {| disk := <[report_path f := json_dumps (Some 2) report]> (disk s);
                   log := ((log s ++ [EvReadText f])
                           ++ [EvCreate (llm_request event_meta email_text)])
                          ++ [EvWriteText (report_path f) (json_dumps (Some 2) report)] |}
                = written s f (llm_request event_meta email_text) (json_dumps (Some 2) report)).
  { unfold written. f_equal. now rewrite <- !app_assoc. }
  rewrite Hst. clear Hst.
  unfold cli_summary, bind, lift, print, ret.
  destruct (py_get report "traffic_light" (JStr "?")) as [tl|e]; [|reflexivity].
  destruct (colour_light tl) as [light|e]; [|reflexivity].
  destruct (py_get report "errors" (JList [])) as [errors|e]; [|reflexivity].
  destruct (py_len errors) as [ne|e]; [|reflexivity].
  destruct (py_get report "warnings" (JList [])) as [warnings|e]; [|reflexivity].
  destruct (py_len warnings) as [nw|e]; reflexivity.
Qed.

End Steps.

(** ** What a run keeps *)

Lemma extends_refl s : extends s s.
Proof. split; [reflexivity | auto]. Qed.

Lemma extends_trans s1 s2 s3 : extends s1 s2 -> extends s2 s3 -> extends s1 s3.
Proof. intros [H1 H2] [H3 H4]. split; [now transitivity (log s2) | auto]. Qed.

Lemma extends_logged s evs : extends s (logged s evs).
Proof. split; [now apply prefix_app_r | auto]. Qed.

Lemma extends_written s f req text : extends s (written s f req text).
Proof.
  split; simpl.
  - now apply prefix_app_r.
  - intros p Hp. destruct (decide (report_path f = p)) as [->|Hne].
    + rewrite lookup_insert_eq. eauto.
    + now rewrite lookup_insert_ne.
Qed.

Section Invariants.

Context {R : Runtime} (w : World).

(** One turn of the loop: the log grows, the only file touched is the
    report of the draft, and [overall] grows by at most the entry of the
    draft. *)
Lemma process_effect events f overall s :
  log s `prefix_of` log (snd (process w events f overall s))
  /\ (disk (snd (process w events f overall s)) = disk s
      \/ exists text,
           disk (snd (process w events f overall s)) = <[report_path f := text]> (disk s))
  /\ forall overall', fst (process w events f overall s) = Ok overall' ->
       overall' = overall \/ exists tl, overall' = overall ++ [(path_name f, tl)].
Proof.
  assert (Hlogged : forall evs, log s `prefix_of` log (logged s evs))
    by (intros evs; now apply prefix_app_r).
  destruct (events !! extract_event_id f) as [event_meta|] eqn:He.
  2:{ rewrite process_skip by assumption. simpl. split; [apply Hlogged | split; [now left|]].
      intros ? [= <-]. now left. }
  destruct (draft_text w f) as [email_text|e] eqn:Ht.
  2:{ assert (Hp : process w events f overall s = (Raise e, logged s [EvReadText f])).
      { unfold process. rewrite He. unfold bind at 1. now rewrite read_text_eq, Ht. }
      rewrite Hp. simpl. split; [apply Hlogged | split; [now left | discriminate]]. }
  destruct (service w (log s ++ [EvReadText f]) (llm_request event_meta email_text))
    as [response|e] eqn:Hs.
  2:{ assert (Hp : process w events f overall s
                   = (Raise e, logged s [EvReadText f; EvCreate (llm_request event_meta email_text)])).
      { unfold process. rewrite He. unfold bind at 1. rewrite read_text_eq, Ht.
        unfold bind at 1. rewrite call_llm_eq. simpl log. rewrite Hs.
        now rewrite logged_logged. }
      rewrite Hp. simpl. split; [apply Hlogged | split; [now left | discriminate]]. }
  destruct response as [reply|].
  2:{ assert (Hp : process w events f overall s
                   = (Raise TypeError, logged s [EvReadText f; EvCreate (llm_request event_meta email_text)])).
      { unfold process. rewrite He. unfold bind at 1. rewrite read_text_eq, Ht.
        unfold bind at 1. rewrite call_llm_eq. simpl log. rewrite Hs.
        now rewrite logged_logged. }
      rewrite Hp. simpl. split; [apply Hlogged | split; [now left | discriminate]]. }
  destruct (json_loads reply) as [report|] eqn:Hj.
  2:{ rewrite (process_malformed w events f overall s event_meta email_text reply) by assumption.
      simpl. split; [apply Hlogged | split; [now left | discriminate]]. }
  rewrite (process_parsed w events f overall s event_meta email_text reply report) by assumption.
  cbv zeta. destruct (cli_summary f report) as [[line tl]|e]; simpl.
  - split; [|split].
    + rewrite <- app_assoc. now apply prefix_app_r.
    + right. now eexists.
    + intros ? [= <-]. right. now exists tl.
  - split; [now apply prefix_app_r | split; [right; now eexists | discriminate]].
Qed.

Lemma process_extends events f overall s :
  extends s (snd (process w events f overall s))
  /\ forall overall', fst (process w events f overall s) = Ok overall' ->
       overall' = overall \/ exists tl, overall' = overall ++ [(path_name f, tl)].
Proof.
  destruct (process_effect events f overall s) as (Hlog & Hdisk & Hov).
  split; [split|]; [exact Hlog | | exact Hov].
  intros p Hp. destruct Hdisk as [-> | [text ->]]; [exact Hp|].
  destruct (decide (report_path f = p)) as [->|Hne].
  - rewrite lookup_insert_eq. eauto.
  - now rewrite lookup_insert_ne.
Qed.

(** A file that is not the report of a draft of the list is left alone. *)
Lemma for_each_process_disk events l overall s p :
  Forall (fun f => report_path f <> p) l ->
  disk (snd (for_each (process w events) l overall s)) !! p = disk s !! p.
Proof.
  intros H. revert overall s. induction H as [|f l Hf _ IH]; intros overall s; simpl.
  - reflexivity.
  - unfold bind. destruct (process_effect events f overall s) as (_ & Hdisk & _).
    destruct (process w events f overall s) as [[overall1|e] s1]; simpl in *.
    + rewrite IH. destruct Hdisk as [-> | [text ->]]; [reflexivity|].
      now rewrite lookup_insert_ne.
    + destruct Hdisk as [-> | [text ->]]; [reflexivity|].
      now rewrite lookup_insert_ne.
Qed.

(** The whole loop: the state is extended, and [overall] grows by entries
    of the drafts of the list, in the order of the list. *)
Lemma for_each_process_extends events l overall s :
  extends s (snd (for_each (process w events) l overall s))
  /\ forall overall', fst (for_each (process w events) l overall s) = Ok overall' ->
       exists extra, overall' = overall ++ extra
         /\ map fst extra `sublist_of` map path_name l.
Proof.
  revert overall s. induction l as [|f l IH]; intros overall s; simpl.
  - split; [apply extends_refl|]. intros ? [= <-]. exists []. now rewrite app_nil_r.
  - unfold bind. pose proof (process_extends events f overall s) as [He Ho].
    destruct (process w events f overall s) as [[overall1|e] s1]; simpl in *.
    2:{ split; [assumption | discriminate]. }
    specialize (IH overall1 s1) as [IHe IHo]. split.
    + eapply extends_trans; eassumption.
    + intros overall' Hr. destruct (IHo _ Hr) as (extra & -> & Hsub).
      destruct (Ho _ eq_refl) as [->|[tl ->]].
      * exists extra. split; [reflexivity|]. now apply sublist_cons.
      * exists ((path_name f, tl) :: extra). split.
        -- now rewrite <- app_assoc.
        -- simpl. now apply sublist_skip.
Qed.

(** A turn that reads its draft sends one request, the one built from the
    record and the text, then at most writes and prints. *)
Lemma process_request events f overall s event_meta email_text :
  events !! extract_event_id f = Some event_meta ->
  draft_text w f = Ok email_text ->
  exists evs,
    log (snd (process w events f overall s))
    = log s ++ [EvReadText f; EvCreate (llm_request event_meta email_text)] ++ evs
    /\ Forall (fun e => match e with EvCreate _ => False | _ => True end) evs.
Proof.
  intros He Ht.
  destruct (service w (log s ++ [EvReadText f]) (llm_request event_meta email_text))
    as [response|e] eqn:Hs.
  2:{ assert (Hp : process w events f overall s
                   = (Raise e, logged s [EvReadText f; EvCreate (llm_request event_meta email_text)])).
      { unfold process. rewrite He. unfold bind at 1. rewrite read_text_eq, Ht.
        unfold bind at 1. rewrite call_llm_eq. simpl log. rewrite Hs.
        now rewrite logged_logged. }
      rewrite Hp. exists []. split; [reflexivity | constructor]. }
  destruct response as [reply|].
  2:{ assert (Hp : process w events f overall s
                   = (Raise TypeError, logged s [EvReadText f; EvCreate (llm_request event_meta email_text)])).
      { unfold process. rewrite He. unfold bind at 1. rewrite read_text_eq, Ht.
        unfold bind at 1. rewrite call_llm_eq. simpl log. rewrite Hs.
        now rewrite logged_logged. }
      rewrite Hp. exists []. split; [reflexivity | constructor]. }
  destruct (json_loads reply) as [report|] eqn:Hj.
  2:{ rewrite (process_malformed w events f overall s event_meta email_text reply) by assumption.
      exists []. split; [reflexivity | constructor]. }
  rewrite (process_parsed w events f overall s event_meta email_text reply report) by assumption.
  cbv zeta. destruct (cli_summary f report) as [[line tl]|e]; simpl.
  - eexists [_; _]. split; [now rewrite <- !app_assoc | repeat constructor].
  - eexists [_]. split; [reflexivity | repeat constructor].
Qed.

End Invariants.

(** ** The run *)

Section Run.

Context {R : Runtime} (w : World).

Lemma main_loaded s df events entries :
  events_csv w = Some (Ok df) ->
  index_rows (columns df) (rows df) ∅ = Ok events ->
  emails_dir w = Some entries ->
  main w s =
    match for_each (process w events) (collected entries) []
            (logged s (load_log ++ gather_events)) with
    | (Ok overall, s') => post_digest w overall s'
    | (Raise e, s') => (Raise e, s')
    end.
Proof.
  intros Hc Hi Hd. unfold main.
  rewrite (bind_ok _ _ _ _ _ (load_events_ok w s df events Hc Hi)).
  rewrite (bind_ok _ _ _ _ _ (gather_emails_ok w _ entries Hd)).
  rewrite logged_logged. fold load_log.
  unfold bind.
  destruct (for_each _ _ _ _) as [[overall|e] s']; [|reflexivity].
  unfold post_digest, webhook, send_slack, truthy_env, getenv, digest, digest_body.
  destruct (environ w !! "SLACK_WEBHOOK_URL") as [url|]; [|reflexivity].
  destruct (Py.truthy url); [|reflexivity].
  unfold bind, history, emit, ret, raise. simpl.
  destruct (post w (log s') url _); reflexivity.
Qed.

Lemma collected_nil entries :
  Forall (fun e => Py.endswith (entry_name e) ".md" = false
                   /\ Py.endswith (entry_name e) ".txt" = false) entries ->
  collected entries = [].
Proof.
  intros H. unfold collected, matching.
  induction H as [|e entries [Hmd Htxt] _ IH]; [reflexivity|].
  rewrite !filter_cons. rewrite Hmd, Htxt. simpl.
  destruct (decide False) as [[]|_]. exact IH.
Qed.

End Run.

(** ** The turns of the loop *)

Section Turns.

Context {R : Runtime} (w : World).

(** [main], statement by statement. *)
Lemma main_eq s :
  main w s =
    match load_events w s with
    | (Raise e, s1) => (Raise e, s1)
    | (Ok events, s1) =>
        match gather_emails w s1 with
        | (Raise e, s2) => (Raise e, s2)
        | (Ok email_files, s2) =>
            match for_each (process w events) email_files [] s2 with
            | (Raise e, s3) => (Raise e, s3)
            | (Ok overall, s3) => post_digest w overall s3
            end
        end
    end.
Proof.
  unfold main. unfold bind at 1.
  destruct (load_events w s) as [[events|e] s1]; [|reflexivity].
  unfold bind at 1.
  destruct (gather_emails w s1) as [[email_files|e] s2]; [|reflexivity].
  unfold bind at 1.
  destruct (for_each _ _ _ _) as [[overall|e] s3]; [|reflexivity].
  unfold post_digest, webhook, send_slack, truthy_env, getenv, digest, digest_body.
  destruct (environ w !! "SLACK_WEBHOOK_URL") as [url|]; [|reflexivity].
  destruct (Py.truthy url); [|reflexivity].
  unfold bind, history, emit, ret, raise. simpl.
  destruct (post w (log s3) url _); reflexivity.
Qed.

(** What [load_events] does to the state: it looks for the source file and
    reads it, nothing else. *)
Lemma load_events_effect s :
  exists evs, snd (load_events w s) = logged s evs
    /\ (evs = [EvExists EVENT_CSV false] \/ evs = load_log).
Proof.
  unfold load_events, path_exists, bind, emit, ret, raise, lift. simpl.
  destruct (events_csv w) as [[df|e]|]; simpl.
  - destruct (index_rows (columns df) (rows df) ∅); simpl; exists load_log; split; auto;
      unfold logged, load_log; simpl; now rewrite <- app_assoc.
  - exists load_log. split; auto. unfold logged, load_log. simpl. now rewrite <- app_assoc.
  - exists [EvExists EVENT_CSV false]. split; auto.
Qed.

Lemma gather_emails_effect s :
  exists evs, snd (gather_emails w s) = logged s evs
    /\ (evs = [EvExists EMAIL_DIR false] \/ evs = gather_events).
Proof.
  destruct (emails_dir w) as [entries|] eqn:E.
  - rewrite (gather_emails_ok w s entries E). exists gather_events. auto.
  - rewrite (gather_emails_missing w s E). exists [EvExists EMAIL_DIR false]. auto.
Qed.

Lemma gather_emails_files s files s' :
  gather_emails w s = (Ok files, s') ->
  exists entries, emails_dir w = Some entries /\ files = collected entries.
Proof.
  destruct (emails_dir w) as [entries|] eqn:E.
  - rewrite (gather_emails_ok w s entries E). intros [= <- _]. eauto.
  - rewrite (gather_emails_missing w s E). discriminate.
Qed.

(** Every outcome of a turn. *)
Lemma process_cases events f overall s :
  match events !! extract_event_id f with
  | None =>
      process w events f overall s
      = (Ok overall, logged s [EvPrint (skip_notice f (extract_event_id f))])
  | Some event_meta =>
      match draft_text w f with
      | Raise e => process w events f overall s = (Raise e, logged s [EvReadText f])
      | Ok email_text =>
          let req := llm_request event_meta email_text in
          match service w (log s ++ [EvReadText f]) req with
          | Raise e =>
              process w events f overall s = (Raise e, logged s [EvReadText f; EvCreate req])
          | Ok None =>
              process w events f overall s
              = (Raise TypeError, logged s [EvReadText f; EvCreate req])
          | Ok (Some reply) =>
              match json_loads reply with
              | None =>
                  process w events f overall s
                  = (Raise JSONDecodeError, logged s [EvReadText f; EvCreate req])
              | Some report =>
                  let s' := written s f req (json_dumps (Some 2) report) in
                  process w events f overall s =
                    match cli_summary f report with
                    | Ok (line, tl) =>
                        (Ok (overall ++ [(path_name f, tl)]), logged s' [EvPrint line])
                    | Raise e => (Raise e, s')
                    end
              end
          end
      end
  end.
Proof.
  destruct (events !! extract_event_id f) as [event_meta|] eqn:He;
    [|now apply process_skip].
  destruct (draft_text w f) as [email_text|e] eqn:Ht.
  2:{ unfold process. rewrite He. unfold bind at 1. now rewrite read_text_eq, Ht. }
  cbv zeta.
  destruct (service w (log s ++ [EvReadText f]) (llm_request event_meta email_text))
    as [[reply|]|e] eqn:Hs.
  - destruct (json_loads reply) as [report|] eqn:Hj.
    + now apply (process_parsed w events f overall s event_meta email_text reply report).
    + now apply (process_malformed w events f overall s event_meta email_text reply).
  - unfold process. rewrite He. unfold bind at 1. rewrite read_text_eq, Ht.
    unfold bind at 1. rewrite call_llm_eq. simpl log. rewrite Hs.
    now rewrite logged_logged.
  - unfold process. rewrite He. unfold bind at 1. rewrite read_text_eq, Ht.
    unfold bind at 1. rewrite call_llm_eq. simpl log. rewrite Hs.
    now rewrite logged_logged.
Qed.

(** The events of a turn belong to its draft, and the only file touched is
    its report. *)
Lemma process_events events f overall s :
  exists evs,
    log (snd (process w events f overall s)) = log s ++ evs
    /\ Forall (turn_event f) evs.
Proof.
  pose proof (process_cases events f overall s) as H.
  destruct (events !! extract_event_id f) as [event_meta|].
  2:{ rewrite H. eexists. split; [reflexivity | repeat constructor]. }
  destruct (draft_text w f) as [email_text|e].
  2:{ rewrite H. eexists. split; [reflexivity | repeat constructor]. }
  cbv zeta in H.
  destruct (service w _ _) as [[reply|]|e];
    try (rewrite H; eexists; split; [reflexivity | repeat constructor]).
  destruct (json_loads reply) as [report|];
    try (rewrite H; eexists; split; [reflexivity | repeat constructor]).
  rewrite H. destruct (cli_summary f report) as [[line tl]|e]; simpl.
  - eexists [_; _; _; _]. split; [now rewrite <- !app_assoc | repeat constructor].
  - eexists [_; _; _]. split; [reflexivity | repeat constructor].
Qed.

Lemma for_each_process_events events l overall s :
  exists evs,
    log (snd (for_each (process w events) l overall s)) = log s ++ evs
    /\ Forall (fun e => exists f, In f l /\ turn_event f e) evs.
Proof.
  revert overall s. induction l as [|f l IH]; intros overall s; simpl.
  - exists []. split; [now rewrite app_nil_r | constructor].
  - unfold bind. destruct (process_events events f overall s) as (evs1 & Hlog1 & Hev1).
    destruct (process w events f overall s) as [[overall1|e] s1]; simpl in *.
    + destruct (IH overall1 s1) as (evs2 & Hlog2 & Hev2).
      exists (evs1 ++ evs2). split.
      * now rewrite Hlog2, Hlog1, <- app_assoc.
      * apply Forall_app. split.
        -- eapply Forall_impl; [exact Hev1|]. intros e He. exists f. split; [now left | exact He].
        -- eapply Forall_impl; [exact Hev2|]. intros e (g & Hg & He). exists g. split; [now right | exact He].
    + exists evs1. split; [exact Hlog1|].
      eapply Forall_impl; [exact Hev1|]. intros e' He. exists f. split; [now left | exact He].
Qed.

(** The summary line of a report starts with the name of its draft. *)
Lemma cli_summary_line f report line tl :
  cli_summary f report = Ok (line, tl) ->
  exists light n_errors n_warnings, line = summary f light n_errors n_warnings.
Proof.
  unfold cli_summary.
  destruct (py_get report "traffic_light" _) as [tl0|]; [|discriminate].
  destruct (colour_light tl0) as [light|]; [|discriminate].
  destruct (py_get report "errors" _) as [errors|]; [|discriminate].
  destruct (py_len errors) as [n_errors|]; [|discriminate].
  destruct (py_get report "warnings" _) as [warnings|]; [|discriminate].
  destruct (py_len warnings) as [n_warnings|]; [|discriminate].
  intros [= <- _]. eauto.
Qed.

(** A loop that ends normally: one entry more in [overall] for each draft
    with a record, in order, and the full turn of each draft in the log,
    one after the other. *)
Lemma for_each_traces events l overall s overall' s' :
  for_each (process w events) l overall s = (Ok overall', s') ->
  exists entries turns,
    overall' = overall ++ entries
    /\ map fst entries = map path_name (List.filter (has_record events) l)
    /\ log s' = log s ++ concat turns
    /\ Forall2 (turn_trace w events) l turns.
Proof.
  revert overall s. induction l as [|f l IH]; intros overall s; simpl.
  - intros [= <- <-]. exists [], [].
    split; [now rewrite app_nil_r | split; [reflexivity|]].
    split; [now rewrite app_nil_r | constructor].
  - unfold bind. pose proof (process_cases events f overall s) as Hp.
    destruct (events !! extract_event_id f) as [event_meta|] eqn:He.
    + assert (Hrec : has_record events f = true)
        by (unfold has_record; rewrite He; apply bool_decide_eq_true_2; eauto).
      rewrite Hrec.
      destruct (draft_text w f) as [email_text|e] eqn:Ht;
        [|rewrite Hp; discriminate].
      cbv zeta in Hp.
      destruct (service w _ _) as [[reply|]|e]; try (rewrite Hp; discriminate).
      destruct (json_loads reply) as [report|]; [|rewrite Hp; discriminate].
      rewrite Hp.
      destruct (cli_summary f report) as [[line tl]|e] eqn:Hsum; [|discriminate].
      destruct (cli_summary_line _ _ _ _ Hsum) as (light & n_errors & n_warnings & ->).
      intros Hrest.
      destruct (IH _ _ Hrest) as (entries & turns & Hov & Hnames & Hlog & Hturns).
      exists ((path_name f, tl) :: entries),
             ([ EvReadText f; EvCreate (llm_request event_meta email_text);
                EvWriteText (report_path f) (json_dumps (Some 2) report);
                EvPrint (summary f light n_errors n_warnings) ] :: turns).
      split; [|split; [|split]].
      * rewrite Hov, <- app_assoc. reflexivity.
      * simpl. now rewrite Hnames.
      * rewrite Hlog. simpl log. rewrite <- !app_assoc. simpl. reflexivity.
      * constructor; [|exact Hturns]. unfold turn_trace. rewrite He.
        exists email_text, report, light, n_errors, n_warnings. auto.
    + assert (Hrec : has_record events f = false).
      { unfold has_record. rewrite He. apply bool_decide_eq_false_2.
        intros [? ?]. discriminate. }
      rewrite Hrec, Hp. intros Hrest.
      destruct (IH _ _ Hrest) as (entries & turns & Hov & Hnames & Hlog & Hturns).
      exists entries, ([EvPrint (skip_notice f (extract_event_id f))] :: turns).
      split; [exact Hov | split; [exact Hnames | split]].
      * rewrite Hlog. simpl log. rewrite <- !app_assoc. simpl. reflexivity.
      * constructor; [|exact Hturns]. unfold turn_trace. now rewrite He.
Qed.

End Turns.

(** * The claims *)

Section Claims.

Context {R : Runtime} (w : World).

(** C2. A collected draft whose identifier is not a key of the event mapping
    is skipped: the turn of the loop prints the notice and does nothing
    else (no request, no file), it ends normally with [overall] as it was,
    and the loop goes on with the drafts that follow. *)
Theorem unmatched_draft_skipped events f overall s :
  events !! extract_event_id f = None ->
  process w events f overall s
    = (Ok overall, logged s [EvPrint (skip_notice f (extract_event_id f))])
  /\ disk (snd (process w events f overall s)) = disk s
  /\ forall pre post overall1 s1,
       for_each (process w events) pre overall s = (Ok overall1, s1) ->
       for_each (process w events) (pre ++ f :: post) overall s
       = for_each (process w events) post overall1
           (logged s1 [EvPrint (skip_notice f (extract_event_id f))]).
Proof.
  intros H. split; [|split].
  - now apply process_skip.
  - now rewrite process_skip.
  - intros pre post overall1 s1 Hpre.
    rewrite for_each_app, Hpre. simpl.
    now rewrite (bind_ok _ _ _ _ _ (process_skip w events f overall1 s1 H)).
Qed.

(** C6. When the reply for a draft is not valid JSON, the decode error
    leaves [main]: the run ends with that exception in the state reached
    after the drafts before it, plus the read of the draft and the request;
    the files are those written before, nothing is written or posted
    afterwards. *)
Theorem malformed_reply_stops_run s df events entries pre f post overall s1
    event_meta email_text reply :
  events_csv w = Some (Ok df) ->
  index_rows (columns df) (rows df) ∅ = Ok events ->
  emails_dir w = Some entries ->
  collected entries = pre ++ f :: post ->
  for_each (process w events) pre [] (logged s (load_log ++ gather_events))
    = (Ok overall, s1) ->
  events !! extract_event_id f = Some event_meta ->
  draft_text w f = Ok email_text ->
  service w (log s1 ++ [EvReadText f]) (llm_request event_meta email_text)
    = Ok (Some reply) ->
  json_loads reply = None ->
  main w s = (Raise JSONDecodeError,
              logged s1 [EvReadText f; EvCreate (llm_request event_meta email_text)])
  /\ disk (snd (main w s)) = disk s1.
Proof.
  intros Hc Hi Hd Hfiles Hpre He Ht Hs Hj.
  assert (Hm : main w s = (Raise JSONDecodeError,
              logged s1 [EvReadText f; EvCreate (llm_request event_meta email_text)])).
  { rewrite (main_loaded w s df events entries Hc Hi Hd).
    rewrite Hfiles, for_each_app, Hpre. simpl.
    now rewrite (bind_raise _ _ _ _ _
                   (process_malformed w events f overall s1 _ _ _ He Ht Hs Hj)). }
  split; [exact Hm | now rewrite Hm].
Qed.

(** C7. Without [events.csv] the run raises the missing-source-file error
    at once: the only thing it has done is to look for that file. *)
Theorem missing_source_file_aborts s :
  events_csv w = None ->
  main w s =
    (Raise (FileNotFoundError
              "events.csv not found – create your source‑of‑truth file first."),
     logged s [EvExists EVENT_CSV false]).
Proof.
  intros H. unfold main.
  now rewrite (bind_raise _ _ _ _ _ (load_events_missing w s H)).
Qed.

(** C8. When the emails directory holds no [.md] and no [.txt] entry, the
    run looks at the source file and the directory and writes nothing;
    without a webhook it ends there, with a webhook it posts one message,
    the header alone, and ends normally unless the delivery raises. *)
Theorem empty_directory_run s df events entries :
  events_csv w = Some (Ok df) ->
  index_rows (columns df) (rows df) ∅ = Ok events ->
  emails_dir w = Some entries ->
  Forall (fun e => Py.endswith (entry_name e) ".md" = false
                   /\ Py.endswith (entry_name e) ".txt" = false) entries ->
  let s' := logged s (load_log ++ gather_events) in
  match webhook w with
  | None => main w s = (Ok tt, s')
  | Some url =>
      main w s =
        (match post w (log s') url (digest_body (digest_header w)) with
         | None => Ok tt
         | Some e => Raise e
         end,
         logged s' [EvPost url (digest_body (digest_header w))])
  end.
Proof.
  intros Hc Hi Hd Hnone s'.
  rewrite (main_loaded w s df events entries Hc Hi Hd).
  rewrite (collected_nil entries Hnone). simpl. fold s'.
  unfold post_digest, digest. simpl. rewrite sapp_nil_r.
  destruct (webhook w); reflexivity.
Qed.

(** C9. The drafts are processed in the order of the collector, the
    [.md] drafts before the [.txt] drafts.  [gather_emails] returns the
    [.md] entries followed by the [.txt] entries, and in a run that reaches
    the loop: the log of [main] holds the turns of the [.md] drafts, one
    after the other (for each the notice that names it, or the read of
    the draft, its request, the write of its report and its summary
    line), then the turns of the [.txt] drafts; a run that stops among the
    [.md] drafts has touched no [.txt] draft; and the digest that [main]
    posts lists the lines of the [.md] drafts before those of the [.txt]
    drafts. *)
Theorem markdown_before_text s df events entries :
  events_csv w = Some (Ok df) ->
  index_rows (columns df) (rows df) ∅ = Ok events ->
  emails_dir w = Some entries ->
  let mds := matching ".md" entries in
  let txts := matching ".txt" entries in
  let s0 := logged s (load_log ++ gather_events) in
  gather_emails w (logged s load_log) = (Ok (mds ++ txts), s0)
  /\ Forall (fun p => Py.endswith (path_name p) ".md" = true) mds
  /\ Forall (fun p => Py.endswith (path_name p) ".txt" = true) txts
  /\ match for_each (process w events) mds [] s0 with
     | (Raise e, s1) =>
         main w s = (Raise e, s1)
         /\ exists evs, log s1 = log s0 ++ evs
              /\ Forall (fun ev => exists f, In f mds /\ turn_event f ev) evs
     | (Ok overall_md, s1) =>
         (exists md_turns,
            log s1 = log s0 ++ concat md_turns
            /\ Forall2 (turn_trace w events) mds md_turns)
         /\ map fst overall_md = map path_name (List.filter (has_record events) mds)
         /\ match for_each (process w events) txts overall_md s1 with
            | (Raise e, s2) =>
                main w s = (Raise e, s2)
                /\ exists evs, log s2 = log s1 ++ evs
                     /\ Forall (fun ev => exists f, In f txts /\ turn_event f ev) evs
            | (Ok overall, s2) =>
                exists overall_txt txt_turns,
                  overall = overall_md ++ overall_txt
                  /\ map fst overall_txt
                     = map path_name (List.filter (has_record events) txts)
                  /\ log s2 = log s1 ++ concat txt_turns
                  /\ Forall2 (turn_trace w events) txts txt_turns
                  /\ main w s = post_digest w (overall_md ++ overall_txt) s2
                  /\ digest w (overall_md ++ overall_txt)
                     = digest_header w
                       +:+ Py.join Py.nl (map summary_line overall_md
                                          ++ map summary_line overall_txt)
                  /\ forall url, webhook w = Some url ->
                       log (snd (main w s))
                       = log s2
                         ++ [EvPost url
                               (digest_body (digest w (overall_md ++ overall_txt)))]
            end
     end.
Proof.
  intros Hc Hi Hd mds txts s0. split; [|split; [|split]].
  - rewrite (gather_emails_ok w _ entries Hd). now rewrite logged_logged.
  - unfold mds, matching. apply Forall_forall. intros p Hp.
    apply list_elem_of_In, in_map_iff in Hp as (e & <- & He). rewrite path_name_div.
    apply list_elem_of_In, list_elem_of_filter in He as [He _].
    now apply Is_true_true.
  - unfold txts, matching. apply Forall_forall. intros p Hp.
    apply list_elem_of_In, in_map_iff in Hp as (e & <- & He). rewrite path_name_div.
    apply list_elem_of_In, list_elem_of_filter in He as [He _].
    now apply Is_true_true.
  - pose proof (main_loaded w s df events entries Hc Hi Hd) as Hm.
    unfold collected in Hm. fold mds txts s0 in Hm. rewrite for_each_app in Hm.
    pose proof (for_each_process_events w events mds [] s0) as Hev1.
    destruct (for_each (process w events) mds [] s0) as [[overall_md|e] s1] eqn:Hmd.
    2:{ split; [exact Hm | exact Hev1]. }
    destruct (for_each_traces w _ _ _ _ _ _ Hmd)
      as (entries1 & turns1 & Hov1 & Hnames1 & Hlog1 & Htr1).
    simpl in Hov1. subst entries1.
    split; [now exists turns1 | split; [exact Hnames1|]].
    pose proof (for_each_process_events w events txts overall_md s1) as Hev2.
    destruct (for_each (process w events) txts overall_md s1)
      as [[overall|e] s2] eqn:Htxt.
    2:{ split; [exact Hm | exact Hev2]. }
    destruct (for_each_traces w _ _ _ _ _ _ Htxt)
      as (entries2 & turns2 & Hov2 & Hnames2 & Hlog2 & Htr2).
    exists entries2, turns2. rewrite Hov2 in Hm.
    split; [exact Hov2 | split; [exact Hnames2 | split; [exact Hlog2|]]].
    split; [exact Htr2 | split; [exact Hm | split]].
    + unfold digest. now rewrite map_app.
    + intros url Hw. rewrite Hm. unfold post_digest. now rewrite Hw.
Qed.

End Claims.

(** C4. The identifier of a draft is its stem cut at the first underscore,
    the whole stem when it has none; the stem of [base.ext] is [base]. *)
Theorem extract_event_id_spec :
  (forall f : Path,
     extract_event_id f = truncate_at "_" (path_stem f)
     /\ occurs "_" (extract_event_id f) = false
     /\ if occurs "_" (path_stem f)
        then exists rest, path_stem f = extract_event_id f +:+ String "_" rest
        else extract_event_id f = path_stem f)
  /\ (forall (dir : Path) (base ext : string),
        base <> EmptyString -> ext <> EmptyString -> occurs "." ext = false ->
        path_stem (path_div dir (base +:+ String "." ext)) = base)
  /\ extract_event_id (path_div EMAIL_DIR "EVT23_invite_v1.md") = "EVT23"
  /\ extract_event_id (path_div EMAIL_DIR "noUnderscore.txt") = "noUnderscore".
Proof.
  split; [|split; [|split]].
  - intros f. unfold extract_event_id. rewrite split_first.
    split; [reflexivity | split; [apply truncate_at_free | apply truncate_at_prefix]].
  - apply path_stem_ext.
  - reflexivity.
  - reflexivity.
Qed.

(** ** Claims that rest on the [json] module *)

Section JsonClaims.

Context {R : Runtime} (laws : JsonLaws R) (w : World).

Lemma post_digest_effect overall s :
  extends s (snd (post_digest w overall s))
  /\ disk (snd (post_digest w overall s)) = disk s.
Proof.
  unfold post_digest. destruct (webhook w); simpl.
  - split; [apply extends_logged | reflexivity].
  - split; [apply extends_refl | reflexivity].
Qed.

(** Once the report of a draft is written, the rest of the run keeps it. *)
Lemma main_after_write s df events entries pre f post overall s1
    event_meta email_text reply report :
  events_csv w = Some (Ok df) ->
  index_rows (columns df) (rows df) ∅ = Ok events ->
  emails_dir w = Some entries ->
  collected entries = pre ++ f :: post ->
  for_each (process w events) pre [] (logged s (load_log ++ gather_events))
    = (Ok overall, s1) ->
  events !! extract_event_id f = Some event_meta ->
  draft_text w f = Ok email_text ->
  service w (log s1 ++ [EvReadText f]) (llm_request event_meta email_text)
    = Ok (Some reply) ->
  json_loads reply = Some report ->
  let s' := written s1 f (llm_request event_meta email_text) (json_dumps (Some 2) report) in
  extends s' (snd (main w s))
  /\ (Forall (fun g => report_path g <> report_path f) post ->
      disk (snd (main w s)) !! report_path f = Some (json_dumps (Some 2) report)).
Proof.
  intros Hc Hi Hd Hfiles Hpre He Ht Hs Hj s'.
  assert (Hm : main w s =
    match cli_summary f report with
    | Ok (line, tl) =>
        match for_each (process w events) post (overall ++ [(path_name f, tl)])
                (logged s' [EvPrint line]) with
        | (Ok overall2, s2) => post_digest w overall2 s2
        | (Raise e, s2) => (Raise e, s2)
        end
    | Raise e => (Raise e, s')
    end).
  { rewrite (main_loaded w s df events entries Hc Hi Hd).
    rewrite Hfiles, for_each_app, Hpre. simpl for_each. unfold bind at 1.
    rewrite (process_parsed w events f overall s1 _ _ _ _ He Ht Hs Hj).
    cbv zeta. fold s'. now destruct (cli_summary f report) as [[line tl]|e]. }
  rewrite Hm. clear Hm.
  destruct (cli_summary f report) as [[line tl]|e].
  2:{ simpl. split; [apply extends_refl|]. intros _. apply lookup_insert_eq. }
  pose proof (for_each_process_extends w events post
                (overall ++ [(path_name f, tl)]) (logged s' [EvPrint line])) as [Hext _].
  pose proof (for_each_process_disk w events post
                (overall ++ [(path_name f, tl)]) (logged s' [EvPrint line])
                (report_path f)) as Hdisk.
  destruct (for_each (process w events) post _ _) as [[overall2|e] s2]; simpl in *.
  - destruct (post_digest_effect overall2 s2) as [Hext2 Hdisk2]. split.
    + eapply extends_trans; [apply extends_logged|].
      eapply extends_trans; eassumption.
    + intros Hpost. rewrite Hdisk2, Hdisk by assumption. apply lookup_insert_eq.
  - split.
    + eapply extends_trans; [apply extends_logged | exact Hext].
    + intros Hpost. rewrite Hdisk by assumption. apply lookup_insert_eq.
Qed.

(** C1, amended. For a draft that the run reaches, whose identifier has a
    record and whose reply parses as JSON, the run writes the file
    [<stem>_report.json] of the reports directory; the text written is the
    indented serialisation of the parsed reply, it is valid JSON that reads
    back as that value, and so it has exactly the keys [errors],
    [warnings], [traffic_light] when, and only when, the reply has.  The
    file is there at the end of the run, with that text unless a later
    draft of the same stem has replaced it. *)
Theorem report_written s df events entries pre f post overall s1
    event_meta email_text reply report :
  events_csv w = Some (Ok df) ->
  index_rows (columns df) (rows df) ∅ = Ok events ->
  emails_dir w = Some entries ->
  collected entries = pre ++ f :: post ->
  for_each (process w events) pre [] (logged s (load_log ++ gather_events))
    = (Ok overall, s1) ->
  events !! extract_event_id f = Some event_meta ->
  draft_text w f = Ok email_text ->
  service w (log s1 ++ [EvReadText f]) (llm_request event_meta email_text)
    = Ok (Some reply) ->
  json_loads reply = Some report ->
  let text := json_dumps (Some 2) report in
  let final := snd (main w s) in
  report_path f = ["reports"; path_stem f +:+ "_report.json"]
  /\ In (EvWriteText (report_path f) text) (log final)
  /\ is_Some (disk final !! report_path f)
  /\ (Forall (fun g => report_path g <> report_path f) post ->
      disk final !! report_path f = Some text)
  /\ json_loads text = Some report
  /\ ((exists v, json_loads text = Some v /\ report_shaped v) <-> report_shaped report).
Proof.
  intros Hc Hi Hd Hfiles Hpre He Ht Hs Hj text final.
  destruct (main_after_write s df events entries pre f post overall s1
              event_meta email_text reply report Hc Hi Hd Hfiles Hpre He Ht Hs Hj)
    as [[[more Hlog] Hkeep] Hdisk].
  assert (Hrt : json_loads text = Some report)
    by (eapply loads_dumps_parsed; eassumption).
  split; [reflexivity | split; [|split; [|split; [|split]]]].
  - fold final in Hlog. rewrite Hlog. simpl. apply in_or_app. left.
    apply in_or_app. right. simpl. auto.
  - apply Hkeep. simpl. rewrite lookup_insert_eq. eauto.
  - exact Hdisk.
  - exact Hrt.
  - split.
    + intros (v & Hv & Hshape). rewrite Hrt in Hv. now injection Hv as <-.
    + intros Hshape. now exists report.
Qed.

Lemma plain_user_prompt event_meta email_text :
  NoDup (map fst event_meta) -> plain (user_prompt event_meta email_text) = true.
Proof.
  intros Hnd. unfold user_prompt, event_json, STYLE_RULES.
  cbn [plain forallb map fst snd].
  rewrite !andb_true_iff. repeat split; try reflexivity.
  - apply bool_decide_eq_true. rewrite map_map. simpl.
    now rewrite (map_ext _ fst) by reflexivity.
  - rewrite forallb_forall. intros kv Hkv.
    apply in_map_iff in Hkv as (x & <- & _). reflexivity.
Qed.

(** C3. [call_llm] sends one request, and the turn of a draft sends that
    one and no other; its user message is a JSON text that reads back as
    the object holding the event record as it is (every field with its
    value), the text of the draft as it is, and the three thresholds 55,
    120 and 1800.  (A record is a dict: its fields are distinct, as those
    of the records of [load_events] are.) *)
Theorem request_payload event_meta email_text :
  NoDup (map fst event_meta) ->
  let req := llm_request event_meta email_text in
  (forall s, snd (call_llm w event_meta email_text s) = logged s [EvCreate req])
  /\ (forall events f overall s,
        events !! extract_event_id f = Some event_meta ->
        draft_text w f = Ok email_text ->
        exists evs,
          log (snd (process w events f overall s))
          = log s ++ [EvReadText f; EvCreate req] ++ evs
          /\ Forall (fun e => match e with EvCreate _ => False | _ => True end) evs)
  /\ exists payload,
       messages req = [ {| role := "system"; content := SYSTEM_PROMPT |};
                        {| role := "user"; content := payload |} ]
       /\ json_loads payload
          = Some (JDict [ ("event", JDict (map (fun kv => (fst kv, JStr (snd kv))) event_meta));
                          ("email", JStr email_text);
                          ("style_rules",
                            JDict [ ("subject_max_chars", JInt 55);
                                    ("preview_max_chars", JInt 120);
                                    ("body_max_chars", JInt 1800) ]) ]).
Proof.
  intros Hnd req. split; [|split].
  - intros s. now rewrite call_llm_eq.
  - intros events f overall s He Ht. now apply process_request.
  - eexists. split; [reflexivity|].
    apply (loads_dumps_plain R laws). now apply plain_user_prompt.
Qed.

(** The records that [load_events] returns have distinct fields. *)
Lemma load_events_records s events s' k event_meta :
  load_events w s = (Ok events, s') ->
  events !! k = Some event_meta ->
  NoDup (map fst event_meta).
Proof.
  unfold load_events, path_exists, bind, emit, ret, raise, lift. simpl.
  destruct (events_csv w) as [[df|e]|]; try discriminate.
  destruct (index_rows (columns df) (rows df) ∅) as [ev|e] eqn:Hi; try discriminate.
  intros [= <- _] Hk. apply (index_rows_nodup _ _ _ _ Hi) with (k := k); [|exact Hk].
  intros k' m Hm. now rewrite lookup_empty in Hm.
Qed.

Lemma py_get_dict key entries dflt :
  py_get (JDict entries) key dflt = Ok (default dflt (dict_get key entries)).
Proof. reflexivity. Qed.

(** C5. A traffic light that is a string other than GREEN, YELLOW and RED
    goes through as it is: the report written reads back with that string
    under [traffic_light], the summary line printed shows it, and it is the
    value kept for the digest. *)
Theorem unknown_light_passed_through events f overall s event_meta email_text
    reply entries tl n_errors n_warnings :
  events !! extract_event_id f = Some event_meta ->
  draft_text w f = Ok email_text ->
  service w (log s ++ [EvReadText f]) (llm_request event_meta email_text)
    = Ok (Some reply) ->
  json_loads reply = Some (JDict entries) ->
  dict_get "traffic_light" entries = Some (JStr tl) ->
  tl <> "GREEN" -> tl <> "YELLOW" -> tl <> "RED" ->
  py_len (default (JList []) (dict_get "errors" entries)) = Ok n_errors ->
  py_len (default (JList []) (dict_get "warnings" entries)) = Ok n_warnings ->
  let text := json_dumps (Some 2) (JDict entries) in
  let line := path_name f +:+ ": " +:+ tl +:+ " – " +:+ Py.str_nat n_errors
              +:+ " errors, " +:+ Py.str_nat n_warnings +:+ " warnings" in
  process w events f overall s =
    (Ok (overall ++ [(path_name f, JStr tl)]),
     logged (written s f (llm_request event_meta email_text) text) [EvPrint line])
  /\ exists v, json_loads text = Some v
       /\ py_get v "traffic_light" (JStr "?") = Ok (JStr tl).
Proof.
  intros He Ht Hs Hj Htl Hg Hy Hr Hne Hnw text line. split.
  - rewrite (process_parsed w events f overall s _ _ _ _ He Ht Hs Hj).
    cbv zeta. unfold cli_summary. rewrite !py_get_dict, Htl. simpl default.
    unfold colour_light.
    apply String.eqb_neq in Hg, Hy, Hr. rewrite Hg, Hy, Hr.
    now rewrite Hne, Hnw.
  - exists (JDict entries). split.
    + eapply loads_dumps_parsed; eassumption.
    + now rewrite py_get_dict, Htl.
Qed.

Lemma colour_light_hashable v :
  hashable v = true -> exists light, colour_light v = Ok light /\ hashable light = true.
Proof.
  destruct v as [ | b | n | r | s | items | entries ]; try discriminate; intros _;
    try (eexists; split; reflexivity).
  unfold colour_light.
  destruct (String.eqb s "GREEN"); [eexists; split; reflexivity|].
  destruct (String.eqb s "YELLOW"); [eexists; split; reflexivity|].
  destruct (String.eqb s "RED"); eexists; split; reflexivity.
Qed.

Lemma py_len_sized v : sized v = true -> exists n, py_len v = Ok n.
Proof. destruct v; try discriminate; intros _; eexists; reflexivity. Qed.

(** C10. A reply that is an object does not stop the run whatever keys are
    missing, as long as the keys that are present hold values the summary
    can use (a traffic light that is no list or dict, errors and warnings
    that have a length): the turn ends normally; a missing [traffic_light]
    is shown as [?] in the summary line and in the line of the digest, a
    missing [errors] or [warnings] is counted as 0; the report written
    reads back as the reply, with no key added. *)
Theorem missing_keys_defaulted events f overall s event_meta email_text reply entries :
  events !! extract_event_id f = Some event_meta ->
  draft_text w f = Ok email_text ->
  service w (log s ++ [EvReadText f]) (llm_request event_meta email_text)
    = Ok (Some reply) ->
  json_loads reply = Some (JDict entries) ->
  (forall v, dict_get "traffic_light" entries = Some v -> hashable v = true) ->
  (forall v, dict_get "errors" entries = Some v -> sized v = true) ->
  (forall v, dict_get "warnings" entries = Some v -> sized v = true) ->
  let text := json_dumps (Some 2) (JDict entries) in
  let tl := default (JStr "?") (dict_get "traffic_light" entries) in
  exists light n_errors n_warnings,
    process w events f overall s =
      (Ok (overall ++ [(path_name f, tl)]),
       logged (written s f (llm_request event_meta email_text) text)
         [EvPrint (path_name f +:+ ": " +:+ light +:+ " – " +:+ Py.str_nat n_errors
                   +:+ " errors, " +:+ Py.str_nat n_warnings +:+ " warnings")])
    /\ (dict_get "traffic_light" entries = None ->
        light = "?" /\ summary_line (path_name f, tl) = "*" +:+ path_name f +:+ "* → ?")
    /\ (dict_get "errors" entries = None -> n_errors = 0)
    /\ (dict_get "warnings" entries = None -> n_warnings = 0)
    /\ json_loads text = Some (JDict entries).
Proof.
  intros He Ht Hs Hj Htl Herr Hwarn text tl.
  assert (Hlight : exists light, colour_light tl = Ok light
                     /\ (dict_get "traffic_light" entries = None -> light = JStr "?")).
  { unfold tl. destruct (dict_get "traffic_light" entries) as [v|].
    - destruct (colour_light_hashable v (Htl v eq_refl)) as (light & Hl & _).
      exists light. split; [exact Hl | discriminate].
    - exists (JStr "?"). split; reflexivity. }
  destruct Hlight as (light & Hlight & Hq).
  assert (Hne : exists n, py_len (default (JList []) (dict_get "errors" entries)) = Ok n
                  /\ (dict_get "errors" entries = None -> n = 0)).
  { destruct (dict_get "errors" entries) as [v|].
    - destruct (py_len_sized v (Herr v eq_refl)) as [n Hn].
      exists n. split; [exact Hn | discriminate].
    - exists 0. split; reflexivity. }
  destruct Hne as (n_errors & Hne & Hne0).
  assert (Hnw : exists n, py_len (default (JList []) (dict_get "warnings" entries)) = Ok n
                  /\ (dict_get "warnings" entries = None -> n = 0)).
  { destruct (dict_get "warnings" entries) as [v|].
    - destruct (py_len_sized v (Hwarn v eq_refl)) as [n Hn].
      exists n. split; [exact Hn | discriminate].
    - exists 0. split; reflexivity. }
  destruct Hnw as (n_warnings & Hnw & Hnw0).
  exists (py_str light), n_errors, n_warnings. split; [|split; [|split; [|split]]].
  - rewrite (process_parsed w events f overall s _ _ _ _ He Ht Hs Hj).
    cbv zeta. unfold cli_summary. rewrite !py_get_dict. fold tl.
    now rewrite Hlight, Hne, Hnw.
  - intros Hnone. split; [now rewrite (Hq Hnone)|]. unfold tl. now rewrite Hnone.
  - exact Hne0.
  - exact Hnw0.
  - eapply loads_dumps_parsed; eassumption.
Qed.

End JsonClaims.

(** * The reference runtime satisfies the laws *)

Module RefJsonFacts.

Import RefJson.

(** ** Strings *)

Lemma scan_string_escape_char c t :
  scan_string (escape_char c +:+ t) = cons_char c (scan_string t).
Proof. destruct c as [[] [] [] [] [] [] [] []]; reflexivity. Qed.

Lemma scan_string_escape s rest :
  scan_string (escape s +:+ String Py.dquote rest) = Some (s, rest).
Proof.
  induction s as [|c s IH]; [reflexivity|].
  simpl escape. rewrite sapp_assoc, scan_string_escape_char, IH. reflexivity.
Qed.

Lemma encode_string_scan s rest :
  scan_string (escape s +:+ String Py.dquote EmptyString +:+ rest) = Some (s, rest).
Proof. sapp. apply scan_string_escape. Qed.

(** ** Blanks *)

Lemma skip_ws_solid s : solid s = true -> skip_ws s = s.
Proof. destruct s as [|c r]; simpl; [discriminate|]. now destruct (is_ws c). Qed.

Lemma skip_ws_blank b s : blank b = true -> solid s = true -> skip_ws (b +:+ s) = s.
Proof.
  intros Hb Hs. induction b as [|c b IH]; sapp.
  - now apply skip_ws_solid.
  - simpl in *. apply andb_true_iff in Hb as [Hc Hb]. rewrite Hc. now apply IH.
Qed.

Lemma blank_spaces n : blank (spaces n) = true.
Proof. induction n; simpl; auto. Qed.

Lemma blank_newline_indent indent level : blank (newline_indent indent level) = true.
Proof. destruct indent; simpl; [apply blank_spaces | reflexivity]. Qed.

Lemma blank_after_comma indent level : blank (after_comma indent level) = true.
Proof. destruct indent; simpl; [apply blank_spaces | reflexivity]. Qed.

(** ** Integers *)

Lemma span_digits_app ds rest :
  all_digits ds = true -> continues_number rest = false ->
  span_digits (ds +:+ rest) = (ds, rest).
Proof.
  intros Hd Hr. induction ds as [|c ds IH]; sapp.
  - destruct rest as [|c r]; [reflexivity|]. simpl in *.
    apply orb_false_iff in Hr as [Hr _]. apply orb_false_iff in Hr as [Hr _].
    apply orb_false_iff in Hr as [Hr _]. now rewrite Hr.
  - simpl in *. apply andb_true_iff in Hd as [Hc Hd]. now rewrite Hc, IH.
Qed.

Lemma digits_string_of_uint u : all_digits (NilEmpty.string_of_uint u) = true.
Proof. induction u; simpl; auto. Qed.

Lemma uint_of_string_of_uint u :
  NilEmpty.uint_of_string (NilEmpty.string_of_uint u) = Some u.
Proof. induction u; simpl; try rewrite IHu; reflexivity. Qed.

(** The decimal all_digits of a positive number do not start with a zero. *)
Lemma to_uint_head p u : Pos.to_uint p <> Decimal.D0 u.
Proof.
  intros H.
  assert (Hn : Decimal.unorm (Pos.to_uint p) = Pos.to_uint p).
  { rewrite <- DecimalPos.Unsigned.to_of, DecimalPos.Unsigned.of_to. reflexivity. }
  rewrite H, DecimalFacts.unorm_D0 in Hn.
  destruct (Decimal.nzhead u) eqn:E;
    [ apply DecimalFacts.unorm_0 in E; rewrite E in Hn; injection Hn as <-;
      now apply (DecimalPos.Unsigned.to_uint_nonzero p)
    | rewrite DecimalFacts.unorm_nzhead in Hn by (rewrite E; discriminate);
      now apply DecimalFacts.nzhead_nonzero in Hn .. ].
Qed.

Lemma leading_to_uint p : leading (Pos.to_uint p) = true.
Proof.
  pose proof (to_uint_head p) as H0.
  pose proof (DecimalPos.Unsigned.to_uint_nonnil p) as Hnil.
  destruct (Pos.to_uint p); try reflexivity; [now elim Hnil | now elim (H0 u)].
Qed.

Lemma scan_once_int_head n s :
  int_head s = true ->
  scan_once (S n) s =
    match scan_int s with
    | Some (z, rest) => Some (JInt z, rest)
    | None => None
    end.
Proof.
  destruct s as [|c s]; [discriminate|]. intros H.
  destruct c as [[] [] [] [] [] [] [] []];
    first [ reflexivity | vm_compute in H; discriminate ].
Qed.

Lemma is_digit_not_minus d : is_digit d = true -> Ascii.eqb d "-" = false.
Proof.
  intros H. destruct d as [[] [] [] [] [] [] [] []];
    first [ reflexivity | vm_compute in H; discriminate ].
Qed.

Lemma leading_digits u :
  leading u = true ->
  exists d more, NilEmpty.string_of_uint u = String d more
    /\ is_digit d = true /\ Ascii.eqb d "0" = false /\ all_digits more = true.
Proof.
  intros H. destruct u; try discriminate; simpl;
    eexists _, _; (split; [reflexivity|]); repeat split; apply digits_string_of_uint.
Qed.

Lemma scan_int_digits (negative : bool) ds rest u :
  all_digits ds = true -> int_head ds = true ->
  (forall d more, ds = String d more -> Ascii.eqb d "0" = false \/ more = EmptyString) ->
  NilEmpty.uint_of_string ds = Some u ->
  continues_number rest = false ->
  scan_int ((if negative then "-" else EmptyString) +:+ ds +:+ rest)
  = Some (if negative then (- Z.of_uint u)%Z else Z.of_uint u, rest).
Proof.
  intros Hd Hh Hz Hu Hr.
  destruct ds as [|d more]; [discriminate|].
  assert (Hd0 : is_digit d = true) by (simpl in Hd; now apply andb_true_iff in Hd).
  assert (Hs1 : forall neg : bool,
            (let (negative0, s1) := (neg, String d more +:+ rest) in
             let (ds, rest0) := span_digits s1 in
             match ds with
             | EmptyString => None
             | String x more0 =>
                 if Ascii.eqb x "0" && negb (String.eqb more0 EmptyString) then None
                 else if continues_number rest0 then None
                 else match NilZero.uint_of_string ds with
                      | Some u0 => Some (if negative0 then (- Z.of_uint u0)%Z else Z.of_uint u0, rest0)
                      | None => None
                      end
             end) = Some (if neg then (- Z.of_uint u)%Z else Z.of_uint u, rest)).
  { intros neg. cbv zeta beta iota. rewrite (span_digits_app _ _ Hd Hr).
    destruct (Hz d more eq_refl) as [H0| ->].
    - rewrite H0. simpl andb. cbv iota. rewrite Hr.
      unfold NilZero.uint_of_string. now rewrite Hu.
    - simpl String.eqb. rewrite andb_false_r. rewrite Hr.
      unfold NilZero.uint_of_string. now rewrite Hu. }
  destruct negative; sapp; unfold scan_int.
  - simpl Ascii.eqb. cbv iota. apply (Hs1 true).
  - rewrite (is_digit_not_minus d Hd0). apply (Hs1 false).
Qed.

Lemma scan_once_int n z rest :
  continues_number rest = false ->
  scan_once (S n) (Py.str_int z +:+ rest) = Some (JInt z, rest).
Proof.
  intros Hr. unfold Py.str_int.
  assert (Hpos : forall (negative : bool) p,
    scan_once (S n) ((if negative then "-" else EmptyString)
                     +:+ NilEmpty.string_of_uint (Pos.to_uint p) +:+ rest)
    = Some (JInt (if negative then Z.neg p else Z.pos p), rest)).
  { intros negative p.
    destruct (leading_digits _ (leading_to_uint p)) as (d & more & Hs & Hd & H0 & Hm).
    rewrite scan_once_int_head.
    2:{ destruct negative; sapp; [reflexivity|]. rewrite Hs. sapp. simpl. now rewrite Hd. }
    rewrite (scan_int_digits negative _ rest (Pos.to_uint p)).
    - unfold Z.of_uint. rewrite DecimalPos.Unsigned.of_to. now destruct negative.
    - apply digits_string_of_uint.
    - rewrite Hs. simpl. now rewrite Hd.
    - intros d' more' E. rewrite Hs in E. injection E as <- <-. now left.
    - apply uint_of_string_of_uint.
    - exact Hr. }
  destruct z as [|p|p]; simpl Z.to_int; unfold NilZero.string_of_int, NilZero.string_of_uint.
  - rewrite scan_once_int_head by reflexivity.
    change (NilEmpty.string_of_uint (Decimal.D0 Decimal.Nil) +:+ rest)
      with (EmptyString +:+ "0" +:+ rest).
    rewrite (scan_int_digits false "0" rest (Decimal.D0 Decimal.Nil)); auto.
    intros d more [= <- <-]. now right.
  - pose proof (leading_to_uint p) as Hl.
    destruct (Pos.to_uint p) eqn:E; try discriminate; rewrite <- E;
      apply (Hpos false p).
  - pose proof (leading_to_uint p) as Hl.
    destruct (Pos.to_uint p) eqn:E; try discriminate; rewrite <- E;
      change (String "-" (NilEmpty.string_of_uint (Pos.to_uint p)) +:+ rest)
        with ((if true then "-" else EmptyString) +:+ NilEmpty.string_of_uint (Pos.to_uint p) +:+ rest);
      apply (Hpos true p).
Qed.

(** ** Values *)

(** Induction on a value, with the hypothesis for every item. *)
Lemma json_nested_ind (P : json -> Prop) :
  P JNull -> (forall b, P (JBool b)) -> (forall n, P (JInt n)) ->
  (forall r, P (JFloat r)) -> (forall s, P (JStr s)) ->
  (forall items, Forall P items -> P (JList items)) ->
  (forall entries, Forall (fun kv => P (snd kv)) entries -> P (JDict entries)) ->
  forall v, P v.
Proof.
  intros HN HB HI HF HS HL HD. fix IH 1. intros [ | b | n | r | s | items | entries].
  - exact HN.
  - apply HB.
  - apply HI.
  - apply HF.
  - apply HS.
  - apply HL. induction items as [|x xs IHxs]; constructor; [apply IH | exact IHxs].
  - apply HD. induction entries as [|[k x] xs IHxs]; constructor; [apply IH | exact IHxs].
Qed.

Lemma starts_value_app s t : starts_value s = true -> starts_value (s +:+ t) = true.
Proof. destruct s; [discriminate|]. now sapp. Qed.

Lemma starts_value_solid s : starts_value s = true -> solid s = true.
Proof.
  destruct s as [|c s]; [discriminate|]. simpl.
  intros H. apply andb_true_iff in H as [H _]. now apply andb_true_iff in H as [H _].
Qed.

Lemma int_head_starts_value s : int_head s = true -> starts_value s = true.
Proof.
  destruct s as [|c s]; [discriminate|]. intros H.
  destruct c as [[] [] [] [] [] [] [] []];
    first [ reflexivity | vm_compute in H; discriminate ].
Qed.

Lemma int_head_str_int z : int_head (Py.str_int z) = true.
Proof.
  destruct z as [|p|p]; [reflexivity| |reflexivity].
  unfold Py.str_int. simpl Z.to_int. unfold NilZero.string_of_int, NilZero.string_of_uint.
  pose proof (leading_to_uint p) as Hl.
  destruct (Pos.to_uint p); try discriminate; reflexivity.
Qed.

Lemma starts_value_dumps indent level v :
  tidy v = true -> starts_value (dumps_at indent level v) = true.
Proof.
  destruct v as [ | [] | n | r | s | [|x items] | [|kv entries]]; try reflexivity.
  - intros _. apply int_head_starts_value, int_head_str_int.
  - discriminate.
Qed.

Lemma ends_number_blank b c r :
  blank b = true -> continues_number (String c r) = false ->
  continues_number (b +:+ String c r) = false.
Proof.
  intros Hb Hc. destruct b as [|a b]; [exact Hc|]. sapp.
  simpl in Hb. apply andb_true_iff in Hb as [Ha _].
  destruct a as [[] [] [] [] [] [] [] []];
    first [ reflexivity | vm_compute in Ha; discriminate ].
Qed.

Lemma dict_set_fresh k v d :
  ~ In k (map fst d) -> dict_set k v d = d ++ [(k, v)].
Proof.
  induction d as [|[k' v'] d IH]; simpl; intros H; [reflexivity|].
  destruct (String.eqb k' k) eqn:E.
  - apply String.eqb_eq in E. subst. tauto.
  - rewrite IH; [reflexivity | tauto].
Qed.

Lemma dict_of_nodup entries : NoDup (map fst entries) -> dict_of entries = entries.
Proof.
  unfold dict_of.
  assert (H : forall acc, NoDup (map fst (acc ++ entries)) ->
              fold_left (fun d kv => dict_set (fst kv) (snd kv) d) entries acc = acc ++ entries).
  { induction entries as [|[k v] entries IH]; intros acc Hnd; simpl.
    - now rewrite app_nil_r.
    - rewrite dict_set_fresh.
      + rewrite IH; rewrite <- app_assoc; [reflexivity | exact Hnd].
      + rewrite map_app in Hnd. simpl in Hnd.
        apply NoDup_app in Hnd as (_ & Hnd & _). intros Hin.
        apply (Hnd k); [now apply list_elem_of_In | left]. }
  intros Hnd. now apply (H []).
Qed.

Section Items.

Variables (indent : option nat) (level n : nat).

Let sep : string := String "," (after_comma indent level).

Lemma scan_items_join x xs close rest k :
  Forall (reads_back indent level n) (x :: xs) ->
  Forall (fun v => tidy v = true) (x :: xs) ->
  blank close = true ->
  length (x :: xs) <= k ->
  scan_items (scan_once n) k
    (join_items sep (map (dumps_at indent level) (x :: xs))
     +:+ close +:+ String "]" rest)
  = Some (x :: xs, rest).
Proof.
  revert x k. induction xs as [|y ys IH]; intros x k Hrb Hpl Hclose Hk.
  - destruct k as [|k]; [simpl in Hk; lia|].
    simpl map. unfold join_items. simpl fold_right. rewrite sapp_nil_r.
    simpl scan_items. apply Forall_inv in Hrb. rewrite Hrb.
    2:{ now apply ends_number_blank. }
    rewrite skip_ws_blank by (assumption || reflexivity). reflexivity.
  - destruct k as [|k]; [simpl in Hk; lia|].
    change (join_items sep (map (dumps_at indent level) (x :: y :: ys)))
      with (dumps_at indent level x +:+ sep
            +:+ join_items sep (map (dumps_at indent level) (y :: ys))).
    rewrite !sapp_assoc. unfold sep at 1. sapp.
    simpl scan_items. rewrite (Forall_inv Hrb) by reflexivity.
    rewrite skip_ws_solid by reflexivity. simpl Ascii.eqb. cbv iota.
    rewrite skip_ws_blank.
    + change (dumps_at indent level y
              +:+ fold_right (fun x0 acc => sep +:+ x0 +:+ acc) EmptyString
                    (map (dumps_at indent level) ys))
        with (join_items sep (map (dumps_at indent level) (y :: ys))).
      rewrite IH.
      * reflexivity.
      * now apply Forall_inv_tail in Hrb.
      * now apply Forall_inv_tail in Hpl.
      * assumption.
      * simpl in *. lia.
    + apply blank_after_comma.
    + apply starts_value_solid, starts_value_app.
      simpl map. unfold join_items. apply starts_value_app.
      apply starts_value_dumps. apply Forall_inv_tail in Hpl. now apply Forall_inv in Hpl.
Qed.

End Items.

Section Pairs.

Variables (indent : option nat) (level n : nat).

Let sep : string := String "," (after_comma indent level).

Let pair_text (kv : string * json) : string :=
  encode_string (fst kv) +:+ ": " +:+ dumps_at indent level (snd kv).

Lemma scan_pairs_join kv kvs close rest k :
  Forall (fun kv => reads_back indent level n (snd kv)) (kv :: kvs) ->
  Forall (fun kv => tidy (snd kv) = true) (kv :: kvs) ->
  blank close = true ->
  length (kv :: kvs) <= k ->
  scan_pairs (scan_once n) k
    (join_items sep (map pair_text (kv :: kvs)) +:+ close +:+ String "}" rest)
  = Some (kv :: kvs, rest).
Proof.
  assert (Hone : forall key v tail m,
            reads_back indent level n v -> continues_number tail = false ->
            tidy v = true ->
            forall (K : string -> option (list (string * json) * string)),
            (forall r, K r = match skip_ws r with
                             | EmptyString => None
                             | String c rest0 =>
                                 if Ascii.eqb c "}" then Some ([(key, v)], rest0)
                                 else if Ascii.eqb c "," then
                                   match scan_pairs (scan_once n) m (skip_ws rest0) with
                                   | Some (kvs0, rest') => Some ((key, v) :: kvs0, rest')
                                   | None => None
                                   end
                                 else None
                             end) ->
            scan_pairs (scan_once n) (S m) (pair_text (key, v) +:+ tail) = K tail).
  { intros key v tail m Hv Htail Hpl K HK. unfold pair_text, encode_string. simpl fst. simpl snd.
    sapp. rewrite !sapp_assoc. sapp. simpl scan_pairs.
    rewrite scan_string_escape. rewrite skip_ws_solid by reflexivity.
    simpl Ascii.eqb. cbv iota.
    change (String " " (dumps_at indent level v +:+ tail))
      with (" " +:+ dumps_at indent level v +:+ tail).
    rewrite skip_ws_blank;
      [| reflexivity | now apply starts_value_solid, starts_value_app, starts_value_dumps].
    rewrite (Hv tail Htail). now rewrite HK. }
  revert kv k. induction kvs as [|kv' kvs IH]; intros [key v] k Hrb Hpl Hclose Hk.
  - destruct k as [|k]; [simpl in Hk; lia|].
    simpl map. unfold join_items. simpl fold_right. rewrite sapp_nil_r.
    erewrite Hone; [| exact (Forall_inv Hrb) | now apply ends_number_blank
                    | exact (Forall_inv Hpl) | intros r; reflexivity].
    cbv beta. rewrite skip_ws_blank by (assumption || reflexivity). reflexivity.
  - destruct k as [|k]; [simpl in Hk; lia|].
    change (join_items sep (map pair_text ((key, v) :: kv' :: kvs)))
      with (pair_text (key, v) +:+ sep +:+ join_items sep (map pair_text (kv' :: kvs))).
    rewrite !sapp_assoc.
    erewrite Hone; [| exact (Forall_inv Hrb) | unfold sep; now sapp
                    | exact (Forall_inv Hpl) | intros r; reflexivity].
    cbv beta. unfold sep at 1. sapp. rewrite skip_ws_solid by reflexivity.
    simpl Ascii.eqb. cbv iota.
    rewrite skip_ws_blank.
    + rewrite IH.
      * reflexivity.
      * now apply Forall_inv_tail in Hrb.
      * now apply Forall_inv_tail in Hpl.
      * assumption.
      * simpl in *. lia.
    + apply blank_after_comma.
    + apply starts_value_solid, starts_value_app.
      simpl map. unfold join_items. apply starts_value_app.
      unfold pair_text, encode_string. now sapp.
Qed.

End Pairs.

Lemma scan_literal_app lit v rest : scan_literal lit v (lit +:+ rest) = Some (v, rest).
Proof.
  unfold scan_literal.
  assert (Hp : String.prefix lit (lit +:+ rest) = true).
  { apply prefix_correct. apply substring_app_prefix. }
  rewrite Hp. f_equal. f_equal.
  rewrite sapp_length. replace (String.length lit + String.length rest - String.length lit)
    with (String.length rest) by lia.
  induction lit as [|c lit IH]; sapp; simpl.
  - clear Hp. induction rest as [|c rest IH]; simpl; [reflexivity | now rewrite IH].
  - apply IH. apply prefix_correct. apply substring_app_prefix.
Qed.

Lemma join_items_length (sep : string) (texts : list string) :
  Forall (fun t => 1 <= String.length t) texts ->
  length texts <= String.length (join_items sep texts).
Proof.
  intros H. destruct H as [|t ts Ht Hts]; [simpl; lia|].
  unfold join_items. rewrite sapp_length. simpl length.
  assert (length ts <= String.length
            (fold_right (fun x acc => sep +:+ x +:+ acc) EmptyString ts)).
  { induction Hts as [|u us Hu _ IH]; simpl; [lia|].
    rewrite !sapp_length. lia. }
  lia.
Qed.

Lemma starts_value_length s : starts_value s = true -> 1 <= String.length s.
Proof. destruct s; [discriminate | simpl; lia]. Qed.

Lemma depth_items n items :
  fold_right (fun x d => Nat.max (depth x) d) 0 items < n ->
  Forall (fun x => depth x < n) items.
Proof.
  induction items as [|x items IH]; simpl; intros H; constructor; [lia | apply IH; lia].
Qed.

Lemma depth_entries n (entries : list (string * json)) :
  fold_right (fun kv d => Nat.max (depth (snd kv)) d) 0 entries < n ->
  Forall (fun kv => depth (snd kv) < n) entries.
Proof.
  induction entries as [|x entries IH]; simpl; intros H; constructor; [lia | apply IH; lia].
Qed.

Lemma scan_once_array n r :
  scan_once (S n) (String "[" r) =
    match skip_ws r with
    | EmptyString => None
    | String c rest =>
        if Ascii.eqb c "]" then Some (JList [], rest)
        else
          match scan_items (scan_once n) (S (String.length rest)) (String c rest) with
          | Some (vs, rest') => Some (JList vs, rest')
          | None => None
          end
    end.
Proof. reflexivity. Qed.

Lemma scan_once_object n r :
  scan_once (S n) (String "{" r) =
    match skip_ws r with
    | EmptyString => None
    | String c rest =>
        if Ascii.eqb c "}" then Some (JDict [], rest)
        else
          match scan_pairs (scan_once n) (S (String.length rest)) (String c rest) with
          | Some (kvs, rest') => Some (JDict (dict_of kvs), rest')
          | None => None
          end
    end.
Proof. reflexivity. Qed.

(** A tidy value is read back from its text, whatever follows that cannot
    go on a number. *)
Lemma scan_once_dumps v :
  tidy v = true ->
  forall indent level n rest,
    depth v < n -> continues_number rest = false ->
    scan_once n (dumps_at indent level v +:+ rest) = Some (v, rest).
Proof.
  induction v as [ | b | z | r | s | items IH | entries IH ] using json_nested_ind;
    intros Hpl indent level n rest Hn Hrest;
    (destruct n as [|n]; [lia|]).
  - apply (scan_literal_app "null").
  - destruct b; [apply (scan_literal_app "true") | apply (scan_literal_app "false")].
  - simpl dumps_at. now apply scan_once_int.
  - discriminate.
  - simpl dumps_at. unfold encode_string. sapp. rewrite sapp_assoc. sapp.
    simpl scan_once. now rewrite scan_string_escape.
  - destruct items as [|x xs]; [reflexivity|].
    simpl in Hn. apply PeanoNat.lt_S_n in Hn.
    change (fold_right (fun x d => Nat.max (depth x) d) 0 (x :: xs) < n) in Hn.
    apply depth_items in Hn.
    simpl tidy in Hpl. change (forallb tidy (x :: xs) = true) in Hpl.
    rewrite forallb_forall in Hpl.
    assert (Hpl' : Forall (fun v => tidy v = true) (x :: xs)).
    { apply Forall_forall. intros y Hy. apply Hpl. now apply list_elem_of_In. }
    assert (Hrb : Forall (reads_back indent (S level) n) (x :: xs)).
    { apply Forall_forall. intros y Hy. unfold reads_back. intros rest' Hrest'.
      rewrite Forall_forall in IH, Hpl', Hn. apply IH; auto. }
    change (dumps_at indent level (JList (x :: xs)))
      with ("[" +:+ newline_indent indent (S level)
            +:+ join_items (String "," (after_comma indent (S level)))
                  (map (dumps_at indent (S level)) (x :: xs))
            +:+ newline_indent indent level +:+ "]").
    sapp. rewrite !sapp_assoc. sapp.
    set (body := join_items _ _ +:+ newline_indent indent level +:+ String "]" rest).
    assert (Hbody : starts_value body = true).
    { unfold body. apply starts_value_app. simpl map. unfold join_items.
      apply starts_value_app, starts_value_dumps. now apply Forall_inv in Hpl'. }
    assert (Hlen : length (x :: xs) <= String.length body).
    { unfold body. rewrite sapp_length.
      pose proof (join_items_length (String "," (after_comma indent (S level)))
                    (map (dumps_at indent (S level)) (x :: xs))) as Hj.
      assert (Hne : Forall (fun t => 1 <= String.length t)
                      (map (dumps_at indent (S level)) (x :: xs))).
      { apply Forall_forall. intros t Ht.
        apply list_elem_of_In, in_map_iff in Ht as (y & <- & Hy).
        apply starts_value_length, starts_value_dumps.
        apply Hpl. exact Hy. }
      specialize (Hj Hne). rewrite length_map in Hj. lia. }
    rewrite scan_once_array.
    rewrite skip_ws_blank;
      [| apply blank_newline_indent | now apply starts_value_solid].
    destruct body as [|c t] eqn:Eb; [discriminate|].
    assert (Hc : Ascii.eqb c "]" = false).
    { simpl in Hbody. apply andb_true_iff in Hbody as [Hbody _].
      apply andb_true_iff in Hbody as [_ Hbody]. now apply negb_true_iff in Hbody. }
    rewrite Hc. rewrite <- Eb. unfold body.
    rewrite (scan_items_join indent (S level) n x xs);
      [ reflexivity | assumption | assumption | apply blank_newline_indent
      | simpl in Hlen; simpl; lia ].
  - destruct entries as [|kv kvs]; [reflexivity|].
    simpl in Hn. apply PeanoNat.lt_S_n in Hn.
    change (fold_right (fun kv d => Nat.max (depth (snd kv)) d) 0 (kv :: kvs) < n) in Hn.
    apply depth_entries in Hn.
    simpl tidy in Hpl. apply andb_true_iff in Hpl as [Hnd Hpl].
    apply bool_decide_eq_true in Hnd.
    change (forallb (fun kv => tidy (snd kv)) (kv :: kvs) = true) in Hpl.
    rewrite forallb_forall in Hpl.
    assert (Hpl' : Forall (fun kv => tidy (snd kv) = true) (kv :: kvs)).
    { apply Forall_forall. intros y Hy. apply Hpl. now apply list_elem_of_In. }
    assert (Hrb : Forall (fun kv => reads_back indent (S level) n (snd kv)) (kv :: kvs)).
    { apply Forall_forall. intros y Hy. unfold reads_back. intros rest' Hrest'.
      rewrite Forall_forall in IH, Hpl', Hn. apply IH; auto. }
    change (dumps_at indent level (JDict (kv :: kvs)))
      with ("{" +:+ newline_indent indent (S level)
            +:+ join_items (String "," (after_comma indent (S level)))
                  (map (fun kv => encode_string (fst kv) +:+ ": "
                                  +:+ dumps_at indent (S level) (snd kv)) (kv :: kvs))
            +:+ newline_indent indent level +:+ "}").
    sapp. rewrite !sapp_assoc. sapp.
    set (body := join_items _ _ +:+ newline_indent indent level +:+ String "}" rest).
    assert (Hbody : starts_value body = true).
    { unfold body. apply starts_value_app. simpl map. unfold join_items.
      apply starts_value_app. unfold encode_string. now sapp. }
    assert (Hlen : length (kv :: kvs) <= String.length body).
    { unfold body. rewrite sapp_length.
      pose proof (join_items_length (String "," (after_comma indent (S level)))
                    (map (fun kv => encode_string (fst kv) +:+ ": "
                                    +:+ dumps_at indent (S level) (snd kv)) (kv :: kvs))) as Hj.
      assert (Hne : Forall (fun t => 1 <= String.length t)
                      (map (fun kv => encode_string (fst kv) +:+ ": "
                                      +:+ dumps_at indent (S level) (snd kv)) (kv :: kvs))).
      { apply Forall_forall. intros t Ht.
        apply list_elem_of_In, in_map_iff in Ht as (y & <- & Hy).
        unfold encode_string. sapp. simpl. lia. }
      specialize (Hj Hne). rewrite length_map in Hj. lia. }
    rewrite scan_once_object.
    rewrite skip_ws_blank;
      [| apply blank_newline_indent | now apply starts_value_solid].
    destruct body as [|c t] eqn:Eb; [discriminate|].
    assert (Hc : Ascii.eqb c "}" = false).
    { simpl in Hbody. apply andb_true_iff in Hbody as [_ Hbody].
      now apply negb_true_iff in Hbody. }
    rewrite Hc. rewrite <- Eb. unfold body.
    rewrite (scan_pairs_join indent (S level) n kv kvs);
      [ now rewrite dict_of_nodup | assumption | assumption | apply blank_newline_indent
      | simpl in Hlen; simpl; lia ].
Qed.

Lemma join_items_member (sep : string) (texts : list string) t :
  In t texts -> String.length t <= String.length (join_items sep texts).
Proof.
  destruct texts as [|u us]; [intros []|]. unfold join_items. rewrite sapp_length.
  intros [->|Hin]; [lia|].
  assert (String.length t <= String.length
            (fold_right (fun x acc => sep +:+ x +:+ acc) EmptyString us)).
  { induction us as [|w ws IH]; [destruct Hin|]. simpl. rewrite !sapp_length.
    destruct Hin as [->|Hin]; [lia | specialize (IH Hin); lia]. }
  lia.
Qed.

Lemma fold_max_bound {A} (f : A -> nat) (l : list A) b :
  (forall x, In x l -> f x <= b) ->
  fold_right (fun x d => Nat.max (f x) d) 0 l <= b.
Proof.
  induction l as [|x l IH]; simpl; intros H; [lia|].
  apply Nat.max_lub; [apply H; now left | apply IH; intros y Hy; apply H; now right].
Qed.

(** The text of a value is longer than the value is deep. *)
Lemma depth_lt_length v :
  tidy v = true ->
  forall indent level, depth v < String.length (dumps_at indent level v).
Proof.
  induction v as [ | b | z | r | s | items IH | entries IH ] using json_nested_ind;
    intros Hpl indent level;
    try (apply starts_value_length, starts_value_dumps; exact Hpl).
  - destruct items as [|x xs]; [simpl; lia|].
    change (dumps_at indent level (JList (x :: xs)))
      with ("[" +:+ newline_indent indent (S level)
            +:+ join_items (String "," (after_comma indent (S level)))
                  (map (dumps_at indent (S level)) (x :: xs))
            +:+ newline_indent indent level +:+ "]").
    remember (join_items _ _) as body eqn:Eb.
    rewrite !sapp_length. simpl String.length. subst body.
    change (depth (JList (x :: xs)))
      with (S (fold_right (fun y d => Nat.max (depth y) d) 0 (x :: xs))).
    simpl tidy in Hpl. change (forallb tidy (x :: xs) = true) in Hpl.
    rewrite forallb_forall in Hpl. rewrite Forall_forall in IH.
    assert (Hb : fold_right (fun y d => Nat.max (depth y) d) 0 (x :: xs)
                 <= String.length
                      (join_items (String "," (after_comma indent (S level)))
                         (map (dumps_at indent (S level)) (x :: xs)))).
    { apply fold_max_bound. intros y Hy.
      pose proof (IH y (proj2 (list_elem_of_In _ _) Hy) (Hpl y Hy) indent (S level)) as Hd.
      pose proof (join_items_member (String "," (after_comma indent (S level)))
                    (map (dumps_at indent (S level)) (x :: xs))
                    (dumps_at indent (S level) y) (in_map _ _ _ Hy)) as Hm.
      lia. }
    lia.
  - destruct entries as [|kv kvs]; [simpl; lia|].
    change (dumps_at indent level (JDict (kv :: kvs)))
      with ("{" +:+ newline_indent indent (S level)
            +:+ join_items (String "," (after_comma indent (S level)))
                  (map (fun kv => encode_string (fst kv) +:+ ": "
                                  +:+ dumps_at indent (S level) (snd kv)) (kv :: kvs))
            +:+ newline_indent indent level +:+ "}").
    remember (join_items _ _) as body eqn:Eb.
    rewrite !sapp_length. simpl String.length. subst body.
    change (depth (JDict (kv :: kvs)))
      with (S (fold_right (fun y d => Nat.max (depth (snd y)) d) 0 (kv :: kvs))).
    simpl tidy in Hpl. apply andb_true_iff in Hpl as [_ Hpl].
    change (forallb (fun kv => tidy (snd kv)) (kv :: kvs) = true) in Hpl.
    rewrite forallb_forall in Hpl. rewrite Forall_forall in IH.
    assert (Hb : fold_right (fun y d => Nat.max (depth (snd y)) d) 0 (kv :: kvs)
                 <= String.length
                      (join_items (String "," (after_comma indent (S level)))
                         (map (fun kv => encode_string (fst kv) +:+ ": "
                                         +:+ dumps_at indent (S level) (snd kv)) (kv :: kvs)))).
    { apply (fold_max_bound (fun y => depth (snd y))). intros y Hy.
      pose proof (IH y (proj2 (list_elem_of_In _ _) Hy) (Hpl y Hy) indent (S level)) as Hd.
      pose proof (join_items_member (String "," (after_comma indent (S level)))
                    (map (fun kv => encode_string (fst kv) +:+ ": "
                                    +:+ dumps_at indent (S level) (snd kv)) (kv :: kvs))
                    _ (in_map _ _ _ Hy)) as Hm.
      cbv beta in Hm. rewrite !sapp_length in Hm. lia. }
    lia.
Qed.

(** A tidy value is read back from its serialisation. *)
Theorem loads_dumps indent v : tidy v = true -> loads (dumps indent v) = Some v.
Proof.
  intros Hpl. unfold loads, dumps.
  rewrite skip_ws_solid by now apply starts_value_solid, starts_value_dumps.
  rewrite <- (sapp_nil_r (dumps_at indent 0 v)) at 2.
  rewrite (scan_once_dumps v Hpl indent 0 _ EmptyString); [reflexivity | | reflexivity].
  now apply depth_lt_length.
Qed.

(** ** Values that the decoder builds are tidy *)

Lemma dict_set_keys k v d :
  NoDup (map fst d) -> NoDup (map fst (dict_set k v d))
  /\ forall k', In k' (map fst (dict_set k v d)) -> k' = k \/ In k' (map fst d).
Proof.
  induction d as [|[k0 v0] d IH]; simpl; intros Hnd.
  - split; [repeat constructor; set_solver | intros k' [<-|[]]; now left].
  - destruct (String.eqb k0 k) eqn:E; simpl.
    + split; [exact Hnd | intros k' Hk'; now right].
    + apply NoDup_cons in Hnd as [Hk0 Hnd]. destruct (IH Hnd) as [IH1 IH2]. split.
      * apply NoDup_cons. split; [|exact IH1]. intros Hin.
        apply list_elem_of_In in Hin. destruct (IH2 _ Hin) as [->|Hin'].
        -- now rewrite String.eqb_refl in E.
        -- apply Hk0. now apply list_elem_of_In.
      * intros k' [<-|Hk']; [right; now left|].
        destruct (IH2 _ Hk') as [->|Hin']; [now left | right; now right].
Qed.

Lemma dict_set_tidy k v d :
  tidy v = true -> forallb (fun kv => tidy (snd kv)) d = true ->
  forallb (fun kv => tidy (snd kv)) (dict_set k v d) = true.
Proof.
  intros Hv. induction d as [|[k0 v0] d IH]; simpl; intros Hd.
  - now rewrite Hv.
  - apply andb_true_iff in Hd as [H0 Hd].
    destruct (String.eqb k0 k); simpl.
    + now rewrite Hv, Hd.
    + now rewrite H0, IH.
Qed.

Lemma dict_of_tidy kvs :
  forallb (fun kv => tidy (snd kv)) kvs = true -> tidy (JDict (dict_of kvs)) = true.
Proof.
  intros H. unfold dict_of.
  assert (Hg : forall acc,
            NoDup (map fst acc) -> forallb (fun kv => tidy (snd kv)) acc = true ->
            let d := fold_left (fun d kv => dict_set (fst kv) (snd kv) d) kvs acc in
            NoDup (map fst d) /\ forallb (fun kv => tidy (snd kv)) d = true).
  { induction kvs as [|[k v] kvs IH]; intros acc Hnd Hacc; simpl.
    - now split.
    - simpl in H. apply andb_true_iff in H as [Hv H].
      apply IH; [exact H | now apply dict_set_keys | now apply dict_set_tidy]. }
  destruct (Hg [] (NoDup_nil_2) eq_refl) as [Hnd Hpl].
  simpl. rewrite Hpl. rewrite andb_true_r. now apply bool_decide_eq_true.
Qed.

Lemma scan_items_tidy scan k :
  (forall s v r, scan s = Some (v, r) -> tidy v = true) ->
  forall s vs r, scan_items scan k s = Some (vs, r) -> forallb tidy vs = true.
Proof.
  intros Hscan. induction k as [|k IH]; intros s vs r; simpl; [discriminate|].
  destruct (scan s) as [[v r1]|] eqn:Ev; [|discriminate].
  destruct (skip_ws r1) as [|c rest]; [discriminate|].
  destruct (Ascii.eqb c "]").
  - intros [= <- <-]. simpl. now rewrite (Hscan _ _ _ Ev).
  - destruct (Ascii.eqb c ","); [|discriminate].
    destruct (scan_items scan k (skip_ws rest)) as [[vs' r']|] eqn:Ei; [|discriminate].
    intros [= <- <-]. simpl. now rewrite (Hscan _ _ _ Ev), (IH _ _ _ Ei).
Qed.

Lemma scan_pairs_tidy scan k :
  (forall s v r, scan s = Some (v, r) -> tidy v = true) ->
  forall s kvs r, scan_pairs scan k s = Some (kvs, r) ->
    forallb (fun kv => tidy (snd kv)) kvs = true.
Proof.
  intros Hscan. induction k as [|k IH]; intros s kvs r; simpl; [discriminate|].
  destruct s as [|q r0]; [discriminate|].
  destruct (Ascii.eqb q Py.dquote); [|discriminate].
  destruct (scan_string r0) as [[key r1]|]; [|discriminate].
  destruct (skip_ws r1) as [|colon r2]; [discriminate|].
  destruct (Ascii.eqb colon ":"); [|discriminate].
  destruct (scan (skip_ws r2)) as [[v r3]|] eqn:Ev; [|discriminate].
  destruct (skip_ws r3) as [|c rest]; [discriminate|].
  destruct (Ascii.eqb c "}").
  - intros [= <- <-]. simpl. now rewrite (Hscan _ _ _ Ev).
  - destruct (Ascii.eqb c ","); [|discriminate].
    destruct (scan_pairs scan k (skip_ws rest)) as [[kvs' r']|] eqn:Ei; [|discriminate].
    intros [= <- <-]. simpl. now rewrite (Hscan _ _ _ Ev), (IH _ _ _ Ei).
Qed.

Lemma scan_once_step n c r :
  scan_once (S n) (String c r) =
    if Ascii.eqb c Py.dquote then
      match scan_string r with
      | Some (t, rest) => Some (JStr t, rest)
      | None => None
      end
    else if Ascii.eqb c "[" then
      match skip_ws r with
      | EmptyString => None
      | String c' rest =>
          if Ascii.eqb c' "]" then Some (JList [], rest)
          else
            match scan_items (scan_once n) (S (String.length rest)) (String c' rest) with
            | Some (vs, rest') => Some (JList vs, rest')
            | None => None
            end
      end
    else if Ascii.eqb c "{" then
      match skip_ws r with
      | EmptyString => None
      | String c' rest =>
          if Ascii.eqb c' "}" then Some (JDict [], rest)
          else
            match scan_pairs (scan_once n) (S (String.length rest)) (String c' rest) with
            | Some (kvs, rest') => Some (JDict (dict_of kvs), rest')
            | None => None
            end
      end
    else if Ascii.eqb c "n" then scan_literal "null" JNull (String c r)
    else if Ascii.eqb c "t" then scan_literal "true" (JBool true) (String c r)
    else if Ascii.eqb c "f" then scan_literal "false" (JBool false) (String c r)
    else
      match scan_int (String c r) with
      | Some (z, rest) => Some (JInt z, rest)
      | None => None
      end.
Proof. reflexivity. Qed.

Lemma scan_once_tidy n : forall s v r, scan_once n s = Some (v, r) -> tidy v = true.
Proof.
  induction n as [|n IH]; intros s v r; [discriminate|].
  destruct s as [|c s]; [discriminate|]. rewrite scan_once_step.
  destruct (Ascii.eqb c Py.dquote).
  { destruct (scan_string s) as [[t rest]|]; [|discriminate]. now intros [= <- <-]. }
  destruct (Ascii.eqb c "[").
  { destruct (skip_ws s) as [|c' rest]; [discriminate|].
    destruct (Ascii.eqb c' "]"); [now intros [= <- <-]|].
    destruct (scan_items _ _ _) as [[vs rest']|] eqn:Ei; [|discriminate].
    intros [= <- <-]. simpl. exact (scan_items_tidy (scan_once n) _ IH _ _ _ Ei). }
  destruct (Ascii.eqb c "{").
  { destruct (skip_ws s) as [|c' rest]; [discriminate|].
    destruct (Ascii.eqb c' "}"); [now intros [= <- <-]|].
    destruct (scan_pairs _ _ _) as [[kvs rest']|] eqn:Ei; [|discriminate].
    intros [= <- <-]. apply dict_of_tidy.
    exact (scan_pairs_tidy (scan_once n) _ IH _ _ _ Ei). }
  destruct (Ascii.eqb c "n").
  { unfold scan_literal. destruct (String.prefix _ _); [|discriminate]. now intros [= <- <-]. }
  destruct (Ascii.eqb c "t").
  { unfold scan_literal. destruct (String.prefix _ _); [|discriminate]. now intros [= <- <-]. }
  destruct (Ascii.eqb c "f").
  { unfold scan_literal. destruct (String.prefix _ _); [|discriminate]. now intros [= <- <-]. }
  destruct (scan_int _) as [[z rest]|]; [|discriminate]. now intros [= <- <-].
Qed.

Theorem loads_tidy s v : loads s = Some v -> tidy v = true.
Proof.
  unfold loads. destruct (scan_once _ _) as [[v' rest]|] eqn:E; [|discriminate].
  destruct (skip_ws rest); [|discriminate]. intros [= <-].
  exact (scan_once_tidy _ _ _ _ E).
Qed.

(** A plain value is tidy. *)
Lemma plain_tidy v : plain v = true -> tidy v = true.
Proof.
  induction v as [ | b | z | r | s | items IH | entries IH ] using json_nested_ind;
    simpl; intros H; try reflexivity; try discriminate.
  - rewrite forallb_forall in H. rewrite forallb_forall. rewrite Forall_forall in IH.
    intros x Hx. apply IH; [now apply list_elem_of_In | now apply H].
  - apply andb_true_iff in H as [Hnd H]. rewrite Hnd. simpl.
    rewrite forallb_forall in H. rewrite forallb_forall. rewrite Forall_forall in IH.
    intros x Hx. apply IH; [now apply list_elem_of_In | now apply H].
Qed.

End RefJsonFacts.

(** The reference runtime is a model of the laws. *)
Lemma RefJson_laws : JsonLaws RefRuntime.
Proof.
  split; simpl.
  - intros s v indent H. apply RefJsonFacts.loads_dumps.
    exact (RefJsonFacts.loads_tidy s v H).
  - intros v indent H. now apply RefJsonFacts.loads_dumps, RefJsonFacts.plain_tidy.
Qed.

(** * The claims on the example inputs *)

Lemma unmatched_draft_skipped_witness :
  process ex_yellow ex_events ex_promo [] ex_start
  = (Ok [], logged ex_start [EvPrint (skip_notice ex_promo "EVT9")]).
Proof.
  exact (proj1 (unmatched_draft_skipped ex_yellow ex_events ex_promo [] ex_start eq_refl)).
Defined.

Lemma missing_source_file_aborts_witness :
  main ex_no_source init =
    (Raise (FileNotFoundError
              "events.csv not found – create your source‑of‑truth file first."),
     logged init [EvExists EVENT_CSV false]).
Proof. exact (missing_source_file_aborts ex_no_source init eq_refl). Defined.

Lemma empty_directory_run_witness :
  main ex_no_drafts init =
    (Ok tt,
     logged ex_start
       [EvPost "https://hooks.example/T1" (digest_body (digest_header ex_no_drafts))]).
Proof.
  refine (empty_directory_run ex_no_drafts init ex_frame ex_events _ eq_refl _ eq_refl _).
  - vm_compute. reflexivity.
  - repeat constructor.
Defined.

Lemma malformed_reply_stops_run_witness :
  let s1 := snd (for_each (process ex_broken ex_events)
                   [ex_invite; ex_promo; ex_notes] [] ex_start) in
  main ex_broken init
  = (Raise JSONDecodeError,
     logged s1 [EvReadText ex_reminder; EvCreate (llm_request ex_record "Starting soon.")])
  /\ disk (snd (main ex_broken init)) = disk s1.
Proof.
  refine (malformed_reply_stops_run ex_broken init ex_frame ex_events ex_entries
            [ex_invite; ex_promo; ex_notes] ex_reminder []
            [("EVT1_invite_v1.md", JStr "YELLOW")] _ ex_record "Starting soon."
            "Sorry, I cannot do that." eq_refl _ eq_refl _ _ _ _ _ _);
    vm_compute; reflexivity.
Defined.

Lemma markdown_before_text_witness :
  exists s1 s2,
    for_each (process ex_yellow ex_events) [ex_invite; ex_promo] [] ex_start
    = (Ok [("EVT1_invite_v1.md", JStr "YELLOW")], s1)
    /\ for_each (process ex_yellow ex_events) [ex_notes; ex_reminder]
         [("EVT1_invite_v1.md", JStr "YELLOW")] s1
       = (Ok [("EVT1_invite_v1.md", JStr "YELLOW"); ("EVT1_reminder.txt", JStr "YELLOW")],
          s2)
    /\ (exists md_turns txt_turns,
          log s2 = log ex_start ++ concat md_turns ++ concat txt_turns
          /\ Forall2 (turn_trace ex_yellow ex_events) [ex_invite; ex_promo] md_turns
          /\ Forall2 (turn_trace ex_yellow ex_events) [ex_notes; ex_reminder] txt_turns)
    /\ log (snd (main ex_yellow init))
       = log s2
         ++ [EvPost "https://hooks.example/T1"
               (digest_body
                  (digest_header ex_yellow
                   +:+ Py.join Py.nl [ "*EVT1_invite_v1.md* → YELLOW";
                                       "*EVT1_reminder.txt* → YELLOW" ]))].
Proof.
  pose proof (markdown_before_text ex_yellow init ex_frame ex_events ex_entries
                eq_refl eq_refl eq_refl) as (_ & _ & _ & H).
  cbv zeta in H.
  change (matching ".md" ex_entries) with [ex_invite; ex_promo] in H.
  change (matching ".txt" ex_entries) with [ex_notes; ex_reminder] in H.
  change (logged init (load_log ++ gather_events)) with ex_start in H.
  set (s1 := snd (for_each (process ex_yellow ex_events) [ex_invite; ex_promo] []
                    ex_start)).
  assert (E1 : for_each (process ex_yellow ex_events) [ex_invite; ex_promo] [] ex_start
               = (Ok [("EVT1_invite_v1.md", JStr "YELLOW")], s1))
    by (vm_compute; reflexivity).
  rewrite E1 in H. destruct H as ((md_turns & Hlog1 & Hmd) & _ & H).
  set (s2 := snd (for_each (process ex_yellow ex_events) [ex_notes; ex_reminder]
                    [("EVT1_invite_v1.md", JStr "YELLOW")] s1)).
  assert (E2 : for_each (process ex_yellow ex_events) [ex_notes; ex_reminder]
                 [("EVT1_invite_v1.md", JStr "YELLOW")] s1
               = (Ok [("EVT1_invite_v1.md", JStr "YELLOW");
                      ("EVT1_reminder.txt", JStr "YELLOW")], s2))
    by (vm_compute; reflexivity).
  rewrite E2 in H.
  destruct H as (overall_txt & txt_turns & Hov & _ & Hlog2 & Htxt & _ & Hdig & Hpost).
  injection Hov as <-.
  exists s1, s2. split; [exact E1 | split; [exact E2 | split]].
  - exists md_turns, txt_turns. split; [|split; [exact Hmd | exact Htxt]].
    now rewrite Hlog2, Hlog1, <- app_assoc.
  - rewrite (Hpost "https://hooks.example/T1" eq_refl), Hdig. reflexivity.
Defined.

Lemma report_written_witness :
  In (EvWriteText ["reports"; "EVT1_invite_v1_report.json"]
        (json_dumps (Some 2) (ex_report "YELLOW")))
     (log (snd (main ex_yellow init)))
  /\ json_loads (json_dumps (Some 2) (ex_report "YELLOW")) = Some (ex_report "YELLOW")
  /\ report_shaped (ex_report "YELLOW").
Proof.
  assert (Hshape : report_shaped (ex_report "YELLOW")).
  { exists (ex_report_entries "YELLOW").
    split; [reflexivity|]. intros k. unfold dict_keys, REPORT_KEYS. simpl. tauto. }
  refine (match report_written RefJson_laws ex_yellow init ex_frame ex_events ex_entries
                  [] ex_invite [ex_promo; ex_notes; ex_reminder] [] ex_start
                  ex_record "Join us!" (ex_reply "YELLOW") (ex_report "YELLOW")
                  eq_refl _ eq_refl _ eq_refl _ _ _ _ with
          | conj _ (conj Hw (conj _ (conj _ (conj Hr _)))) => conj Hw (conj Hr Hshape)
          end);
    vm_compute; reflexivity.
Defined.

Lemma request_payload_witness :
  @json_dumps RefRuntime None
    (user_prompt [("id", "EVT1"); ("title", "Launch")] "Join us!")
  = "{" +:+ quoted "event" +:+ ": {" +:+ quoted "id" +:+ ": " +:+ quoted "EVT1" +:+ ", "
        +:+ quoted "title" +:+ ": " +:+ quoted "Launch" +:+ "}, "
    +:+ quoted "email" +:+ ": " +:+ quoted "Join us!" +:+ ", "
    +:+ quoted "style_rules" +:+ ": {" +:+ quoted "subject_max_chars" +:+ ": 55, "
        +:+ quoted "preview_max_chars" +:+ ": 120, "
        +:+ quoted "body_max_chars" +:+ ": 1800}}"
  /\ exists payload,
       messages (llm_request [("id", "EVT1"); ("title", "Launch")] "Join us!")
       = [ {| role := "system"; content := SYSTEM_PROMPT |};
           {| role := "user"; content := payload |} ]
       /\ json_loads payload
          = Some (JDict [ ("event", JDict [("id", JStr "EVT1"); ("title", JStr "Launch")]);
                          ("email", JStr "Join us!");
                          ("style_rules",
                            JDict [ ("subject_max_chars", JInt 55);
                                    ("preview_max_chars", JInt 120);
                                    ("body_max_chars", JInt 1800) ]) ]).
Proof.
  split; [vm_compute; reflexivity|].
  refine (proj2 (proj2 (request_payload RefJson_laws ex_yellow
                          [("id", "EVT1"); ("title", "Launch")] "Join us!" _))).
  apply (bool_decide_unpack _). vm_compute. exact I.
Defined.

Lemma unknown_light_passed_through_witness :
  process ex_blue ex_events ex_invite [] ex_start =
    (Ok [("EVT1_invite_v1.md", JStr "BLUE")],
     logged (written ex_start ex_invite (llm_request ex_record "Join us!")
               (json_dumps (Some 2) (ex_report "BLUE")))
       [EvPrint "EVT1_invite_v1.md: BLUE – 0 errors, 1 warnings"])
  /\ exists v, json_loads (json_dumps (Some 2) (ex_report "BLUE")) = Some v
       /\ py_get v "traffic_light" (JStr "?") = Ok (JStr "BLUE").
Proof.
  refine (unknown_light_passed_through RefJson_laws ex_blue ex_events ex_invite [] ex_start
            ex_record "Join us!" (ex_reply "BLUE") (ex_report_entries "BLUE") "BLUE" 0 1
            eq_refl _ _ _ eq_refl _ _ _ eq_refl eq_refl);
    solve [ vm_compute; reflexivity | discriminate ].
Defined.

Lemma missing_keys_defaulted_witness :
  exists n_warnings,
    process ex_sparse ex_events ex_invite [] ex_start =
      (Ok [("EVT1_invite_v1.md", JStr "?")],
       logged (written ex_start ex_invite (llm_request ex_record "Join us!")
                 (json_dumps (Some 2) (JDict ex_sparse_entries)))
         [EvPrint ("EVT1_invite_v1.md: ? – 0 errors, " +:+ Py.str_nat n_warnings
                   +:+ " warnings")])
    /\ summary_line ("EVT1_invite_v1.md", JStr "?") = "*EVT1_invite_v1.md* → ?"
    /\ json_loads (json_dumps (Some 2) (JDict ex_sparse_entries))
       = Some (JDict ex_sparse_entries).
Proof.
  destruct (missing_keys_defaulted RefJson_laws ex_sparse ex_events ex_invite [] ex_start
              ex_record "Join us!" ex_reply_sparse ex_sparse_entries)
    as (light & n_errors & n_warnings & Hp & Hl & He & _ & Hr).
  - reflexivity.
  - reflexivity.
  - vm_compute. reflexivity.
  - vm_compute. reflexivity.
  - intros v H. discriminate H.
  - intros v H. discriminate H.
  - intros v H. now injection H as <-.
  - destruct (Hl eq_refl) as [-> Hline]. rewrite (He eq_refl) in Hp.
    exists n_warnings. split; [exact Hp | split; [exact Hline | exact Hr]].
Defined.

(** C1, as stated, fails: the draft [EVT1_invite_v1.md] has a record and
    its reply parses as JSON, and the report the run leaves for it has not
    the three keys (the reply has no [traffic_light]). *)
Lemma report_keys_counterexample :
  In ex_invite (collected ex_entries)
  /\ ex_events !! extract_event_id ex_invite = Some ex_record
  /\ service ex_partial (log ex_start ++ [EvReadText ex_invite])
       (llm_request ex_record "Join us!") = Ok (Some ex_reply_partial)
  /\ json_loads ex_reply_partial = Some ex_report_partial
  /\ ~ exists content v,
         disk (snd (main ex_partial init)) !! report_path ex_invite = Some content
         /\ json_loads content = Some v
         /\ report_shaped v.
Proof.
  split; [now left | split; [reflexivity | split; [reflexivity | split]]].
  - vm_compute. reflexivity.
  - intros (content & v & Hdisk & Hloads & entries & -> & Hkeys).
    assert (Hfile : disk (snd (main ex_partial init)) !! report_path ex_invite
                    = Some (json_dumps (Some 2) ex_report_partial))
      by (vm_compute; reflexivity).
    rewrite Hfile in Hdisk. injection Hdisk as <-.
    assert (Hback : json_loads (json_dumps (Some 2) ex_report_partial)
                    = Some ex_report_partial)
      by (vm_compute; reflexivity).
    assert (E : Some (JDict entries) = Some ex_report_partial)
      by (rewrite <- Hloads; exact Hback).
    injection E as ->.
    destruct (proj2 (Hkeys "traffic_light")) as [H|[H|[]]]; try discriminate H.
    unfold REPORT_KEYS. simpl. tauto.
Qed.

(** * Further properties of the script *)

Section RunFailures.

Context {R : Runtime} (w : World).

(** X1. Without the emails directory the run raises its missing-directory
    error right after the source file is loaded: it has looked for the
    directory and done nothing else (no glob, no draft read, no request). *)
Theorem missing_directory_aborts s df events :
  events_csv w = Some (Ok df) ->
  index_rows (columns df) (rows df) ∅ = Ok events ->
  emails_dir w = None ->
  main w s =
    (Raise (FileNotFoundError "emails/ directory not found."),
     logged s (load_log ++ [EvExists EMAIL_DIR false])).
Proof.
  intros Hc Hi Hd. rewrite main_eq.
  rewrite (load_events_ok w s df events Hc Hi).
  rewrite (gather_emails_missing w _ Hd). now rewrite logged_logged.
Qed.

(** X2. There is no isolation between drafts: an exception raised in the
    turn of a draft leaves [main] as it is, in the state of that turn.  The
    drafts after it are not read, nothing is posted, and the turn itself
    has touched no file but the report of its draft. *)
Theorem turn_exception_ends_run s df events entries pre f post overall s1 e s2 :
  events_csv w = Some (Ok df) ->
  index_rows (columns df) (rows df) ∅ = Ok events ->
  emails_dir w = Some entries ->
  collected entries = pre ++ f :: post ->
  for_each (process w events) pre [] (logged s (load_log ++ gather_events))
    = (Ok overall, s1) ->
  process w events f overall s1 = (Raise e, s2) ->
  main w s = (Raise e, s2)
  /\ (exists evs, log s2 = log s1 ++ evs /\ Forall (turn_event f) evs)
  /\ forall p, p <> report_path f -> disk s2 !! p = disk s1 !! p.
Proof.
  intros Hc Hi Hd Hfiles Hpre Hf. split; [|split].
  - rewrite (main_loaded w s df events entries Hc Hi Hd).
    rewrite Hfiles, for_each_app, Hpre. simpl.
    now rewrite (bind_raise _ _ _ _ _ Hf).
  - pose proof (process_events w events f overall s1) as H. now rewrite Hf in H.
  - intros p Hp. pose proof (process_effect w events f overall s1) as (_ & H & _).
    rewrite Hf in H. simpl in H. destruct H as [-> | [text ->]]; [reflexivity|].
    now rewrite lookup_insert_ne.
Qed.

(** X3. A draft with a record but without a usable reply gets no report:
    when the draft cannot be read the turn stops before any request; when
    the request raises, or the reply carries no content (a [TypeError] in
    [json.loads]), the turn stops after the request.  In each case no file
    is written and no line is printed. *)
Theorem no_report_without_reply events f overall s event_meta :
  events !! extract_event_id f = Some event_meta ->
  (forall e, draft_text w f = Raise e ->
     process w events f overall s = (Raise e, logged s [EvReadText f]))
  /\ (forall email_text e,
        draft_text w f = Ok email_text ->
        service w (log s ++ [EvReadText f]) (llm_request event_meta email_text) = Raise e ->
        process w events f overall s
        = (Raise e, logged s [EvReadText f; EvCreate (llm_request event_meta email_text)]))
  /\ (forall email_text,
        draft_text w f = Ok email_text ->
        service w (log s ++ [EvReadText f]) (llm_request event_meta email_text) = Ok None ->
        process w events f overall s
        = (Raise TypeError,
           logged s [EvReadText f; EvCreate (llm_request event_meta email_text)])).
Proof.
  intros He. pose proof (process_cases w events f overall s) as H. rewrite He in H.
  split; [|split].
  - intros e Ht. now rewrite Ht in H.
  - intros email_text e Ht Hs. rewrite Ht in H. cbv zeta in H. now rewrite Hs in H.
  - intros email_text Ht Hs. rewrite Ht in H. cbv zeta in H. now rewrite Hs in H.
Qed.

(** X4. The report is written before the reply is looked at.  A reply that
    parses but cannot be summarised stops the run after its report is on
    disk and before any summary line: [AttributeError] when the reply is no
    object, [TypeError] when the traffic light is a list or an object, or
    when [errors] or [warnings] has no length. *)
Theorem report_kept_when_summary_fails events f overall s event_meta email_text reply report :
  events !! extract_event_id f = Some event_meta ->
  draft_text w f = Ok email_text ->
  service w (log s ++ [EvReadText f]) (llm_request event_meta email_text)
    = Ok (Some reply) ->
  json_loads reply = Some report ->
  let s' := written s f (llm_request event_meta email_text) (json_dumps (Some 2) report) in
  disk s' !! report_path f = Some (json_dumps (Some 2) report)
  /\ ((forall entries, report <> JDict entries) ->
      process w events f overall s = (Raise AttributeError, s'))
  /\ (forall entries, report = JDict entries ->
        let tl := default (JStr "?") (dict_get "traffic_light" entries) in
        let errors := default (JList []) (dict_get "errors" entries) in
        let warnings := default (JList []) (dict_get "warnings" entries) in
        hashable tl && sized errors && sized warnings = false ->
        process w events f overall s = (Raise TypeError, s')).
Proof.
  intros He Ht Hs Hj s'. split; [apply lookup_insert_eq | split].
  - intros Hno. rewrite (process_parsed w events f overall s _ _ _ _ He Ht Hs Hj).
    cbv zeta. fold s'. unfold cli_summary.
    destruct report; try reflexivity. now elim (Hno entries).
  - intros entries -> tl errors warnings Hbad.
    rewrite (process_parsed w events f overall s _ _ _ _ He Ht Hs Hj).
    cbv zeta. fold s'. unfold cli_summary. rewrite !py_get_dict.
    fold tl errors warnings.
    destruct tl as [ | b | n | r | t | items | entries' ]; try reflexivity;
      simpl in Hbad.
    all: try (unfold colour_light;
              try (destruct (String.eqb t "GREEN"); [|destruct (String.eqb t "YELLOW");
                   [|destruct (String.eqb t "RED")]]);
              destruct errors; try reflexivity; simpl in Hbad;
              destruct warnings; try reflexivity; discriminate Hbad).
Qed.

(** X5. When the delivery of the digest fails, every draft has been
    processed before: the exception of [requests.post] leaves [main] after
    the post, and the reports are all on disk. *)
Theorem delivery_failure_keeps_reports s df events entries overall s' url e :
  events_csv w = Some (Ok df) ->
  index_rows (columns df) (rows df) ∅ = Ok events ->
  emails_dir w = Some entries ->
  for_each (process w events) (collected entries) []
    (logged s (load_log ++ gather_events)) = (Ok overall, s') ->
  webhook w = Some url ->
  post w (log s') url (digest_body (digest w overall)) = Some e ->
  main w s = (Raise e, logged s' [EvPost url (digest_body (digest w overall))])
  /\ disk (snd (main w s)) = disk s'.
Proof.
  intros Hc Hi Hd Hloop Hw Hp.
  assert (Hm : main w s
               = (Raise e, logged s' [EvPost url (digest_body (digest w overall))])).
  { rewrite (main_loaded w s df events entries Hc Hi Hd), Hloop.
    unfold post_digest. now rewrite Hw, Hp. }
  split; [exact Hm | now rewrite Hm].
Qed.

End RunFailures.

Section RunFootprint.

Context {R : Runtime} (w : World).



(** The shape of the log of a run. *)
Lemma main_log s :
  exists evs tail,
    log (snd (main w s)) = log s ++ evs ++ tail
    /\ Forall (run_event (emails_dir w)) evs
    /\ (tail = []
        \/ exists url overall, webhook w = Some url
             /\ tail = [EvPost url (digest_body (digest w overall))]).
Proof.
  rewrite main_eq.
  destruct (load_events_effect w s) as (e1 & H1 & Hc1).
  destruct (load_events w s) as [[events|e] s1]; simpl in H1; subst s1.
  2:{ exists e1, []. split; [now rewrite app_nil_r | split; [|now left]].
      destruct Hc1 as [-> | ->]; repeat constructor. }
  destruct (gather_emails_effect w (logged s e1)) as (e2 & H2 & Hc2).
  destruct (gather_emails w (logged s e1)) as [[files|e] s2] eqn:Hg; simpl in H2; subst s2.
  2:{ exists (e1 ++ e2), []. simpl. split; [now rewrite app_nil_r, app_assoc | split; [|now left]].
      apply Forall_app. split.
      - destruct Hc1 as [-> | ->]; repeat constructor.
      - destruct Hc2 as [-> | ->]; repeat constructor. }
  destruct (gather_emails_files w _ _ _ Hg) as (entries & Hd & ->).
  destruct (for_each_process_events w events (collected entries) []
              (logged (logged s e1) e2)) as (e3 & H3 & Hev3).
  assert (Hpre : Forall (run_event (emails_dir w)) ((e1 ++ e2) ++ e3)).
  { apply Forall_app. split; [apply Forall_app; split|].
    - destruct Hc1 as [-> | ->]; repeat constructor.
    - destruct Hc2 as [-> | ->]; repeat constructor.
    - eapply Forall_impl; [exact Hev3|]. intros e (f & Hf & He).
      destruct e; simpl in *; try exact I; try contradiction.
      + subst p. eauto.
      + subst p. exists entries, f. auto. }
  destruct (for_each _ _ _ _) as [[overall|e] s3]; simpl in H3.
  - unfold post_digest. destruct (webhook w) as [url|] eqn:Hw; simpl.
    + exists ((e1 ++ e2) ++ e3), [EvPost url (digest_body (digest w overall))].
      split; [|split; [exact Hpre | right; eauto]].
      rewrite H3. simpl. now rewrite <- !app_assoc.
    + exists ((e1 ++ e2) ++ e3), []. split; [|split; [exact Hpre | now left]].
      rewrite H3. simpl. now rewrite <- !app_assoc, app_nil_r.
  - exists ((e1 ++ e2) ++ e3), []. split; [|split; [exact Hpre | now left]].
    simpl. rewrite H3. simpl. now rewrite <- !app_assoc, app_nil_r.
Qed.

(** X6. A run posts at most once, and only as its last action: everything
    it logs before is no post.  Without a webhook, unset or empty, it logs
    no post at all. *)
Theorem posts_only_at_the_end s :
  exists evs tail,
    log (snd (main w s)) = log s ++ evs ++ tail
    /\ Forall (fun e => match e with EvPost _ _ => False | _ => True end) evs
    /\ (tail = [] \/ exists url body, environ w !! "SLACK_WEBHOOK_URL" = Some url
                                       /\ url <> EmptyString /\ tail = [EvPost url body])
    /\ (environ w !! "SLACK_WEBHOOK_URL" = None
        \/ environ w !! "SLACK_WEBHOOK_URL" = Some EmptyString -> tail = []).
Proof.
  destruct (main_log s) as (evs & tail & Hlog & Hev & Htail).
  exists evs, tail. split; [exact Hlog | split; [|split]].
  - eapply Forall_impl; [exact Hev|]. intros e He. now destruct e.
  - destruct Htail as [-> | (url & overall & Hw & ->)]; [now left|]. right.
    exists url, (digest_body (digest w overall)). unfold webhook in Hw.
    destruct (environ w !! "SLACK_WEBHOOK_URL") as [u|]; [|discriminate].
    destruct (Py.truthy u) eqn:Hu; [|discriminate]. injection Hw as ->.
    split; [reflexivity | split; [|reflexivity]]. intros ->. discriminate.
  - intros Hnone. destruct Htail as [-> | (url & overall & Hw & ->)]; [reflexivity|].
    unfold webhook in Hw. destruct Hnone as [Hn|Hn]; rewrite Hn in Hw; discriminate.
Qed.

(** X7. A run writes nowhere but to the reports of the drafts it has
    collected: each file it writes is [<stem>_report.json] in the reports
    directory for a collected draft, each file it reads as text is a
    collected draft, and any other path of the disk is as it was. *)
Theorem writes_only_reports s :
  (exists evs,
     log (snd (main w s)) = log s ++ evs
     /\ (forall p text, In (EvWriteText p text) evs ->
           exists entries f, emails_dir w = Some entries /\ In f (collected entries)
             /\ p = ["reports"; path_stem f +:+ "_report.json"])
     /\ (forall p, In (EvReadText p) evs ->
           exists entries, emails_dir w = Some entries /\ In p (collected entries)))
  /\ forall p,
       (forall entries f, emails_dir w = Some entries -> In f (collected entries) ->
          report_path f <> p) ->
       disk (snd (main w s)) !! p = disk s !! p.
Proof.
  split.
  - destruct (main_log s) as (evs & tail & Hlog & Hev & Htail).
    exists (evs ++ tail). split; [exact Hlog | split].
    + intros p text Hin. apply in_app_or in Hin as [Hin|Hin].
      * rewrite Forall_forall in Hev. apply list_elem_of_In in Hin.
        exact (Hev _ Hin).
      * destruct Htail as [-> | (url & ov & _ & ->)]; [destruct Hin|].
        destruct Hin as [Hin|[]]. discriminate Hin.
    + intros p Hin. apply in_app_or in Hin as [Hin|Hin].
      * rewrite Forall_forall in Hev. apply list_elem_of_In in Hin.
        exact (Hev _ Hin).
      * destruct Htail as [-> | (url & ov & _ & ->)]; [destruct Hin|].
        destruct Hin as [Hin|[]]. discriminate Hin.
  - intros p Hp. rewrite main_eq.
    destruct (load_events_effect w s) as (e1 & H1 & _).
    destruct (load_events w s) as [[events|e] s1]; simpl in H1; subst s1;
      [|reflexivity].
    destruct (gather_emails_effect w (logged s e1)) as (e2 & H2 & _).
    destruct (gather_emails w (logged s e1)) as [[files|e] s2] eqn:Hg;
      simpl in H2; subst s2; [|reflexivity].
    destruct (gather_emails_files w _ _ _ Hg) as (entries & Hd & ->).
    pose proof (for_each_process_disk w events (collected entries) []
                  (logged (logged s e1) e2) p) as Hdisk.
    assert (Hall : Forall (fun f => report_path f <> p) (collected entries)).
    { apply Forall_forall. intros f Hf. apply (Hp entries f Hd).
      now apply list_elem_of_In. }
    specialize (Hdisk Hall).
    destruct (for_each _ _ _ _) as [[overall|e] s3]; simpl in Hdisk.
    + unfold post_digest. destruct (webhook w); simpl; exact Hdisk.
    + exact Hdisk.
Qed.

End RunFootprint.

(** ** The event mapping *)

Lemma find_snoc {A} (p : A -> bool) (l : list A) (x : A) :
  List.find p (l ++ [x]) =
    match List.find p l with
    | Some y => Some y
    | None => if p x then Some x else None
    end.
Proof.
  induction l as [|a l IH]; simpl; [reflexivity|].
  destruct (p a); [reflexivity | exact IH].
Qed.

Lemma last_record_cons cols cells rs id :
  last_record cols (cells :: rs) id =
    match last_record cols rs id with
    | Some r => Some r
    | None => if bool_decide (row_id cols cells = Some id)
              then Some (to_dict cols cells) else None
    end.
Proof.
  unfold last_record. simpl rev. rewrite find_snoc.
  destruct (List.find _ (rev rs)); [reflexivity|].
  now destruct (bool_decide _).
Qed.

Lemma index_rows_lookup cols rs acc events id :
  index_rows cols rs acc = Ok events ->
  events !! id = match last_record cols rs id with
                 | Some r => Some r
                 | None => acc !! id
                 end.
Proof.
  revert acc. induction rs as [|cells rs IH]; intros acc; simpl.
  - intros [= <-]. reflexivity.
  - destruct (List.find _ (to_dict cols cells)) as [kv|] eqn:Hf; [|discriminate].
    intros Hr. rewrite (IH _ Hr), last_record_cons.
    destruct (last_record cols rs id); [reflexivity|].
    unfold row_id. rewrite Hf. simpl.
    destruct (decide (snd kv = id)) as [<-|Hne].
    + rewrite bool_decide_eq_true_2 by reflexivity. apply lookup_insert_eq.
    + rewrite bool_decide_eq_false_2 by congruence. now apply lookup_insert_ne.
Qed.

Lemma last_record_row cols rs id record :
  last_record cols rs id = Some record ->
  exists cells, In cells rs /\ record = to_dict cols cells
    /\ row_id cols cells = Some id.
Proof.
  unfold last_record. destruct (List.find _ (rev rs)) as [cells|] eqn:Hf; [|discriminate].
  intros [= <-]. apply find_some in Hf as [Hin Hid].
  exists cells. split; [now apply in_rev | split; [reflexivity|]].
  now apply bool_decide_eq_true in Hid.
Qed.

Lemma row_id_field cols cells id :
  row_id cols cells = Some id -> In ("event_id", id) (to_dict cols cells).
Proof.
  unfold row_id. destruct (List.find _ _) as [[k v]|] eqn:Hf; [|discriminate].
  intros [= <-]. apply find_some in Hf as [Hin Hk]. simpl in *.
  apply String.eqb_eq in Hk. now subst k.
Qed.

(** A table with distinct column names: a row as a dict is the pairs of
    column and cell, in the order of the columns. *)
Lemma dict_of_pairs_nodup (l : list (string * string)) :
  NoDup (map fst l) -> dict_of_pairs l = l.
Proof.
  unfold dict_of_pairs.
  assert (H : forall l acc, NoDup (map fst (acc ++ l)) ->
            fold_left (fun d kv => pairs_set (fst kv) (snd kv) d) l acc = acc ++ l).
  { clear l. induction l as [|[k v] l IH]; intros acc Hnd; simpl.
    - now rewrite app_nil_r.
    - assert (Hset : pairs_set k v acc = acc ++ [(k, v)]).
      { clear IH. induction acc as [|[k' v'] acc IHa]; simpl; [reflexivity|].
        simpl in Hnd. apply NoDup_cons in Hnd as [Hk' Hnd].
        destruct (String.eqb k' k) eqn:E.
        - apply String.eqb_eq in E. subst k'. exfalso. apply Hk'.
          rewrite map_app. simpl. set_solver.
        - now rewrite IHa. }
      rewrite Hset, IH; rewrite <- app_assoc; [reflexivity | exact Hnd]. }
  intros Hnd. now apply (H l []).
Qed.

Lemma to_dict_combine cols cells :
  NoDup cols -> to_dict cols cells = combine cols cells.
Proof.
  intros Hnd. unfold to_dict. apply dict_of_pairs_nodup.
  revert cells. induction Hnd as [|c cols Hc Hnd IH]; intros cells; simpl.
  - constructor.
  - destruct cells as [|x cells]; simpl; [constructor|].
    apply NoDup_cons. split; [|apply IH].
    intros Hin. apply Hc. apply list_elem_of_In in Hin. apply list_elem_of_In.
    apply in_map_iff in Hin as ([k v] & <- & Hkv). simpl.
    now apply in_combine_l in Hkv.
Qed.

Lemma to_dict_keys cols cells k :
  In k (map fst (to_dict cols cells)) -> In k cols.
Proof.
  unfold to_dict, dict_of_pairs.
  assert (H : forall l acc,
            NoDup (map fst acc) ->
            In k (map fst (fold_left (fun d kv => pairs_set (fst kv) (snd kv) d) l acc)) ->
            In k (map fst acc) \/ In k (map fst l)).
  { induction l as [|[k0 v0] l IH]; intros acc Hnd; simpl; [auto|].
    intros Hin. destruct (pairs_set_keys k0 v0 acc Hnd) as [Hnd' Hkeys].
    destruct (IH _ Hnd' Hin) as [Hacc|Hl]; [|auto].
    destruct (Hkeys _ Hacc) as [->|Hacc']; auto. }
  intros Hin. destruct (H _ [] (NoDup_nil_2) Hin) as [[]|Hin'].
  apply in_map_iff in Hin' as ([k' v] & <- & Hkv). simpl.
  now apply in_combine_l in Hkv.
Qed.

Section EventMapping.

Context {R : Runtime} (w : World).

(** X8. When [load_events] returns, the record under an identifier is the
    last row of the table with that identifier, rows without it apart; the
    record holds the identifier in its field [event_id]; and when the
    column names are distinct it is the pairs of column and cell of that
    row, in the order of the columns. *)
Theorem last_row_wins s events s' :
  load_events w s = (Ok events, s') ->
  exists df, events_csv w = Some (Ok df)
    /\ (forall id, events !! id = last_record (columns df) (rows df) id)
    /\ (forall id record, events !! id = Some record ->
          In ("event_id", id) record
          /\ exists cells, In cells (rows df) /\ record = to_dict (columns df) cells
               /\ (NoDup (columns df) -> record = combine (columns df) cells)).
Proof.
  unfold load_events, path_exists, bind, emit, ret, raise, lift. simpl.
  destruct (events_csv w) as [[df|e]|]; try discriminate.
  destruct (index_rows (columns df) (rows df) ∅) as [ev|e] eqn:Hi; try discriminate.
  intros [= <- _]. exists df. split; [reflexivity|].
  assert (Hl : forall id, ev !! id = last_record (columns df) (rows df) id).
  { intros id. rewrite (index_rows_lookup _ _ _ _ id Hi).
    destruct (last_record _ _ id); [reflexivity | apply lookup_empty]. }
  split; [exact Hl|]. intros id record Hr. rewrite Hl in Hr.
  destruct (last_record_row _ _ _ _ Hr) as (cells & Hin & -> & Hid).
  split; [now apply row_id_field|].
  exists cells. split; [exact Hin | split; [reflexivity|]].
  intros Hnd. now apply to_dict_combine.
Qed.

(** X9. A table without the column [event_id]: with no row, the mapping is
    empty and the run goes on; with a row, reading the identifier of the
    first row raises, and the run ends there, before it looks at the emails
    directory. *)
Theorem missing_id_column s df :
  events_csv w = Some (Ok df) ->
  ~ In "event_id" (columns df) ->
  load_events w s =
    (match rows df with [] => Ok ∅ | _ :: _ => Raise AttributeError end,
     logged s load_log)
  /\ (rows df <> [] -> main w s = (Raise AttributeError, logged s load_log)).
Proof.
  intros Hc Hcol.
  assert (Hi : index_rows (columns df) (rows df) ∅ =
               match rows df with [] => Ok ∅ | _ :: _ => Raise AttributeError end).
  { destruct (rows df) as [|cells rs]; [reflexivity|]. simpl.
    destruct (List.find _ (to_dict (columns df) cells)) as [[k v]|] eqn:Hf; [|reflexivity].
    exfalso. apply find_some in Hf as [Hin Hk]. simpl in Hk.
    apply String.eqb_eq in Hk. subst k. apply Hcol.
    apply (to_dict_keys _ cells). apply in_map_iff. now exists ("event_id", v). }
  assert (Hl : load_events w s =
    (match rows df with [] => Ok ∅ | _ :: _ => Raise AttributeError end,
     logged s load_log)).
  { unfold load_events, path_exists, bind, emit, ret, raise, lift. simpl.
    rewrite Hc, Hi. unfold logged, load_log. simpl. rewrite <- app_assoc.
    now destruct (rows df). }
  split; [exact Hl|]. intros Hrows. rewrite main_eq, Hl.
  destruct (rows df); [congruence | reflexivity].
Qed.

End EventMapping.

(** ** The loop over the drafts *)

Section Loop.

Context {R : Runtime} (w : World).

Lemma for_each_skipped events l overall s :
  Forall (fun f => events !! extract_event_id f = None) l ->
  for_each (process w events) l overall s = (Ok overall, logged s (map skip_event l)).
Proof.
  revert s. induction l as [|f l IH]; intros s Hall; simpl.
  - unfold ret, logged. simpl. rewrite app_nil_r. now destruct s.
  - apply Forall_cons in Hall as [Hf Hl].
    rewrite (bind_ok _ _ _ _ _ (process_skip w events f overall s Hf)).
    rewrite (IH _ Hl), logged_logged. reflexivity.
Qed.

(** A loop that ends normally: an entry of [overall] for each draft with a
    record, in order, and the log of one turn after the other. *)
Lemma for_each_turns events l overall s overall' s' :
  for_each (process w events) l overall s = (Ok overall', s') ->
  map fst overall' = map fst overall ++ map path_name (List.filter (has_record events) l)
  /\ exists turns, log s' = log s ++ concat turns
       /\ Forall2 (turn_log w events) l turns.
Proof.
  revert overall s. induction l as [|f l IH]; intros overall s; simpl.
  - intros [= <- <-]. split; [now rewrite app_nil_r|].
    exists []. split; [now rewrite app_nil_r | constructor].
  - unfold bind. pose proof (process_cases w events f overall s) as Hp.
    destruct (events !! extract_event_id f) as [event_meta|] eqn:He.
    + assert (Hrec : has_record events f = true)
        by (unfold has_record; rewrite He; apply bool_decide_eq_true_2; eauto).
      rewrite Hrec.
      destruct (draft_text w f) as [email_text|e] eqn:Ht;
        [|rewrite Hp; discriminate].
      cbv zeta in Hp.
      destruct (service w _ _) as [[reply|]|e]; try (rewrite Hp; discriminate).
      destruct (json_loads reply) as [report|]; [|rewrite Hp; discriminate].
      rewrite Hp. destruct (cli_summary f report) as [[line tl]|e]; [|discriminate].
      intros Hrest. destruct (IH _ _ Hrest) as (Hov & turns & Hlog & Hturns).
      split.
      * rewrite Hov, map_app. simpl. now rewrite <- app_assoc.
      * exists ([ EvReadText f; EvCreate (llm_request event_meta email_text);
                  EvWriteText (report_path f) (json_dumps (Some 2) report);
                  EvPrint line ] :: turns). split.
        -- rewrite Hlog. simpl log. rewrite <- !app_assoc. simpl. reflexivity.
        -- constructor; [|exact Hturns]. unfold turn_log. rewrite He.
           exists email_text, (json_dumps (Some 2) report), line. auto.
    + assert (Hrec : has_record events f = false).
      { unfold has_record. rewrite He. apply bool_decide_eq_false_2.
        intros [? ?]. discriminate. }
      rewrite Hrec, Hp. intros Hrest.
      destruct (IH _ _ Hrest) as (Hov & turns & Hlog & Hturns).
      split; [exact Hov|].
      exists ([EvPrint (skip_notice f (extract_event_id f))] :: turns). split.
      * rewrite Hlog. simpl log. rewrite <- !app_assoc. simpl. reflexivity.
      * constructor; [|exact Hturns]. unfold turn_log. now rewrite He.
Qed.

(** X10. When no collected draft has a record (as with a table without
    rows), the run prints one notice per draft, in the order of the
    collection, and nothing else happens to the drafts: no draft is read,
    no request is sent, no file is written; the digest, if one is posted,
    is the header alone. *)
Theorem unmatched_drafts_only_noticed s df events entries :
  events_csv w = Some (Ok df) ->
  index_rows (columns df) (rows df) ∅ = Ok events ->
  emails_dir w = Some entries ->
  Forall (fun f => events !! extract_event_id f = None) (collected entries) ->
  main w s
  = post_digest w []
      (logged s (load_log ++ gather_events ++ map skip_event (collected entries)))
  /\ disk (snd (main w s)) = disk s
  /\ digest w [] = digest_header w.
Proof.
  intros Hc Hi Hd Hall.
  assert (Hm : main w s = post_digest w []
      (logged s (load_log ++ gather_events ++ map skip_event (collected entries)))).
  { rewrite (main_loaded w s df events entries Hc Hi Hd).
    rewrite (for_each_skipped _ _ _ _ Hall), logged_logged.
    now rewrite <- app_assoc. }
  split; [exact Hm | split].
  - rewrite Hm. unfold post_digest. now destruct (webhook w).
  - unfold digest. simpl. apply sapp_nil_r.
Qed.

(** X11. The shape of a run that ends normally.  Its log is: the load of
    the table, the scan of the directory, then for each collected draft,
    in order, its turn (a notice for a draft without a record; a read, one
    request, the write of its report and a summary line for a draft with
    one), then the post of the digest when a webhook is configured.  The
    digest has one line for each draft with a record, in that order. *)
Theorem completed_run_trace s :
  fst (main w s) = Ok tt ->
  exists df events entries overall turns,
    events_csv w = Some (Ok df)
    /\ index_rows (columns df) (rows df) ∅ = Ok events
    /\ emails_dir w = Some entries
    /\ log (snd (main w s)) = log s ++ run_log w turns overall
    /\ Forall2 (turn_log w events) (collected entries) turns
    /\ map fst overall
       = map path_name (List.filter (has_record events) (collected entries)).
Proof.
  intros Hok. rewrite main_eq in Hok |- *.
  destruct (load_events w s) as [[events|e] s1] eqn:Hl; [|discriminate].
  assert (Hsrc : exists df, events_csv w = Some (Ok df)
                   /\ index_rows (columns df) (rows df) ∅ = Ok events).
  { revert Hl. unfold load_events, path_exists, bind, emit, ret, raise, lift. simpl.
    destruct (events_csv w) as [[df|e]|]; try discriminate.
    destruct (index_rows (columns df) (rows df) ∅) as [ev|e] eqn:Hi; try discriminate.
    intros [= <- _]. eauto. }
  destruct Hsrc as (df & Hc & Hi).
  rewrite (load_events_ok w s df events Hc Hi) in Hl. injection Hl as <-.
  destruct (gather_emails w _) as [[files|e] s2] eqn:Hg; [|discriminate].
  destruct (gather_emails_files w _ _ _ Hg) as (entries & Hd & ->).
  rewrite (gather_emails_ok w _ entries Hd) in Hg. injection Hg as <-.
  destruct (for_each _ _ _ _) as [[overall|e] s3] eqn:Hloop; [|discriminate].
  destruct (for_each_turns _ _ _ _ _ _ Hloop) as (Hov & turns & Hlog & Hturns).
  exists df, events, entries, overall, turns.
  repeat (split; [assumption|]). split; [|split; [exact Hturns | exact Hov]].
  unfold run_log, post_digest. simpl in Hlog.
  destruct (webhook w); simpl; rewrite Hlog, <- !app_assoc; simpl;
    [reflexivity | now rewrite app_nil_r].
Qed.

End Loop.

(** ** The traffic light on the terminal and in the digest *)

Section Lights.

Context {R : Runtime} (w : World).

(** X12. A traffic light that is one of GREEN, YELLOW and RED is printed
    in its colour on the terminal, and kept as the plain word for the
    digest: the line of the digest holds no colour code. *)
Theorem recognised_light_coloured events f overall s event_meta email_text
    reply entries tl colour n_errors n_warnings :
  events !! extract_event_id f = Some event_meta ->
  draft_text w f = Ok email_text ->
  service w (log s ++ [EvReadText f]) (llm_request event_meta email_text)
    = Ok (Some reply) ->
  json_loads reply = Some (JDict entries) ->
  dict_get "traffic_light" entries = Some (JStr tl) ->
  In (tl, colour) [("GREEN", "green"); ("YELLOW", "yellow"); ("RED", "red")] ->
  py_len (default (JList []) (dict_get "errors" entries)) = Ok n_errors ->
  py_len (default (JList []) (dict_get "warnings" entries)) = Ok n_warnings ->
  process w events f overall s =
    (Ok (overall ++ [(path_name f, JStr tl)]),
     logged (written s f (llm_request event_meta email_text)
               (json_dumps (Some 2) (JDict entries)))
       [EvPrint (path_name f +:+ ": " +:+ colored tl colour +:+ " – "
                 +:+ Py.str_nat n_errors +:+ " errors, "
                 +:+ Py.str_nat n_warnings +:+ " warnings")])
  /\ summary_line (path_name f, JStr tl) = "*" +:+ path_name f +:+ "* → " +:+ tl.
Proof.
  intros He Ht Hs Hj Htl Hin Hne Hnw. split; [|reflexivity].
  rewrite (process_parsed w events f overall s _ _ _ _ He Ht Hs Hj).
  cbv zeta. unfold cli_summary. rewrite !py_get_dict, Htl. simpl default.
  destruct Hin as [[= <- <-]|[[= <- <-]|[[= <- <-]|[]]]];
    simpl colour_light; now rewrite Hne, Hnw.
Qed.

(** X13. A traffic light that is present but is no string (null, a
    boolean, a number) is not replaced by the default: it is printed the
    way [str] shows it, null as [None], on the terminal and in the
    digest, and kept as it is in [overall]. *)
Theorem scalar_light_shown events f overall s event_meta email_text
    reply entries tl n_errors n_warnings :
  events !! extract_event_id f = Some event_meta ->
  draft_text w f = Ok email_text ->
  service w (log s ++ [EvReadText f]) (llm_request event_meta email_text)
    = Ok (Some reply) ->
  json_loads reply = Some (JDict entries) ->
  dict_get "traffic_light" entries = Some tl ->
  hashable tl = true ->
  (forall text, tl <> JStr text) ->
  py_len (default (JList []) (dict_get "errors" entries)) = Ok n_errors ->
  py_len (default (JList []) (dict_get "warnings" entries)) = Ok n_warnings ->
  process w events f overall s =
    (Ok (overall ++ [(path_name f, tl)]),
     logged (written s f (llm_request event_meta email_text)
               (json_dumps (Some 2) (JDict entries)))
       [EvPrint (path_name f +:+ ": " +:+ py_str tl +:+ " – "
                 +:+ Py.str_nat n_errors +:+ " errors, "
                 +:+ Py.str_nat n_warnings +:+ " warnings")])
  /\ summary_line (path_name f, tl) = "*" +:+ path_name f +:+ "* → " +:+ py_str tl
  /\ (tl = JNull -> py_str tl = "None" /\ py_str tl <> "?").
Proof.
  intros He Ht Hs Hj Htl Hh Hstr Hne Hnw. split; [|split].
  - rewrite (process_parsed w events f overall s _ _ _ _ He Ht Hs Hj).
    cbv zeta. unfold cli_summary. rewrite !py_get_dict, Htl. simpl default.
    destruct tl as [ | b | n | r | text | items | fields ]; try discriminate;
      try (simpl colour_light; now rewrite Hne, Hnw).
    now destruct (Hstr text).
  - reflexivity.
  - intros ->. split; [reflexivity | discriminate].
Qed.

End Lights.

(** ** The collection of the drafts *)

Lemma endswith_last (name suffix : string) (c : ascii) :
  Py.endswith name suffix = true ->
  get (String.length suffix - 1) suffix = Some c ->
  get (String.length name - 1) name = Some c.
Proof.
  unfold Py.endswith. intros H Hc. apply andb_true_iff in H as [Hlen Heq].
  apply Nat.leb_le in Hlen. apply String.eqb_eq in Heq.
  assert (Hpos : 0 < String.length suffix).
  { destruct suffix; [discriminate | simpl; lia]. }
  pose proof (substring_correct1 name (String.length name - String.length suffix)
                (String.length suffix) (String.length suffix - 1)) as Hsub.
  rewrite Heq, Hc in Hsub. symmetry.
  replace (String.length name - 1)
    with (String.length suffix - 1 + (String.length name - String.length suffix)) by lia.
  apply Hsub. lia.
Qed.

Lemma endswith_exclusive (name : string) :
  Py.endswith name ".md" = true -> Py.endswith name ".txt" = true -> False.
Proof.
  intros Hmd Htxt.
  pose proof (endswith_last name ".md" "d" Hmd eq_refl) as H1.
  pose proof (endswith_last name ".txt" "t" Htxt eq_refl) as H2.
  rewrite H1 in H2. discriminate.
Qed.

Lemma matching_In suffix entries p :
  In p (matching suffix entries) <->
  exists e, In e entries /\ p = path_div EMAIL_DIR (entry_name e)
    /\ Py.endswith (entry_name e) suffix = true.
Proof.
  unfold matching. rewrite in_map_iff. split.
  - intros (e & <- & He). apply list_elem_of_In, list_elem_of_filter in He as [Hs He].
    exists e. split; [now apply list_elem_of_In | split; [reflexivity|]].
    now apply Is_true_true.
  - intros (e & He & -> & Hs). exists e. split; [reflexivity|].
    apply list_elem_of_In, list_elem_of_filter. split; [now apply Is_true_true|].
    now apply list_elem_of_In.
Qed.

Lemma path_div_inj (dir : Path) (a b : string) : path_div dir a = path_div dir b -> a = b.
Proof. unfold path_div. intros H. now apply app_inj_tail in H as [_ H]. Qed.

Lemma matching_nodup suffix entries :
  NoDup (map entry_name entries) -> NoDup (matching suffix entries).
Proof.
  induction entries as [|e es IH]; simpl; intros Hnd; [constructor|].
  apply NoDup_cons in Hnd as [Hname Hnd]. unfold matching in *.
  rewrite filter_cons. destruct (decide _); [|now apply IH].
  simpl. apply NoDup_cons. split; [|now apply IH].
  intros Hin. apply Hname. apply list_elem_of_In in Hin. apply list_elem_of_In.
  apply in_map_iff in Hin as (e' & Hp & He'). apply path_div_inj in Hp.
  apply in_map_iff. exists e'. split; [exact Hp|].
  apply list_elem_of_In, list_elem_of_filter in He' as [_ He'].
  now apply list_elem_of_In.
Qed.

Section Collection.

Context {R : Runtime} (w : World).

(** X14. [gather_emails] returns the entries of the emails directory whose
    name ends with [.md] or with [.txt], and no other path: each as a path
    in that directory; an entry of another name is left out; and an entry
    is collected once (the names of a directory are distinct, and no name
    ends both ways), so no draft is processed twice. *)
Theorem gathered_drafts s entries :
  emails_dir w = Some entries ->
  exists files,
    gather_emails w s = (Ok files, logged s gather_events)
    /\ (forall p, In p files <->
          exists e, In e entries /\ p = ["emails"; entry_name e]
            /\ (Py.endswith (entry_name e) ".md"
                || Py.endswith (entry_name e) ".txt") = true)
    /\ (NoDup (map entry_name entries) -> NoDup files).
Proof.
  intros Hd. exists (collected entries). split; [now apply gather_emails_ok | split].
  - intros p. unfold collected. rewrite in_app_iff, !matching_In. split.
    + intros [(e & He & -> & Hs)|(e & He & -> & Hs)]; exists e;
        (split; [exact He | split; [reflexivity|]]); rewrite Hs;
        [reflexivity | apply orb_true_r].
    + intros (e & He & -> & Hs). apply orb_true_iff in Hs as [Hs|Hs];
        [left | right]; exists e; auto.
  - intros Hnd. unfold collected. apply NoDup_app.
    split; [now apply matching_nodup | split; [|now apply matching_nodup]].
    intros p Hmd Htxt. apply list_elem_of_In, matching_In in Hmd as (e1 & _ & -> & H1).
    apply list_elem_of_In, matching_In in Htxt as (e2 & _ & Hp & H2).
    apply path_div_inj in Hp. rewrite Hp in H1.
    exact (endswith_exclusive _ H1 H2).
Qed.

End Collection.

(** ** The naming of the drafts *)

Lemma truncate_at_app c id rest :
  occurs c id = false -> truncate_at c (id +:+ String c rest) = id.
Proof.
  induction id as [|a id IH]; simpl; intros H.
  - sapp. simpl. now rewrite Ascii.eqb_refl.
  - apply orb_false_iff in H as [Ha Hid]. sapp. simpl. rewrite Ha.
    now rewrite IH.
Qed.

(** X15. The naming convention read back: a draft named
    [<id>_<rest>.<ext>], where [<id>] has no underscore and [<ext>] is not
    empty and has no dot, has the identifier [<id>], whatever [<rest>] is
    (dots and underscores included); a draft named [<id>.<ext>] has it as
    well when [<id>] is not empty.  A name that starts with an underscore
    has the empty identifier. *)
Theorem named_draft_identified (dir : Path) (id rest ext : string) :
  occurs "_" id = false -> ext <> EmptyString -> occurs "." ext = false ->
  extract_event_id (path_div dir (id +:+ String "_" (rest +:+ String "." ext))) = id
  /\ (id <> EmptyString -> extract_event_id (path_div dir (id +:+ String "." ext)) = id).
Proof.
  intros Hid Hext Hdot. split.
  - unfold extract_event_id. rewrite split_first.
    replace (id +:+ String "_" (rest +:+ String "." ext))
      with ((id +:+ String "_" rest) +:+ String "." ext)
      by (now rewrite sapp_assoc).
    rewrite path_stem_ext; [now apply truncate_at_app | | assumption | assumption].
    destruct id; discriminate.
  - intros Hne. unfold extract_event_id. rewrite split_first.
    rewrite path_stem_ext by assumption.
    pose proof (truncate_at_prefix "_" id) as H. now rewrite Hid in H.
Qed.

(** ** Two drafts, one report *)

Lemma Forall2_In_l {A B} (P : A -> B -> Prop) (l : list A) (k : list B) (x : A) :
  Forall2 P l k -> In x l -> exists y, In y k /\ P x y.
Proof.
  induction 1 as [|a b l k Hab _ IH]; intros Hin; [destruct Hin|].
  destruct Hin as [<-|Hin].
  - exists b. split; [now left | exact Hab].
  - destruct (IH Hin) as (y & Hy & Hxy). exists y. split; [now right | exact Hxy].
Qed.

Lemma report_path_ext (dir : Path) (base ext : string) :
  base <> EmptyString -> ext <> EmptyString -> occurs "." ext = false ->
  report_path (path_div dir (base +:+ String "." ext))
  = ["reports"; base +:+ "_report.json"].
Proof. intros Hb He Hdot. unfold report_path. now rewrite path_stem_ext. Qed.

Section SharedReport.

Context {R : Runtime} (w : World).

(** X16. The name of a report does not keep the extension of the draft,
    so the drafts [<base>.md] and [<base>.txt] share the report
    [<base>_report.json].  In a run that reaches both, the report of the
    first is written and then replaced: at the end of the run the file
    holds the report of the [.txt] draft (unless a later draft of the same
    stem replaces it in turn). *)
Theorem same_stem_report_replaced s df events entries pre post overall s1 base
    event_meta email_text reply report :
  base <> EmptyString ->
  events_csv w = Some (Ok df) ->
  index_rows (columns df) (rows df) ∅ = Ok events ->
  emails_dir w = Some entries ->
  collected entries = pre ++ path_div EMAIL_DIR (base +:+ ".txt") :: post ->
  In (path_div EMAIL_DIR (base +:+ ".md")) pre ->
  for_each (process w events) pre [] (logged s (load_log ++ gather_events))
    = (Ok overall, s1) ->
  events !! extract_event_id (path_div EMAIL_DIR (base +:+ ".txt")) = Some event_meta ->
  draft_text w (path_div EMAIL_DIR (base +:+ ".txt")) = Ok email_text ->
  service w (log s1 ++ [EvReadText (path_div EMAIL_DIR (base +:+ ".txt"))])
    (llm_request event_meta email_text) = Ok (Some reply) ->
  json_loads reply = Some report ->
  Forall (fun h => report_path h <> ["reports"; base +:+ "_report.json"]) post ->
  report_path (path_div EMAIL_DIR (base +:+ ".md")) = ["reports"; base +:+ "_report.json"]
  /\ report_path (path_div EMAIL_DIR (base +:+ ".txt")) = ["reports"; base +:+ "_report.json"]
  /\ (exists text, In (EvWriteText ["reports"; base +:+ "_report.json"] text) (log s1))
  /\ disk (snd (main w s)) !! ["reports"; base +:+ "_report.json"]
     = Some (json_dumps (Some 2) report).
Proof.
  intros Hb Hc Hi Hd Hfiles Hin Hpre He Ht Hs Hj Hpost.
  assert (Hmd : report_path (path_div EMAIL_DIR (base +:+ ".md"))
                = ["reports"; base +:+ "_report.json"])
    by (now apply (report_path_ext EMAIL_DIR base "md")).
  assert (Htxt : report_path (path_div EMAIL_DIR (base +:+ ".txt"))
                 = ["reports"; base +:+ "_report.json"])
    by (now apply (report_path_ext EMAIL_DIR base "txt")).
  split; [exact Hmd | split; [exact Htxt | split]].
  - destruct (for_each_turns w _ _ _ _ _ _ Hpre) as (_ & turns & Hlog & Hturns).
    destruct (Forall2_In_l _ _ _ _ Hturns Hin) as (evs & Hevs & Hturn).
    unfold turn_log in Hturn.
    assert (Hid : extract_event_id (path_div EMAIL_DIR (base +:+ ".md"))
                  = extract_event_id (path_div EMAIL_DIR (base +:+ ".txt"))).
    { unfold extract_event_id.
      rewrite (path_stem_ext EMAIL_DIR base "md"), (path_stem_ext EMAIL_DIR base "txt");
        try reflexivity; try assumption; discriminate. }
    rewrite Hid, He in Hturn. destruct Hturn as (email_md & text & line & _ & ->).
    exists text. rewrite Hlog. apply in_or_app. right.
    apply in_concat. eexists. split; [exact Hevs|]. rewrite Hmd. simpl. auto.
  - rewrite <- Htxt.
    apply (main_after_write w s df events entries pre _ post overall s1
             event_meta email_text reply report Hc Hi Hd Hfiles Hpre He Ht Hs Hj).
    now rewrite Htxt.
Qed.

End SharedReport.

(** ** Running the script again *)

Lemma apply_writes_app ws1 ws2 d :
  apply_writes (ws2 ++ ws1) d = apply_writes ws2 (apply_writes ws1 d).
Proof. unfold apply_writes. now rewrite foldr_app. Qed.

Lemma apply_writes_lookup ws d p :
  apply_writes ws d !! p =
    match List.find (fun pt => bool_decide (fst pt = p)) ws with
    | Some pt => Some (snd pt)
    | None => d !! p
    end.
Proof.
  induction ws as [|[q t] ws IH]; simpl; [reflexivity|].
  destruct (decide (q = p)) as [->|Hne].
  - rewrite bool_decide_eq_true_2 by reflexivity. apply lookup_insert_eq.
  - rewrite bool_decide_eq_false_2 by assumption.
    rewrite lookup_insert_ne by assumption. exact IH.
Qed.

Lemma apply_writes_twice ws d : apply_writes ws (apply_writes ws d) = apply_writes ws d.
Proof.
  apply map_eq. intros p. rewrite !apply_writes_lookup.
  now destruct (List.find _ ws).
Qed.

Section Rerun.

Context {R : Runtime} (w : World).

Hypothesis stateless : memoryless w.

(** Two turns for the same draft, from any two states: the same outcome
    and the same file written. *)
Lemma process_twice events f overall a b :
  fst (process w events f overall a) = fst (process w events f overall b)
  /\ exists ws,
       disk (snd (process w events f overall a)) = apply_writes ws (disk a)
       /\ disk (snd (process w events f overall b)) = apply_writes ws (disk b).
Proof.
  pose proof (process_cases w events f overall a) as Ha.
  pose proof (process_cases w events f overall b) as Hb.
  destruct (events !! extract_event_id f) as [event_meta|].
  2:{ rewrite Ha, Hb. split; [reflexivity | now exists []]. }
  destruct (draft_text w f) as [email_text|e].
  2:{ rewrite Ha, Hb. split; [reflexivity | now exists []]. }
  cbv zeta in Ha, Hb.
  rewrite (stateless (log b ++ [EvReadText f]) (log a ++ [EvReadText f])) in Hb.
  destruct (service w _ _) as [[reply|]|e];
    try (rewrite Ha, Hb; split; [reflexivity | now exists []]).
  destruct (json_loads reply) as [report|];
    try (rewrite Ha, Hb; split; [reflexivity | now exists []]).
  rewrite Ha, Hb.
  destruct (cli_summary f report) as [[line tl]|e]; simpl;
    (split; [reflexivity|]);
    now exists [(report_path f, json_dumps (Some 2) report)].
Qed.

Lemma for_each_twice events l overall a b :
  fst (for_each (process w events) l overall a)
  = fst (for_each (process w events) l overall b)
  /\ exists ws,
       disk (snd (for_each (process w events) l overall a)) = apply_writes ws (disk a)
       /\ disk (snd (for_each (process w events) l overall b)) = apply_writes ws (disk b).
Proof.
  revert overall a b. induction l as [|f l IH]; intros overall a b; simpl.
  - split; [reflexivity | now exists []].
  - unfold bind. destruct (process_twice events f overall a b) as (Hr & ws1 & Hda & Hdb).
    destruct (process w events f overall a) as [ra a1].
    destruct (process w events f overall b) as [rb b1]. simpl in Hr, Hda, Hdb. subst rb.
    destruct ra as [overall1|e].
    + destruct (IH overall1 a1 b1) as (Hr2 & ws2 & Hda2 & Hdb2).
      split; [exact Hr2|]. exists (ws2 ++ ws1).
      now rewrite !apply_writes_app, <- Hda, <- Hdb.
    + split; [reflexivity | now exists ws1].
Qed.

(** A run, and a run at another time from another state: the same files
    written, and the same outcome when the webhook answers alike. *)
Lemma main_twice t a b :
  (exists ws,
     disk (snd (main w a)) = apply_writes ws (disk a)
     /\ disk (snd (main (at_time w t) b)) = apply_writes ws (disk b))
  /\ (indifferent w -> fst (main w a) = fst (main (at_time w t) b)).
Proof.
  rewrite !main_eq.
  change (load_events (at_time w t)) with (load_events w).
  destruct (events_csv w) as [[df|e]|] eqn:Hc.
  - destruct (index_rows (columns df) (rows df) ∅) as [events|e] eqn:Hi.
    + rewrite !(load_events_ok w _ df events Hc Hi).
      change (gather_emails (at_time w t)) with (gather_emails w).
      destruct (emails_dir w) as [entries|] eqn:Hd.
      * rewrite !(gather_emails_ok w _ entries Hd).
        change (process (at_time w t)) with (process w).
        destruct (for_each_twice events (collected entries) []
                    (logged (logged a [EvExists EVENT_CSV true; EvReadCsv EVENT_CSV])
                       gather_events)
                    (logged (logged b [EvExists EVENT_CSV true; EvReadCsv EVENT_CSV])
                       gather_events))
          as (Hr & ws & Hda & Hdb).
        destruct (for_each _ _ _ _) as [ra a1].
        destruct (for_each _ _ _ _) as [rb b1]. simpl in Hr, Hda, Hdb. subst rb.
        destruct ra as [overall|e]; [|split; [now exists ws | reflexivity]].
        unfold post_digest.
        change (webhook (at_time w t)) with (webhook w).
        change (post (at_time w t)) with (post w).
        destruct (webhook w) as [url|]; simpl.
        -- split; [now exists ws|]. intros Hpost.
           now rewrite (Hpost (log a1) (log b1) url (digest_body (digest w overall))
                          (digest_body (digest (at_time w t) overall))).
        -- split; [now exists ws | reflexivity].
      * rewrite !(gather_emails_missing w _ Hd). split; [now exists [] | reflexivity].
    + assert (Hl : forall s, load_events w s = (Raise e, logged s load_log)).
      { intros s. unfold load_events, path_exists, bind, emit, ret, raise, lift. simpl.
        rewrite Hc, Hi. unfold logged, load_log. simpl. now rewrite <- app_assoc. }
      rewrite !Hl. split; [now exists [] | reflexivity].
  - assert (Hl : forall s, load_events w s = (Raise e, logged s load_log)).
    { intros s. unfold load_events, path_exists, bind, emit, ret, raise, lift. simpl.
      rewrite Hc. unfold logged, load_log. simpl. now rewrite <- app_assoc. }
    rewrite !Hl. split; [now exists [] | reflexivity].
  - rewrite !(load_events_missing w _ Hc). split; [now exists [] | reflexivity].
Qed.

End Rerun.

(** X17. Running the script again on the same inputs, at whatever time,
    leaves every file as the first run left it, as long as the service
    answers a request the same way whatever happened before.  The second
    run reads the clock anew, so the digest it posts has another header:
    it ends as the first run did (normally, or with the same exception)
    when, in addition, the answer of the webhook depends neither on what
    happened before nor on the message. *)
Theorem rerun_changes_nothing {R : Runtime} (w : World) (t : datetime) (s : State) :
  memoryless w ->
  disk (snd (main (at_time w t) (snd (main w s)))) = disk (snd (main w s))
  /\ (indifferent w ->
      fst (main (at_time w t) (snd (main w s))) = fst (main w s)).
Proof.
  intros Hw.
  destruct (main_twice w Hw t s (snd (main w s))) as ((ws & Hda & Hdb) & Hr).
  split.
  - rewrite Hdb, Hda. apply apply_writes_twice.
  - intros Hpost. symmetry. now apply Hr.
Qed.

(** * The further properties on the example inputs *)

Lemma missing_directory_aborts_witness :
  main ex_no_directory init =
    (Raise (FileNotFoundError "emails/ directory not found."),
     logged init (load_log ++ [EvExists EMAIL_DIR false])).
Proof.
  refine (missing_directory_aborts ex_no_directory init ex_frame ex_events eq_refl _ eq_refl).
  vm_compute. reflexivity.
Defined.

Lemma turn_exception_ends_run_witness :
  fst (main ex_broken init) = Raise JSONDecodeError.
Proof.
  refine (f_equal fst
            (proj1 (turn_exception_ends_run ex_broken init ex_frame ex_events ex_entries
                      [ex_invite; ex_promo; ex_notes] ex_reminder []
                      [("EVT1_invite_v1.md", JStr "YELLOW")]
                      (snd (for_each (process ex_broken ex_events)
                              [ex_invite; ex_promo; ex_notes] [] ex_start))
                      JSONDecodeError
                      (snd (main ex_broken init))
                      eq_refl _ eq_refl _ _ _)));
    vm_compute; reflexivity.
Defined.

Lemma no_report_without_reply_witness :
  process ex_unreadable ex_events ex_invite [] ex_start
  = (Raise (ForeignError "UnicodeDecodeError"), logged ex_start [EvReadText ex_invite])
  /\ process ex_refused ex_events ex_invite [] ex_start
     = (Raise (ForeignError "RateLimitError"),
        logged ex_start [EvReadText ex_invite; EvCreate (llm_request ex_record "Join us!")])
  /\ process ex_silent ex_events ex_invite [] ex_start
     = (Raise TypeError,
        logged ex_start [EvReadText ex_invite; EvCreate (llm_request ex_record "Join us!")]).
Proof.
  split; [|split].
  - exact (proj1 (no_report_without_reply ex_unreadable ex_events ex_invite [] ex_start
                    ex_record eq_refl) _ eq_refl).
  - exact (proj1 (proj2 (no_report_without_reply ex_refused ex_events ex_invite [] ex_start
                           ex_record eq_refl)) _ _ eq_refl eq_refl).
  - exact (proj2 (proj2 (no_report_without_reply ex_silent ex_events ex_invite [] ex_start
                           ex_record eq_refl)) _ eq_refl eq_refl).
Defined.

Lemma report_kept_when_summary_fails_witness :
  process ex_array ex_events ex_invite [] ex_start
  = (Raise AttributeError,
     written ex_start ex_invite (llm_request ex_record "Join us!")
       (json_dumps (Some 2) (JList []))).
Proof.
  refine (proj1 (proj2 (report_kept_when_summary_fails ex_array ex_events ex_invite []
                          ex_start ex_record "Join us!" "[]" (JList [])
                          eq_refl _ _ _)) _);
    solve [ vm_compute; reflexivity | discriminate ].
Defined.

Lemma delivery_failure_keeps_reports_witness :
  fst (main ex_undelivered init) = Raise (ForeignError "ConnectionError")
  /\ disk (snd (main ex_undelivered init))
     = disk (snd (for_each (process ex_undelivered ex_events) (collected ex_entries) []
                    ex_start)).
Proof.
  refine (match delivery_failure_keeps_reports ex_undelivered init ex_frame ex_events
                  ex_entries
                  [("EVT1_invite_v1.md", JStr "YELLOW"); ("EVT1_reminder.txt", JStr "YELLOW")]
                  (snd (for_each (process ex_undelivered ex_events) (collected ex_entries) []
                          ex_start))
                  "https://hooks.example/T1" (ForeignError "ConnectionError")
                  eq_refl _ eq_refl _ _ _ with
          | conj Hm Hd => conj (f_equal fst Hm) Hd
          end);
    vm_compute; reflexivity.
Defined.

Lemma last_row_wins_witness :
  exists df, events_csv ex_twice = Some (Ok df)
    /\ (forall id, ex_events_twice !! id = last_record (columns df) (rows df) id)
    /\ (forall id record, ex_events_twice !! id = Some record ->
          In ("event_id", id) record
          /\ exists cells, In cells (rows df) /\ record = to_dict (columns df) cells
               /\ (NoDup (columns df) -> record = combine (columns df) cells)).
Proof.
  refine (last_row_wins ex_twice init ex_events_twice (logged init load_log) _).
  vm_compute. reflexivity.
Defined.

Lemma missing_id_column_witness :
  main ex_no_id_column init = (Raise AttributeError, logged init load_log).
Proof.
  refine (proj2 (missing_id_column ex_no_id_column init _ eq_refl _) _).
  - intros [H|[H|[]]]; discriminate H.
  - discriminate.
Defined.

Lemma unmatched_drafts_only_noticed_witness :
  main ex_strangers init
  = post_digest ex_strangers []
      (logged init (load_log ++ gather_events
                    ++ [ EvPrint (skip_notice ["emails"; "EVT9_promo.md"] "EVT9");
                         EvPrint (skip_notice ["emails"; "notes.txt"] "notes") ])).
Proof.
  refine (proj1 (unmatched_drafts_only_noticed ex_strangers init ex_frame ex_events
                   ex_stranger_entries eq_refl _ eq_refl _)).
  - vm_compute. reflexivity.
  - repeat (constructor; [vm_compute; reflexivity|]). constructor.
Defined.

Lemma completed_run_trace_witness :
  exists df events entries overall turns,
    events_csv ex_yellow = Some (Ok df)
    /\ index_rows (columns df) (rows df) ∅ = Ok events
    /\ emails_dir ex_yellow = Some entries
    /\ log (snd (main ex_yellow init)) = log init ++ run_log ex_yellow turns overall
    /\ Forall2 (turn_log ex_yellow events) (collected entries) turns
    /\ map fst overall
       = map path_name (List.filter (has_record events) (collected entries)).
Proof.
  refine (completed_run_trace ex_yellow init _). vm_compute. reflexivity.
Defined.

Lemma recognised_light_coloured_witness :
  process ex_yellow ex_events ex_invite [] ex_start =
    (Ok [("EVT1_invite_v1.md", JStr "YELLOW")],
     logged (written ex_start ex_invite (llm_request ex_record "Join us!")
               (json_dumps (Some 2) (ex_report "YELLOW")))
       [EvPrint ("EVT1_invite_v1.md: " +:+ colored "YELLOW" "yellow"
                 +:+ " – 0 errors, 1 warnings")])
  /\ summary_line ("EVT1_invite_v1.md", JStr "YELLOW") = "*EVT1_invite_v1.md* → YELLOW".
Proof.
  refine (recognised_light_coloured ex_yellow ex_events ex_invite [] ex_start
            ex_record "Join us!" (ex_reply "YELLOW") (ex_report_entries "YELLOW")
            "YELLOW" "yellow" 0 1 eq_refl _ _ _ eq_refl _ eq_refl eq_refl);
    solve [ vm_compute; reflexivity | right; left; reflexivity ].
Defined.

Lemma scalar_light_shown_witness :
  process ex_null ex_events ex_invite [] ex_start =
    (Ok [("EVT1_invite_v1.md", JNull)],
     logged (written ex_start ex_invite (llm_request ex_record "Join us!")
               (json_dumps (Some 2) (JDict [("traffic_light", JNull)])))
       [EvPrint "EVT1_invite_v1.md: None – 0 errors, 0 warnings"])
  /\ summary_line ("EVT1_invite_v1.md", JNull) = "*EVT1_invite_v1.md* → None".
Proof.
  refine (match scalar_light_shown ex_null ex_events ex_invite [] ex_start
                  ex_record "Join us!" ex_reply_null [("traffic_light", JNull)] JNull 0 0
                  eq_refl _ _ _ eq_refl eq_refl _ eq_refl eq_refl with
          | conj Hp (conj Hl _) => conj Hp Hl
          end);
    solve [ vm_compute; reflexivity | discriminate ].
Defined.

Lemma gathered_drafts_witness :
  exists files,
    gather_emails ex_yellow init = (Ok files, logged init gather_events)
    /\ (forall p, In p files <->
          exists e, In e ex_entries /\ p = ["emails"; entry_name e]
            /\ (Py.endswith (entry_name e) ".md"
                || Py.endswith (entry_name e) ".txt") = true)
    /\ (NoDup (map entry_name ex_entries) -> NoDup files).
Proof. exact (gathered_drafts ex_yellow init ex_entries eq_refl). Defined.

Lemma named_draft_identified_witness :
  extract_event_id ["emails"; "EVT23_invite.v1.md"] = "EVT23"
  /\ extract_event_id ["emails"; "_draft.md"] = EmptyString.
Proof.
  split.
  - refine (proj1 (named_draft_identified EMAIL_DIR "EVT23" "invite.v1" "md" eq_refl _ eq_refl)).
    discriminate.
  - refine (proj1 (named_draft_identified EMAIL_DIR EmptyString "draft" "md" eq_refl _ eq_refl)).
    discriminate.
Defined.

Lemma same_stem_report_replaced_witness :
  (exists text, In (EvWriteText ["reports"; "EVT1_invite_report.json"] text)
                  (log (snd (for_each (process ex_pair ex_events)
                               [["emails"; "EVT1_invite.md"]] [] ex_start))))
  /\ disk (snd (main ex_pair init)) !! ["reports"; "EVT1_invite_report.json"]
     = Some (json_dumps (Some 2) (ex_report "RED")).
Proof.
  refine (match same_stem_report_replaced ex_pair init ex_frame ex_events ex_pair_entries
                  [["emails"; "EVT1_invite.md"]] [] [("EVT1_invite.md", JStr "GREEN")]
                  (snd (for_each (process ex_pair ex_events)
                          [["emails"; "EVT1_invite.md"]] [] ex_start))
                  "EVT1_invite" ex_record "Join us!" (ex_reply "RED") (ex_report "RED")
                  _ eq_refl _ eq_refl _ _ _ _ _ _ _ _ with
          | conj _ (conj _ (conj Hw Hd)) => conj Hw Hd
          end);
    solve [ vm_compute; reflexivity | discriminate | now left | constructor ].
Defined.

Lemma rerun_changes_nothing_witness :
  disk (snd (main (at_time ex_yellow ex_later) (snd (main ex_yellow init))))
  = disk (snd (main ex_yellow init))
  /\ fst (main (at_time ex_yellow ex_later) (snd (main ex_yellow init)))
     = fst (main ex_yellow init).
Proof.
  refine (match rerun_changes_nothing ex_yellow ex_later init (fun _ _ _ => eq_refl) with
          | conj Hd Hr => conj Hd (Hr (fun _ _ _ _ _ => eq_refl))
          end).
Defined.
